(** * Bulk file renamer: a shallow embedding of the rename core

    The development follows the Python sources module by module:
    - [PyStr], [PosixPath], [OS]: the parts of the Python runtime the code
      calls (str methods, os.path on a POSIX host, a small in-memory file
      system standing for the disk);
    - [Validators], [FileUtils], [PatternBuilder], [FileManager], [Renamer]:
      the functions of utils/validators.py, utils/file_utils.py,
      core/pattern_builder.py, core/file_manager.py and core/renamer.py;
    - [PatternEdit], [Sanitize], [FileList], [Orchestrator], [Backup]:
      further functions of the same files (editing and parsing a pattern,
      extensions and sanitizing, the file list and its statistics, the
      rest of the orchestrator, unique names and backups).

    Python objects that are mutated in place (the file list, the pattern
    elements, the undo stack, the disk) are threaded explicitly: every
    method takes the state it reads and returns the state it leaves.

    A Python str is a [string]; one [ascii] stands for one code point, so
    the embedding covers code points below 256. *)

From stdpp Require Import gmap strings list sorting.
From Stdlib Require Import ZArith DecimalString Ascii.

(** ** Python str primitives *)
Module PyStr.

Definition ord (c : ascii) : N := N_of_ascii c.
Definition chr (n : N) : ascii := ascii_of_N n.

Definition in_range (lo hi : N) (c : ascii) : bool :=
  (lo <=? ord c)%N && (ord c <=? hi)%N.

(** Whitespace as str.isspace and the regex class \s see it (code points
    9-13, 28-32, 133 and 160 are the ones below 256). *)
Definition isspace (c : ascii) : bool :=
  in_range 9 13 c || in_range 28 32 c || (ord c =? 133)%N || (ord c =? 160)%N.

(** str.lower, one code point at a time: A-Z and the Latin-1 capitals. *)
Definition lower_char (c : ascii) : ascii :=
  if in_range 65 90 c || (in_range 192 222 c && negb (ord c =? 215)%N)
  then chr (ord c + 32) else c.

Fixpoint lower (s : string) : string :=
  match s with
  | EmptyString => EmptyString
  | String c s' => String (lower_char c) (lower s')
  end.

(** str.upper on the letters whose upper-case form is again below 256 and
    one character long; the other characters are left as they are. *)
Definition upper_char (c : ascii) : ascii :=
  if in_range 97 122 c || (in_range 224 254 c && negb (ord c =? 247)%N)
  then chr (ord c - 32) else c.

Fixpoint upper (s : string) : string :=
  match s with
  | EmptyString => EmptyString
  | String c s' => String (upper_char c) (upper s')
  end.

(** Truth value of a str: non-empty. *)
Definition truthy (s : string) : bool :=
  match s with EmptyString => false | String _ _ => true end.

(** [c in s] for a single character. *)
Fixpoint contains_char (c : ascii) (s : string) : bool :=
  match s with
  | EmptyString => false
  | String d s' => Ascii.eqb c d || contains_char c s'
  end.

(** any(P(c) for c in s). *)
Fixpoint any_char (P : ascii → bool) (s : string) : bool :=
  match s with
  | EmptyString => false
  | String c s' => P c || any_char P s'
  end.

Definition startswith (s pre : string) : bool := String.prefix pre s.

Fixpoint endswith (s suf : string) : bool :=
  String.eqb s suf ||
  match s with
  | EmptyString => false
  | String _ s' => endswith s' suf
  end.

(** str.lstrip / rstrip / strip over a class of characters. *)
Fixpoint lstrip_by (P : ascii → bool) (s : string) : string :=
  match s with
  | EmptyString => EmptyString
  | String c s' => if P c then lstrip_by P s' else s
  end.

Fixpoint rstrip_by (P : ascii → bool) (s : string) : string :=
  match s with
  | EmptyString => EmptyString
  | String c s' =>
      match rstrip_by P s' with
      | EmptyString => if P c then EmptyString else String c EmptyString
      | r => String c r
      end
  end.

Definition strip_by (P : ascii → bool) (s : string) : string :=
  rstrip_by P (lstrip_by P s).

(** s.strip(chars) and s.strip(). *)
Definition strip_chars (chars s : string) : string :=
  strip_by (fun c => contains_char c chars) s.
Definition strip (s : string) : string := strip_by isspace s.

(** s.replace(old, new): leftmost non-overlapping occurrences.  [skip]
    counts the characters of a match still to be dropped. *)
Fixpoint replace_from (old new : string) (skip : nat) (s : string) : string :=
  match s with
  | EmptyString => EmptyString
  | String c s' =>
      match skip with
      | S k => replace_from old new k s'
      | O =>
          if String.prefix old s
          then new +:+ replace_from old new (String.length old - 1) s'
          else String c (replace_from old new 0 s')
      end
  end.

Fixpoint interleave (new s : string) : string :=
  match s with
  | EmptyString => new
  | String c s' => new +:+ String c (interleave new s')
  end.

Definition replace (s old new : string) : string :=
  match old with
  | EmptyString => interleave new s
  | String _ _ => replace_from old new 0 s
  end.

(** re.sub(re.escape(old), new, s, flags=re.IGNORECASE): the pattern is a
    literal, two characters match when their lower-case forms agree.  The
    replacement is taken literally, which is what re.sub does for a
    replacement without backslashes. *)
Fixpoint prefix_ignorecase (p s : string) : bool :=
  match p, s with
  | EmptyString, _ => true
  | String a p', String b s' =>
      Ascii.eqb (lower_char a) (lower_char b) && prefix_ignorecase p' s'
  | String _ _, EmptyString => false
  end.

Fixpoint sub_ignorecase_from (old new : string) (skip : nat) (s : string) : string :=
  match s with
  | EmptyString => EmptyString
  | String c s' =>
      match skip with
      | S k => sub_ignorecase_from old new k s'
      | O =>
          if prefix_ignorecase old s
          then new +:+ sub_ignorecase_from old new (String.length old - 1) s'
          else String c (sub_ignorecase_from old new 0 s')
      end
  end.

Definition sub_ignorecase (old new s : string) : string :=
  match old with
  | EmptyString => interleave new s
  | String _ _ => sub_ignorecase_from old new 0 s
  end.

(** str(n) for an int, and s.zfill(width). *)
Definition str (n : Z) : string := NilZero.string_of_int (Z.to_int n).

Fixpoint zeros (n : nat) : string :=
  match n with O => EmptyString | S k => String "0" (zeros k) end.

Definition zfill (s : string) (width : Z) : string :=
  let fill := zeros (Z.to_nat (width - Z.of_nat (String.length s))%Z) in
  match s with
  | String c s' =>
      if Ascii.eqb c "+" || Ascii.eqb c "-"
      then String c (fill +:+ s') else fill +:+ s
  | EmptyString => fill
  end.

(** s.split(c) on a one-character separator. *)
Fixpoint split (c : ascii) (s : string) : list string :=
  match s with
  | EmptyString => [EmptyString]
  | String d s' =>
      if Ascii.eqb d c then EmptyString :: split c s'
      else
        match split c s' with
        | h :: t => String d h :: t
        | [] => [String d EmptyString]
        end
  end.

(** sep.join(parts). *)
Definition join (sep : string) (parts : list string) : string :=
  String.concat sep parts.

(** int(s) on a decimal literal: an optional sign, then digits with single
    underscores allowed between them; whitespace is ignored at both ends;
    [None] is ValueError. *)
Definition digit (c : ascii) : option Z :=
  if in_range 48 57 c then Some (Z.of_N (ord c) - 48)%Z else None.

(** The whitespace int() ignores at both ends: that of str.isspace below
    256 except the separators 28 to 31, which it refuses. *)
Definition int_space (c : ascii) : bool :=
  isspace c && negb (in_range 28 31 c).

Fixpoint digits_from (acc : Z) (s : string) : option Z :=
  match s with
  | EmptyString => Some acc
  | String c s' =>
      match digit c with
      | Some d => digits_from (10 * acc + d)%Z s'
      | None =>
          if Ascii.eqb c "_" then
            match s' with
            | String c' _ =>
                match digit c' with
                | Some _ => digits_from acc s'
                | None => None
                end
            | EmptyString => None
            end
          else None
      end
  end.

Definition unsigned_int (s : string) : option Z :=
  match s with
  | EmptyString => None
  | String c _ =>
      match digit c with
      | Some _ => digits_from 0%Z s
      | None => None
      end
  end.

Definition int (s : string) : option Z :=
  match strip_by int_space s with
  | String "-" s' => Z.opp <$> unsigned_int s'
  | String "+" s' => unsigned_int s'
  | t => unsigned_int t
  end.

End PyStr.

(** ** os.path on a POSIX host (posixpath) *)
Module PosixPath.
Import PyStr.

Definition sep : ascii := "/".

(** Split at the last occurrence of [c]: text before it, text after it. *)
Fixpoint rpartition (c : ascii) (s : string) : option (string * string) :=
  match s with
  | EmptyString => None
  | String d s' =>
      match rpartition c s' with
      | Some (h, t) => Some (String d h, t)
      | None => if Ascii.eqb d c then Some (EmptyString, s') else None
      end
  end.

Definition is_sep (c : ascii) : bool := Ascii.eqb c sep.

Fixpoint all_sep (s : string) : bool :=
  match s with
  | EmptyString => true
  | String c s' => is_sep c && all_sep s'
  end.

Definition basename (p : string) : string :=
  match rpartition sep p with
  | Some (_, t) => t
  | None => p
  end.

Definition dirname (p : string) : string :=
  match rpartition sep p with
  | Some (h, _) =>
      let head := h +:+ String sep EmptyString in
      if all_sep head then head else rstrip_by is_sep head
  | None => EmptyString
  end.

(** os.path.join(a, b). *)
Definition join (a b : string) : string :=
  if startswith b "/" then b
  else if negb (truthy a) || endswith a "/" then a +:+ b
  else a +:+ "/" +:+ b.

(** genericpath._splitext on a name: the extension starts at the last
    dot, unless only dots precede it. *)
Definition splitext_name (n : string) : string * string :=
  match rpartition "." n with
  | Some (h, t) =>
      if any_char (fun c => negb (Ascii.eqb c ".")) h
      then (h, String "." t) else (n, EmptyString)
  | None => (n, EmptyString)
  end.

Definition splitext (p : string) : string * string :=
  match rpartition sep p with
  | Some (h, t) =>
      let '(root, ext) := splitext_name t in
      (h +:+ String sep root, ext)
  | None => splitext_name p
  end.

End PosixPath.

(** ** The disk

    A flat in-memory file system: a path, compared as it is written, names
    a regular file (with the identity of its content) or a directory.  The
    calls below are the os functions the sources use, with the outcomes
    they have on a POSIX host; exceptions are values.  The text of an
    OSError stands for the host's message, which no statement reads. *)
Module OS.
Import PyStr.

Inductive entry : Type :=
| RegularFile (ident : nat)
| Directory.

Abbreviation FS := (gmap string entry).

Inductive outcome : Type :=
| Done (fs : FS)
| OSError (msg : string).

(** os.path.exists, os.path.isfile, os.path.isdir. *)
Definition path_exists (fs : FS) (p : string) : bool :=
  match fs !! p with Some _ => true | None => false end.

Definition isfile (fs : FS) (p : string) : bool :=
  match fs !! p with Some (RegularFile _) => true | _ => false end.

Definition isdir (fs : FS) (p : string) : bool :=
  match fs !! p with Some Directory => true | _ => false end.

Fixpoint drop_chars (n : nat) (s : string) : string :=
  match n, s with
  | S k, String _ s' => drop_chars k s'
  | _, _ => s
  end.

(** The name under which [p] is listed in directory [d], if it is one of
    its direct children. *)
Definition child_name (d p : string) : option string :=
  let pre := PosixPath.join d EmptyString in
  if startswith p pre then
    let n := drop_chars (String.length pre) p in
    if truthy n && negb (contains_char "/" n) then Some n else None
  else None.

(** os.listdir; [None] stands for the OSError raised on a path that is
    not a directory. *)
Definition listdir (fs : FS) (d : string) : option (list string) :=
  match fs !! d with
  | Some Directory => Some (omap (child_name d) (elements (dom fs)))
  | _ => None
  end.

(** os.walk, top-down, as (root, filenames) pairs; a directory that
    cannot be listed contributes nothing.  The fuel bounds the depth. *)
Fixpoint walk_depth (fuel : nat) (fs : FS) (top : string) : list (string * list string) :=
  match fuel with
  | O => []
  | S k =>
      match listdir fs top with
      | None => []
      | Some names =>
          let is_dir n := isdir fs (PosixPath.join top n) in
          (top, filter (fun n => is_dir n = false) names)
          :: flat_map (fun n => walk_depth k fs (PosixPath.join top n))
                      (filter (fun n => is_dir n = true) names)
      end
  end.

Definition walk (fs : FS) (top : string) : list (string * list string) :=
  walk_depth (S (size fs)) fs top.


(** os.rename of a regular file: the source must exist, an existing
    regular file at the target is replaced, a directory is not.  The disk
    is flat, so the move of a directory together with what lies [below] it
    is not represented: a directory source is refused.  Paths are taken to
    hold no NUL character, for which os.rename raises ValueError and not
    OSError. *)
Definition rename (fs : FS) (src dst : string) : outcome :=
  match fs !! src with
  | Some (RegularFile i) =>
      match fs !! dst with
      | Some Directory => OSError ("[Errno 21] Is a directory: " +:+ dst)
      | _ => Done (<[dst := RegularFile i]> (delete src fs))
      end
  | Some Directory => OSError ("[Errno 1] Operation not permitted: " +:+ src)
  | None => OSError ("[Errno 2] No such file or directory: " +:+ src)
  end.

(** os.makedirs(d, exist_ok=True) on the flat disk: the directory named is
    created when nothing is there; its parents are not entries of their
    own, so none is created or looked at. *)
Definition makedirs (fs : FS) (d : string) : outcome :=
  match d with
  | EmptyString => OSError "[Errno 2] No such file or directory: ''"
  | String _ _ =>
      match fs !! d with
      | Some Directory => Done fs
      | Some (RegularFile _) => OSError ("[Errno 17] File exists: " +:+ d)
      | None => Done (<[d := Directory]> fs)
      end
  end.

(** What the date utilities read from the host: the formatted creation,
    modification and EXIF date of a path ([None] when it cannot be had),
    and the error strftime raises on a format string, if any. *)
Record Host : Type := {
  creation_date : string → string → option string;
  modification_date : string → string → option string;
  exif_date : string → string → option string;
  strftime_error : string → option string
}.

End OS.

(** ** utils/date_utils.py *)
Module DateUtils.
Import PyStr OS.

Definition get_date_by_type (h : Host) (file_path date_type date_format : string)
  : option string :=
  let date_type := lower date_type in
  if String.eqb date_type "creation" then creation_date h file_path date_format
  else if String.eqb date_type "modification" then modification_date h file_path date_format
  else if String.eqb date_type "exif" then exif_date h file_path date_format
  else None.

End DateUtils.

(** ** utils/validators.py *)
Module Validators.
Import PyStr.

(** The characters no file name may hold: < > : double quote / \ | ? * *)
Definition invalid_chars : string := "<>:" +:+ String (chr 34) "/\|?*".

Definition validate_number_input (value : string) (min_value : Z) (max_value : option Z)
  : bool * option string :=
  if negb (truthy (strip value)) then (false, Some "Value cannot be empty")
  else
    match int value with
    | Some num =>
        if (num <? min_value)%Z
        then (false, Some ("Value must be at least " +:+ str min_value))
        else
          match max_value with
          | Some m =>
              if (num >? m)%Z
              then (false, Some ("Value must be at most " +:+ str m))
              else (true, None)
          | None => (true, None)
          end
    | None => (false, Some "Value must be a valid number")
    end.

Definition validate_padding_input (value : string) : bool * option string :=
  validate_number_input value 1 (Some 10%Z).

Definition validate_start_number_input (value : string) : bool * option string :=
  validate_number_input value 0 (Some 999999%Z).

(** The first character of [chars] that occurs in [s]. *)
Fixpoint first_char_in (chars s : string) : option ascii :=
  match chars with
  | EmptyString => None
  | String c chars' => if contains_char c s then Some c else first_char_in chars' s
  end.

Definition validate_filename_pattern (pattern : string) : bool * option string :=
  if negb (truthy pattern) then (false, Some "Pattern cannot be empty")
  else
    match first_char_in invalid_chars pattern with
    | Some c =>
        (false, Some ("Pattern contains invalid character: '" +:+ String c "'"))
    | None =>
        if any_char (fun c => (ord c <? 32)%N) pattern
        then (false, Some "Pattern contains invalid control characters")
        else (true, None)
    end.

Definition validate_date_format (h : OS.Host) (date_format : string)
  : bool * option string :=
  if negb (truthy date_format) then (false, Some "Date format cannot be empty")
  else
    match OS.strftime_error h date_format with
    | None => (true, None)
    | Some e => (false, Some ("Invalid date format: " +:+ e))
    end.

Definition valid_placeholders : list string :=
  ["{prefix}"; "{name}"; "{suffix}"; "{num}"; "{date}"].

Definition validate_pattern_placeholder (placeholder : string) : bool * option string :=
  if negb (truthy placeholder) then (false, Some "Placeholder cannot be empty")
  else if startswith placeholder "{" && endswith placeholder "}" then
    if bool_decide (placeholder ∈ valid_placeholders) then (true, None)
    else (false, Some ("Unknown placeholder: " +:+ placeholder))
  else validate_filename_pattern placeholder.

End Validators.

(** ** utils/file_utils.py *)
Module FileUtils.
Import PyStr.

Section Scan.
(** The four queries the scan makes of the host. *)
Variable path_exists : string → bool.
Variable isfile : string → bool.
Variable listdir : string → option (list string).
Variable walk : string → list (string * list string).

(** any(filename.lower().endswith(ft) for ft in file_types_lower) *)
Definition matches_type (file_types_lower : list string) (filename : string) : bool :=
  List.existsb (fun ft => endswith (lower filename) ft) file_types_lower.

(** sorted(files): strings compare code point by code point. *)
Definition sorted (files : list string) : list string :=
  merge_sort String.le files.

Definition get_files_in_directory
  (directory : string) (file_types : list string) (recursive : bool) : list string :=
  if negb (truthy directory) || negb (path_exists directory) then []
  else
    let file_types_lower := map (fun ft => strip (lower ft)) file_types in
    let files :=
      if recursive then
        flat_map
          (fun '(root, filenames) =>
             omap (fun filename =>
                     if matches_type file_types_lower filename
                     then Some (PosixPath.join root filename) else None)
                  filenames)
          (walk directory)
      else
        match listdir directory with
        | Some filenames =>
            omap (fun filename =>
                    let full_path := PosixPath.join directory filename in
                    if isfile full_path && matches_type file_types_lower filename
                    then Some full_path else None)
                 filenames
        | None => []
        end in
    sorted files.

End Scan.

Definition parse_file_types (file_types_string : string) : list string :=
  if negb (truthy file_types_string) then []
  else
    omap (fun ft => if truthy (strip ft) then Some (strip ft) else None)
         (split "," file_types_string).

Definition reserved_names : list string :=
  ["CON"; "PRN"; "AUX"; "NUL";
   "COM1"; "COM2"; "COM3"; "COM4"; "COM5"; "COM6"; "COM7"; "COM8"; "COM9";
   "LPT1"; "LPT2"; "LPT3"; "LPT4"; "LPT5"; "LPT6"; "LPT7"; "LPT8"; "LPT9"].

Definition is_valid_filename (filename : string) : bool :=
  if negb (truthy filename) then false
  else if any_char (fun char => contains_char char filename) Validators.invalid_chars
  then false
  else
    let name_without_ext := upper (fst (PosixPath.splitext filename)) in
    if bool_decide (name_without_ext ∈ reserved_names) then false
    else if endswith filename " " || endswith filename "." then false
    else true.

(** safe_rename: the disk it leaves and the (success, error_message) pair.
    Every failure of the disk is an OSError here, which the except clause
    turns into a result. *)
Definition safe_rename (fs : OS.FS) (old_path new_path : string)
  : OS.FS * (bool * option string) :=
  if OS.path_exists fs new_path
  then (fs, (false, Some ("Target file already exists: " +:+ new_path)))
  else
    let new_filename := PosixPath.basename new_path in
    if negb (is_valid_filename new_filename)
    then (fs, (false, Some ("Invalid filename: " +:+ new_filename)))
    else
      let target_dir := PosixPath.dirname new_path in
      match OS.makedirs fs target_dir with
      | OS.OSError error_msg => (fs, (false, Some error_msg))
      | OS.Done fs1 =>
          match OS.rename fs1 old_path new_path with
          | OS.OSError error_msg => (fs1, (false, Some error_msg))
          | OS.Done fs2 => (fs2, (true, None))
          end
      end.

End FileUtils.

(** ** core/pattern_builder.py *)
Module PatternBuilder.
Import PyStr.

Inductive element_type : Type := placeholder | text.

Record PatternElement : Type := {
  type : element_type;
  value : string;
  position : nat
}.

Definition element_type_of (element : string) : element_type :=
  if startswith element "{" && endswith element "}" then placeholder else text.

(** The loop of set_pattern_from_list: [elements] is the list built so
    far, [i] the index of the next element. *)
Fixpoint fill_from (i : nat) (pattern_list : list string) (elements : list PatternElement)
  : list PatternElement * bool :=
  match pattern_list with
  | [] => (elements, true)
  | element :: rest =>
      if negb (fst (Validators.validate_pattern_placeholder element))
      then (elements, false)
      else
        fill_from (S i) rest
          (elements ++ [{| type := element_type_of element;
                           value := element;
                           position := i |}])
  end.

(** The elements are cleared first, whatever they were. *)
Definition set_pattern_from_list (elements : list PatternElement) (pattern_list : list string)
  : list PatternElement * bool :=
  fill_from 0 pattern_list [].

Definition default_pattern : list string :=
  ["{prefix}"; "{name}"; "{suffix}"; "{num}"; "{date}"].

(** PatternBuilder(): the element list after _reset_to_default. *)
Definition default_elements : list PatternElement :=
  fst (set_pattern_from_list [] default_pattern).

Definition get_pattern_list (elements : list PatternElement) : list string :=
  map value elements.

(** d.get(key, '') on a dict of strings. *)
Definition get (d : gmap string string) (key : string) : string :=
  default EmptyString (d !! key).

(** s[1:-1] *)
Fixpoint drop_last (s : string) : string :=
  match s with
  | EmptyString => EmptyString
  | String c EmptyString => EmptyString
  | String c s' => String c (drop_last s')
  end.

Definition inner (s : string) : string :=
  match s with
  | EmptyString => EmptyString
  | String _ s' => drop_last s'
  end.

(** The characters of the regex class [-_\s]. *)
Definition is_separator (c : ascii) : bool :=
  Ascii.eqb c "-" || Ascii.eqb c "_" || isspace c.

(** re.sub(r'[-_\s]+', lambda m: m.group()[0], s): one left-to-right scan;
    [in_match] tells that the previous character began or continued a
    match, whose first character has been emitted already. *)
Fixpoint collapse_from (in_match : bool) (s : string) : string :=
  match s with
  | EmptyString => EmptyString
  | String c s' =>
      if is_separator c
      then if in_match then collapse_from true s' else String c (collapse_from true s')
      else String c (collapse_from false s')
  end.

Definition collapse_separators (s : string) : string := collapse_from false s.

(** What one pattern element appends to filename_parts. *)
Definition element_part (default_values : gmap string string) (element : PatternElement)
  : string :=
  match type element with
  | placeholder =>
      let placeholder_name := inner (value element) in
      let v := get default_values placeholder_name in
      if truthy v then v else EmptyString
  | text => value element
  end.

Definition generate_filename
  (elements : list PatternElement) (original_name : string)
  (values : gmap string string) (extension : string) : string :=
  let extension :=
    if truthy extension && negb (startswith extension ".")
    then "." +:+ extension else extension in
  let default_values : gmap string string :=
    <["prefix" := get values "prefix"]>
      (<["name" := original_name]>
         (<["suffix" := get values "suffix"]>
            (<["num" := get values "num"]>
               (<["date" := get values "date"]> ∅)))) in
  let filename_parts := map (element_part default_values) elements in
  let filename := join EmptyString filename_parts in
  let filename := collapse_separators filename in
  let filename := strip_chars "-_ " filename in
  let filename :=
    if negb (truthy filename)
    then (if truthy original_name then original_name else "unnamed")
    else filename in
  filename +:+ extension.

Definition validate_pattern (elements : list PatternElement) : bool * option string :=
  match elements with
  | [] => (false, Some "Pattern cannot be empty")
  | _ :: _ =>
      let has_meaningful_element :=
        List.existsb
          (fun element =>
             match type element with
             | placeholder => true
             | text => truthy (strip (value element))
             end)
          elements in
      if negb has_meaningful_element
      then (false, Some "Pattern must contain at least one placeholder or text")
      else (true, None)
  end.

End PatternBuilder.

(** ** core/file_manager.py *)
Module FileManager.
Import PyStr.

Record FileItem : Type := {
  original_path : string;
  original_name : string;
  new_name : string;
  extension : string;
  directory : string
}.

(** FileItem(original_path, original_name): the other fields take their
    defaults and __post_init__ recomputes directory, original_name and
    extension from the path. *)
Definition FileItem_init (original_path original_name : string) : FileItem :=
  let directory := PosixPath.dirname original_path in
  let original_name := PosixPath.basename original_path in
  let '(name, ext) := PosixPath.splitext original_name in
  {| original_path := original_path;
     original_name := name;
     new_name := EmptyString;
     extension := ext;
     directory := directory |}.

Definition new_path (f : FileItem) : string :=
  if truthy (new_name f)
  then PosixPath.join (directory f) (new_name f +:+ extension f)
  else original_path f.

Definition set_new_name (f : FileItem) (n : string) : FileItem :=
  {| original_path := original_path f;
     original_name := original_name f;
     new_name := n;
     extension := extension f;
     directory := directory f |}.

(** The state of a FileManager.  progress_callback is left at None, its
    initial value; it is only ever called, never read back. *)
Record FileManager : Type := {
  files : list FileItem;
  current_directory : string;
  file_types : list string;
  recursive : bool
}.

Definition DEFAULT_FILE_TYPES : string := ".jpg, .jpeg, .png, .gif, .bmp, .tiff, .raw".

Definition init : FileManager :=
  {| files := [];
     current_directory := EmptyString;
     file_types := FileUtils.parse_file_types DEFAULT_FILE_TYPES;
     recursive := false |}.

Definition with_files (fm : FileManager) (fl : list FileItem) : FileManager :=
  {| files := fl;
     current_directory := current_directory fm;
     file_types := file_types fm;
     recursive := recursive fm |}.

(** load_files.  The list is cleared, then every path is handed to
    FileItem(original_path=file_path); original_name has no default in the
    dataclass, so that call raises TypeError on the first path, which the
    except clause turns into the result False. *)
Definition load_files (fs : OS.FS) (fm : FileManager) : FileManager * bool :=
  if negb (truthy (current_directory fm)) then (fm, false)
  else
    let file_paths :=
      FileUtils.get_files_in_directory
        (OS.path_exists fs) (OS.isfile fs) (OS.listdir fs) (OS.walk fs)
        (current_directory fm) (file_types fm) (recursive fm) in
    match file_paths with
    | [] => (with_files fm [], true)
    | _ :: _ => (with_files fm [], false)
    end.

Definition apply_text_replacement
  (fl : list FileItem) (find_text replace_text : string) (case_sensitive : bool)
  : list FileItem :=
  if negb (truthy find_text) then fl
  else
    map (fun file_item =>
           let name := original_name file_item in
           let new_name :=
             if case_sensitive then replace name find_text replace_text
             else sub_ignorecase find_text replace_text name in
           set_new_name file_item new_name)
        fl.

Definition apply_prefix_suffix (fl : list FileItem) (prefix suffix : string)
  : list FileItem :=
  map (fun file_item =>
         let name := original_name file_item in
         let new_name := prefix +:+ name +:+ suffix in
         set_new_name file_item new_name)
      fl.

Definition apply_sequential_numbering (fl : list FileItem) (start_number padding : Z)
  : list FileItem :=
  imap (fun i file_item =>
          let number := zfill (str (start_number + Z.of_nat i)) padding in
          let base_name :=
            if truthy (new_name file_item) then new_name file_item
            else original_name file_item in
          set_new_name file_item (base_name +:+ "_" +:+ number))
       fl.

Definition apply_date_addition
  (h : OS.Host) (fl : list FileItem) (date_type date_format : string) : list FileItem :=
  map (fun file_item =>
         match DateUtils.get_date_by_type h (original_path file_item) date_type date_format with
         | Some date_str =>
             if truthy date_str then
               let base_name :=
                 if truthy (new_name file_item) then new_name file_item
                 else original_name file_item in
               set_new_name file_item (base_name +:+ "_" +:+ date_str)
             else file_item
         | None => file_item
         end)
      fl.

(** apply_pattern with a generator that returns for every file; the except
    clause of the loop, which leaves a name as it was when the generator
    raises, has no counterpart. *)
Definition apply_pattern (fl : list FileItem) (pattern_generator : FileItem → nat → string)
  : list FileItem :=
  imap (fun i file_item => set_new_name file_item (pattern_generator file_item i)) fl.

Definition preview_changes (fl : list FileItem) : list (string * string) :=
  map (fun file_item =>
         let original := original_name file_item +:+ extension file_item in
         let new :=
           if truthy (new_name file_item)
           then new_name file_item +:+ extension file_item else original in
         (original, new))
      fl.

(** One round of the loop of validate_changes, on the pair
    (errors, new_names). *)
Definition validate_item (fs : OS.FS) (acc : list string * gset string) (file_item : FileItem)
  : list string * gset string :=
  let '(errors, new_names) := acc in
  if negb (truthy (new_name file_item)) then (errors, new_names)
  else
    let new_full_name := new_name file_item +:+ extension file_item in
    let '(errors, new_names) :=
      if bool_decide (new_full_name ∈ new_names)
      then (errors ++ ["Duplicate filename: " +:+ new_full_name], new_names)
      else (errors, new_names ∪ {[new_full_name]}) in
    let new_path := new_path file_item in
    if OS.path_exists fs new_path && negb (String.eqb new_path (original_path file_item))
    then (errors ++ ["Target file already exists: " +:+ new_full_name], new_names)
    else (errors, new_names).

Definition validate_changes (fs : OS.FS) (fl : list FileItem) : list string :=
  fst (foldl (validate_item fs) ([], ∅) fl).

(** How an Optional[str] reads inside an f-string. *)
Definition show (o : option string) : string := default "None" o.

(** The loop of execute_rename: the disk and the file list it leaves, the
    successful (old_path, new_path) pairs and the errors, both in the
    order they were appended. *)
Fixpoint rename_each (fs : OS.FS) (fl : list FileItem)
  : OS.FS * list FileItem * (list (string * string) * list string) :=
  match fl with
  | [] => (fs, [], ([], []))
  | file_item :: rest =>
      if negb (truthy (new_name file_item)) then
        let '(fs', rest', (successful_renames, errors)) := rename_each fs rest in
        (fs', file_item :: rest', (successful_renames, errors))
      else
        let old_path := original_path file_item in
        let new_path := new_path file_item in
        let '(fs1, (success, error_msg)) := FileUtils.safe_rename fs old_path new_path in
        let '(fs', rest', (successful_renames, errors)) := rename_each fs1 rest in
        if success then
          let renamed :=
            {| original_path := new_path;
               original_name := new_name file_item;
               new_name := EmptyString;
               extension := extension file_item;
               directory := directory file_item |} in
          (fs', renamed :: rest', ((old_path, new_path) :: successful_renames, errors))
        else
          (fs', file_item :: rest',
           (successful_renames,
            ("Failed to rename " +:+ PosixPath.basename old_path +:+ ": " +:+ show error_msg)
            :: errors))
  end.

Definition execute_rename (fs : OS.FS) (fl : list FileItem)
  : OS.FS * list FileItem * (list (string * string) * list string) :=
  let validation_errors := validate_changes fs fl in
  match validation_errors with
  | _ :: _ => (fs, fl, ([], validation_errors))
  | [] => rename_each fs fl
  end.

Definition reset_changes (fl : list FileItem) : list FileItem :=
  map (fun file_item => set_new_name file_item EmptyString) fl.

End FileManager.

(** ** core/renamer.py *)
Module Renamer.
Import PyStr.
Import FileManager.

Record RenameOperation : Type := {
  prefix : string;
  suffix : string;
  add_numbers : bool;
  start_number : Z;
  padding : Z;
  find_text : string;
  replace_text : string;
  case_sensitive : bool;
  add_date : bool;
  date_type : string;
  date_format : string;
  use_pattern : bool;
  pattern_builder : list PatternBuilder.PatternElement
}.

(** RenameOperation() *)
Definition RenameOperation_init : RenameOperation :=
  {| prefix := EmptyString;
     suffix := EmptyString;
     add_numbers := false;
     start_number := 1;
     padding := 3;
     find_text := EmptyString;
     replace_text := EmptyString;
     case_sensitive := true;
     add_date := false;
     date_type := "creation";
     date_format := "%Y-%m-%d";
     use_pattern := false;
     pattern_builder := PatternBuilder.default_elements |}.

(** errors.append(label + msg) when the check failed. *)
Definition report (label : string) (check : bool * option string) : list string :=
  if fst check then [] else [label +:+ show (snd check)].

(** RenameOperation.validate *)
Definition validate (h : OS.Host) (op : RenameOperation) : bool * list string :=
  let errors :=
    (if add_numbers op then
       report "Start number: " (Validators.validate_start_number_input (str (start_number op)))
       ++ report "Padding: " (Validators.validate_padding_input (str (padding op)))
     else [])
    ++ (if add_date op then
          report "Date format: " (Validators.validate_date_format h (date_format op))
        else [])
    ++ (if use_pattern op then
          report "Pattern: " (PatternBuilder.validate_pattern (pattern_builder op))
        else []) in
  (bool_decide (length errors = 0), errors).

Record BulkRenamer : Type := {
  file_manager : FileManager;
  operation : RenameOperation;
  undo_stack : list (list (string * string))
}.

(** BulkRenamer() *)
Definition init : BulkRenamer :=
  {| file_manager := FileManager.init;
     operation := RenameOperation_init;
     undo_stack := [] |}.

Definition with_file_list (r : BulkRenamer) (fl : list FileItem) : BulkRenamer :=
  {| file_manager := with_files (file_manager r) fl;
     operation := operation r;
     undo_stack := undo_stack r |}.

Definition with_undo_stack (r : BulkRenamer) (st : list (list (string * string)))
  : BulkRenamer :=
  {| file_manager := file_manager r;
     operation := operation r;
     undo_stack := st |}.

(** The keyword arguments of configure_operation. *)
Record Config : Type := {
  cfg_prefix : string;
  cfg_suffix : string;
  cfg_add_numbers : bool;
  cfg_start_number : Z;
  cfg_padding : Z;
  cfg_find_text : string;
  cfg_replace_text : string;
  cfg_case_sensitive : bool;
  cfg_add_date : bool;
  cfg_date_type : string;
  cfg_date_format : string;
  cfg_use_pattern : bool;
  cfg_pattern_elements : option (list string)
}.

(** The defaults of those arguments. *)
Definition Config_default : Config :=
  {| cfg_prefix := EmptyString;
     cfg_suffix := EmptyString;
     cfg_add_numbers := false;
     cfg_start_number := 1;
     cfg_padding := 3;
     cfg_find_text := EmptyString;
     cfg_replace_text := EmptyString;
     cfg_case_sensitive := true;
     cfg_add_date := false;
     cfg_date_type := "creation";
     cfg_date_format := "%Y-%m-%d";
     cfg_use_pattern := false;
     cfg_pattern_elements := None |}.

Definition configure_operation (h : OS.Host) (r : BulkRenamer) (c : Config)
  : BulkRenamer * (bool * list string) :=
  let elements :=
    match cfg_use_pattern c, cfg_pattern_elements c with
    | true, Some (e :: l) =>
        fst (PatternBuilder.set_pattern_from_list (pattern_builder (operation r)) (e :: l))
    | _, _ => pattern_builder (operation r)
    end in
  let op :=
    {| prefix := cfg_prefix c;
       suffix := cfg_suffix c;
       add_numbers := cfg_add_numbers c;
       start_number := cfg_start_number c;
       padding := cfg_padding c;
       find_text := cfg_find_text c;
       replace_text := cfg_replace_text c;
       case_sensitive := cfg_case_sensitive c;
       add_date := cfg_add_date c;
       date_type := cfg_date_type c;
       date_format := cfg_date_format c;
       use_pattern := cfg_use_pattern c;
       pattern_builder := elements |} in
  ({| file_manager := file_manager r; operation := op; undo_stack := undo_stack r |},
   validate h op).

Definition _apply_standard_operations
  (h : OS.Host) (op : RenameOperation) (fl : list FileItem) : list FileItem :=
  let fl :=
    if truthy (find_text op)
    then apply_text_replacement fl (find_text op) (replace_text op) (case_sensitive op)
    else fl in
  let fl :=
    if truthy (prefix op) || truthy (suffix op)
    then apply_prefix_suffix fl (prefix op) (suffix op)
    else fl in
  let fl :=
    if add_numbers op
    then apply_sequential_numbering fl (start_number op) (padding op)
    else fl in
  if add_date op
  then apply_date_addition h fl (date_type op) (date_format op)
  else fl.

(** The closure handed to apply_pattern. *)
Definition pattern_generator
  (h : OS.Host) (op : RenameOperation) (file_item : FileItem) (index : nat) : string :=
  let num :=
    if add_numbers op
    then zfill (str (start_number op + Z.of_nat index)) (padding op)
    else EmptyString in
  let date :=
    if add_date op
    then default EmptyString
           (DateUtils.get_date_by_type h (original_path file_item) (date_type op) (date_format op))
    else EmptyString in
  let values : gmap string string :=
    <["prefix" := prefix op]>
      (<["suffix" := suffix op]> (<["num" := num]> (<["date" := date]> ∅))) in
  let original_name :=
    if truthy (find_text op) then
      if case_sensitive op
      then replace (original_name file_item) (find_text op) (replace_text op)
      else sub_ignorecase (find_text op) (replace_text op) (original_name file_item)
    else original_name file_item in
  PatternBuilder.generate_filename (pattern_builder op) original_name values EmptyString.

Definition _apply_pattern_operation
  (h : OS.Host) (op : RenameOperation) (fl : list FileItem) : list FileItem :=
  apply_pattern fl (pattern_generator h op).

Definition _apply_operation
  (h : OS.Host) (op : RenameOperation) (fl : list FileItem) : list FileItem :=
  if use_pattern op then _apply_pattern_operation h op fl
  else _apply_standard_operations h op fl.

(** preview_changes: the file list with its pending names, and the
    display pairs. *)
Definition preview_changes (h : OS.Host) (r : BulkRenamer)
  : BulkRenamer * list (string * string) :=
  let fl := reset_changes (files (file_manager r)) in
  let fl := _apply_operation h (operation r) fl in
  (with_file_list r fl, FileManager.preview_changes fl).

Definition validate_changes (fs : OS.FS) (r : BulkRenamer) : list string :=
  FileManager.validate_changes fs (files (file_manager r)).

(** self.undo_stack.append(batch), then pop(0) past ten entries. *)
Definition push_undo (st : list (list (string * string))) (batch : list (string * string))
  : list (list (string * string)) :=
  let st := st ++ [batch] in
  if (10 <? length st)%nat then tail st else st.

Definition execute_rename (h : OS.Host) (fs : OS.FS) (r : BulkRenamer)
  : OS.FS * BulkRenamer * (bool * list string * nat) :=
  let r := fst (preview_changes h r) in
  let validation_errors := validate_changes fs r in
  match validation_errors with
  | _ :: _ => (fs, r, (false, validation_errors, 0))
  | [] =>
      let '(fs', fl, (successful_renames, errors)) :=
        FileManager.execute_rename fs (files (file_manager r)) in
      let r := with_file_list r fl in
      let r :=
        match successful_renames with
        | _ :: _ => with_undo_stack r (push_undo (undo_stack r) successful_renames)
        | [] => r
        end in
      (fs', r, (bool_decide (length errors = 0), errors, length successful_renames))
  end.

Definition can_undo (r : BulkRenamer) : bool :=
  (0 <? length (undo_stack r))%nat.

(** The loop of undo_last_rename over the pairs of a batch, already
    reversed; each pair is unpacked as (new_path, old_path). *)
Fixpoint undo_each (fs : OS.FS) (pairs : list (string * string)) : OS.FS * list string :=
  match pairs with
  | [] => (fs, [])
  | (new_path, old_path) :: rest =>
      if OS.path_exists fs new_path then
        match OS.rename fs new_path old_path with
        | OS.Done fs1 => undo_each fs1 rest
        | OS.OSError e =>
            let '(fs', errors) := undo_each fs rest in
            (fs', ("Could not undo rename for " +:+ new_path +:+ ": " +:+ e) :: errors)
        end
      else
        let '(fs', errors) := undo_each fs rest in
        (fs', ("File not found: " +:+ new_path) :: errors)
  end.

Definition undo_last_rename (fs : OS.FS) (r : BulkRenamer)
  : OS.FS * BulkRenamer * (bool * option string) :=
  match last (undo_stack r) with
  | None => (fs, r, (false, Some "No operations to undo"))
  | Some last_operation =>
      let r := with_undo_stack r (removelast (undo_stack r)) in
      let '(fs', errors) := undo_each fs (rev last_operation) in
      match errors with
      | _ :: _ => (fs', r, (false, Some (join "; " errors)))
      | [] =>
          let '(fm, _) := load_files fs' (file_manager r) in
          (fs',
           {| file_manager := fm; operation := operation r; undo_stack := undo_stack r |},
           (true, None))
      end
  end.

(** get_statistics()[undo_operations_available] *)
Definition undo_operations_available (r : BulkRenamer) : nat :=
  length (undo_stack r).

End Renamer.

(** ** What the specification says, in its own words

    Definitions written from the text of the specification, for the
    statements that compare the code with it. *)
Module Spec.
Import PyStr FileManager.

(** *** Validation *)

(** The final name a file proposes, extension included. *)
Definition full_name (f : FileItem) : string := new_name f +:+ extension f.

(** The pending renames: the files with a non-empty proposed name. *)
Definition pending (fl : list FileItem) : list FileItem :=
  filter (fun f => truthy (new_name f) = true) fl.

(** The name a file carries into a stage: its pending name when it has
    one, its original name otherwise. *)
Definition current_name (f : FileItem) : string :=
  if truthy (new_name f) then new_name f else original_name f.

(** Check (a): a file whose final name an earlier pending file proposed. *)
Definition duplicate_errors (earlier : list FileItem) (f : FileItem) : list string :=
  if bool_decide (full_name f ∈ map full_name earlier)
  then ["Duplicate filename: " +:+ full_name f] else [].

(** Check (b): a proposed path that exists on disk and is not the file's
    own original path. *)
Definition target_errors (fs : OS.FS) (f : FileItem) : list string :=
  if bool_decide (OS.path_exists fs (new_path f) = true ∧ new_path f ≠ original_path f)
  then ["Target file already exists: " +:+ full_name f] else [].

Definition validation_errors (fs : OS.FS) (fl : list FileItem) : list string :=
  concat
    (imap (fun j f => duplicate_errors (take j (pending fl)) f ++ target_errors fs f)
          (pending fl)).

(** *** Execution *)

(** A path without a NUL character. *)
Definition nul_free (s : string) : bool := negb (contains_char (chr 0) s).

(** The entity after a successful rename: its path and name are the new
    ones and nothing is pending. *)
Definition renamed (f f' : FileItem) : Prop :=
  original_path f' = new_path f ∧ original_name f' = new_name f ∧
  new_name f' = EmptyString ∧ extension f' = extension f ∧
  directory f' = directory f.

(** What execution does with one file [f], leaving the entity [f']: it
    is skipped when nothing is pending, renamed (and its pair recorded), or
    left as it was with one error for it. *)
Inductive outcome (successful : list (string * string)) (errors : list string)
  (f f' : FileItem) : Prop :=
| skipped :
    truthy (new_name f) = false → f' = f → outcome successful errors f f'
| succeeded :
    truthy (new_name f) = true → renamed f f' →
    (original_path f, new_path f) ∈ successful → outcome successful errors f f'
| failed msg :
    truthy (new_name f) = true → f' = f →
    ("Failed to rename " +:+ PosixPath.basename (original_path f) +:+ ": " +:+ msg)
      ∈ errors →
    outcome successful errors f f'.

(** *** Rendering *)

Definition all_in (P : ascii → bool) (s : string) : bool :=
  negb (any_char (fun c => negb (P c)) s).

Definition starts_in (P : ascii → bool) (s : string) : bool :=
  match s with
  | EmptyString => false
  | String c _ => P c
  end.

Fixpoint ends_in (P : ascii → bool) (s : string) : bool :=
  match s with
  | EmptyString => false
  | String c EmptyString => P c
  | String _ s' => ends_in P s'
  end.

(** [collapsed P s t]: [t] is [s] with every maximal run of characters of
    the class [P] replaced by the first character of the run. *)
Inductive collapsed (P : ascii → bool) : string → string → Prop :=
| collapsed_end : collapsed P EmptyString EmptyString
| collapsed_char c s t :
    P c = false → collapsed P s t → collapsed P (String c s) (String c t)
| collapsed_run c run s t :
    P c = true → all_in P run = true → starts_in P s = false →
    collapsed P s t → collapsed P (String c (run +:+ s)) (String c t).

(** [trimmed P s body]: [body] is [s] without its leading and trailing
    characters of the class [P]. *)
Definition trimmed (P : ascii → bool) (s body : string) : Prop :=
  ∃ l r, s = l +:+ body +:+ r ∧ all_in P l = true ∧ all_in P r = true ∧
         starts_in P body = false ∧ ends_in P body = false.

(** What a token emits: a literal its text, a placeholder its value when
    that is not empty. *)
Definition emitted (value_of : string → string) (token : PatternBuilder.PatternElement)
  : string :=
  match PatternBuilder.type token with
  | PatternBuilder.text => PatternBuilder.value token
  | PatternBuilder.placeholder =>
      value_of (PatternBuilder.inner (PatternBuilder.value token))
  end.

(** The value of a placeholder: the base name for name, the value map
    for prefix, suffix, num and date, nothing for any other name. *)
Definition value_of (original_name : string) (values : gmap string string) (k : string)
  : string :=
  if String.eqb k "name" then original_name
  else if bool_decide (k ∈ ["prefix"; "suffix"; "num"; "date"])
  then default EmptyString (values !! k)
  else EmptyString.

Definition normalized_extension (extension : string) : string :=
  match extension with
  | EmptyString => EmptyString
  | String c _ => if Ascii.eqb c "." then extension else String "." extension
  end.

Definition fallback (original_name body : string) : string :=
  match body, original_name with
  | String _ _, _ => body
  | EmptyString, String _ _ => original_name
  | EmptyString, EmptyString => "unnamed"
  end.

(** [rendered sep trim tokens name values ext out]: [out] is the rendering
    of the tokens, with [sep] the class whose runs collapse and [trim] the
    class trimmed at both ends. *)
Inductive rendered (sep trim : ascii → bool)
  (tokens : list PatternBuilder.PatternElement) (original_name : string)
  (values : gmap string string) (extension : string) : string → Prop :=
| rendered_intro c body :
    collapsed sep
      (String.concat EmptyString (map (emitted (value_of original_name values)) tokens)) c →
    trimmed trim c body →
    rendered sep trim tokens original_name values extension
      (fallback original_name body +:+ normalized_extension extension).

(** The separator characters the specification names: - _ and space. *)
Definition named_separator (c : ascii) : bool :=
  Ascii.eqb c "-" || Ascii.eqb c "_" || Ascii.eqb c " ".

End Spec.

(** ** Sessions: sequences of calls on one orchestrator *)
Module Session.
Import FileManager Renamer.

Inductive action : Type :=
| Configure (h : OS.Host) (c : Config)
| SetFiles (fl : list FileItem)
| Disk (fs : OS.FS)
| Execute (h : OS.Host)
| Undo.

(** [SetFiles] stands for whatever replaces the file list (loading,
    sorting, filtering), [Disk] for the disk changing under the program. *)
Definition step (s : OS.FS * BulkRenamer) (a : action) : OS.FS * BulkRenamer :=
  let '(fs, r) := s in
  match a with
  | Configure h c => (fs, fst (configure_operation h r c))
  | SetFiles fl => (fs, with_file_list r fl)
  | Disk fs' => (fs', r)
  | Execute h => fst (execute_rename h fs r)
  | Undo => fst (undo_last_rename fs r)
  end.

Definition run (acts : list action) (s : OS.FS * BulkRenamer) : OS.FS * BulkRenamer :=
  foldl step s acts.

End Session.

(** ** core/pattern_builder.py: editing and parsing a pattern *)
Module PatternEdit.
Import PyStr PatternBuilder.

Definition _update_positions (elements : list PatternElement) : list PatternElement :=
  imap (fun i element =>
          {| type := type element; value := value element; position := i |})
       elements.

(** list.insert(i, x): a negative index counts from the end, and an index
    out of range is brought back to the nearest end. *)
Definition list_insert {A : Type} (i : Z) (x : A) (l : list A) : list A :=
  let n := Z.of_nat (length l) in
  let i := if (i <? 0)%Z then Z.max 0 (i + n) else Z.min i n in
  take (Z.to_nat i) l ++ x :: drop (Z.to_nat i) l.

(** add_element; the position written into the new element is overwritten
    by _update_positions before anyone reads it. *)
Definition add_element
  (elements : list PatternElement) (element : string) (position : option Z)
  : list PatternElement * bool :=
  if negb (fst (Validators.validate_pattern_placeholder element)) then (elements, false)
  else
    let position :=
      match position with
      | None => Z.of_nat (length elements)
      | Some p => p
      end in
    let pattern_element :=
      {| type := element_type_of element;
         value := element;
         position := Z.to_nat position |} in
    (_update_positions (list_insert position pattern_element elements), true).

Definition remove_element (elements : list PatternElement) (position : Z)
  : list PatternElement * bool :=
  if (0 <=? position)%Z && (position <? Z.of_nat (length elements))%Z
  then (_update_positions (delete (Z.to_nat position) elements), true)
  else (elements, false).

Definition move_element (elements : list PatternElement) (from_position to_position : Z)
  : list PatternElement * bool :=
  if (0 <=? from_position)%Z && (from_position <? Z.of_nat (length elements))%Z
     && (0 <=? to_position)%Z && (to_position <? Z.of_nat (length elements))%Z
  then
    match elements !! Z.to_nat from_position with
    | Some element =>
        (_update_positions
           (list_insert to_position element (delete (Z.to_nat from_position) elements)),
         true)
    | None => (elements, false)
    end
  else (elements, false).

Definition get_pattern_string (elements : list PatternElement) : string :=
  join EmptyString (map value elements).

(** The text up to the first closing brace, when there is one. *)
Fixpoint until_close (s : string) : option string :=
  match s with
  | EmptyString => None
  | String c s' =>
      if Ascii.eqb c "}" then Some EmptyString
      else String c <$> until_close s'
  end.

(** The match of the regex \{[^}]+\} at the head of [s]: an opening brace,
    one character or more other than a closing brace, a closing brace. *)
Definition placeholder_at (s : string) : option string :=
  match s with
  | String c rest =>
      if Ascii.eqb c "{" then
        match until_close rest with
        | Some (String d run) => Some (String c (String d run +:+ "}"))
        | _ => None
        end
      else None
  | EmptyString => None
  end.

(** elements.append(text) if text *)
Definition flush (text : string) : list string :=
  if truthy text then [text] else [].

(** The scan of set_pattern_from_string: [text] is the literal gathered
    since the last match, [skip] counts the characters of a match still to
    be passed over. *)
Fixpoint elements_from (skip : nat) (text : string) (s : string) : list string :=
  match s with
  | EmptyString => flush text
  | String c s' =>
      match skip with
      | S k => elements_from k text s'
      | O =>
          match placeholder_at s with
          | Some m => flush text ++ m :: elements_from (String.length m - 1) EmptyString s'
          | None => elements_from 0 (text +:+ String c EmptyString) s'
          end
      end
  end.

Definition parse_pattern_string (pattern_string : string) : list string :=
  elements_from 0 EmptyString pattern_string.

Definition set_pattern_from_string (elements : list PatternElement) (pattern_string : string)
  : list PatternElement * bool :=
  set_pattern_from_list elements (parse_pattern_string pattern_string).

End PatternEdit.

(** ** utils/validators.py: extensions, directories, sanitizing *)
Module Sanitize.
Import PyStr.

(** The characters no extension may hold: those of a file name and the
    space. *)
Definition invalid_extension_chars : string := Validators.invalid_chars +:+ " ".

Definition validate_file_extension (extension : string) : bool * option string :=
  if negb (truthy extension) then (false, Some "Extension cannot be empty")
  else
    let extension :=
      if startswith extension "." then OS.drop_chars 1 extension else extension in
    if negb (truthy extension) then (false, Some "Extension cannot be just a dot")
    else
      match Validators.first_char_in invalid_extension_chars extension with
      | Some c =>
          (false, Some ("Extension contains invalid character: '" +:+ String c "'"))
      | None => (true, None)
      end.

(** The loop of validate_file_extensions_list over the stripped pieces. *)
Fixpoint first_invalid_extension (extensions : list string) : bool * option string :=
  match extensions with
  | [] => (true, None)
  | ext :: rest =>
      let '(is_valid, error_msg) := validate_file_extension ext in
      if negb is_valid
      then (false, Some ("Invalid extension '" +:+ ext +:+ "': " +:+ FileManager.show error_msg))
      else first_invalid_extension rest
  end.

Definition validate_file_extensions_list (extensions_string : string) : bool * option string :=
  if negb (truthy (strip extensions_string))
  then (false, Some "File extensions list cannot be empty")
  else first_invalid_extension (map strip (split "," extensions_string)).

(** validate_directory_path on a disk of the model, where a directory can
    always be listed. *)
Definition validate_directory_path (fs : OS.FS) (path : string) : bool * option string :=
  if negb (truthy (strip path)) then (false, Some "Directory path cannot be empty")
  else if negb (OS.path_exists fs path) then (false, Some "Directory does not exist")
  else if negb (OS.isdir fs path) then (false, Some "Path is not a directory")
  else
    match OS.listdir fs path with
    | Some _ => (true, None)
    | None => (false, Some ("Error accessing directory: " +:+ path))
    end.

(** ''.join(char for char in s if P(char)) *)
Fixpoint keep (P : ascii → bool) (s : string) : string :=
  match s with
  | EmptyString => EmptyString
  | String c s' => if P c then String c (keep P s') else keep P s'
  end.

(** for char in chars: s = s.replace(char, '_') *)
Fixpoint replace_each (chars : string) (s : string) : string :=
  match chars with
  | EmptyString => s
  | String char chars' => replace_each chars' (replace s (String char EmptyString) "_")
  end.

Definition sanitize_filename (filename : string) : string :=
  if negb (truthy filename) then "unnamed"
  else
    let sanitized := replace_each Validators.invalid_chars filename in
    let sanitized := keep (fun char => (32 <=? ord char)%N) sanitized in
    let sanitized := strip_chars " ." sanitized in
    let sanitized := if negb (truthy sanitized) then "unnamed" else sanitized in
    let name_without_ext := upper (hd EmptyString (split "." sanitized)) in
    if bool_decide (name_without_ext ∈ FileUtils.reserved_names)
    then "file_" +:+ sanitized else sanitized.

End Sanitize.

(** ** core/file_manager.py: the file list and its directory *)
Module FileList.
Import PyStr FileManager.

Definition with_directory (fm : FileManager) (directory : string) : FileManager :=
  {| files := files fm;
     current_directory := directory;
     file_types := file_types fm;
     recursive := recursive fm |}.

Definition set_directory (fs : OS.FS) (fm : FileManager) (directory : string)
  : FileManager * bool :=
  if negb (truthy directory) || negb (OS.path_exists fs directory)
     || negb (OS.isdir fs directory)
  then (fm, false)
  else (with_directory fm directory, true).

Definition set_file_types (fm : FileManager) (file_types_string : string) : FileManager :=
  {| files := files fm;
     current_directory := current_directory fm;
     file_types := FileUtils.parse_file_types file_types_string;
     recursive := recursive fm |}.

(** The dict of get_statistics. *)
Record Statistics : Type := {
  total_files : nat;
  files_with_changes : nat;
  unique_extensions : nat;
  directories : nat
}.

Definition get_statistics (fl : list FileItem) : Statistics :=
  {| total_files := length fl;
     files_with_changes := length (filter (fun f => truthy (new_name f) = true) fl);
     unique_extensions := size (list_to_set (map extension fl) : gset string);
     directories := size (list_to_set (map directory fl) : gset string) |}.

Definition filter_files_by_extension (fl : list FileItem) (extensions : list string)
  : list FileItem :=
  let extensions_lower := map lower extensions in
  filter (fun f => lower (extension f) ∈ extensions_lower) fl.

End FileList.

(** ** core/renamer.py: the rest of the orchestrator *)
Module Orchestrator.
Import PyStr FileManager Renamer.

Definition _is_operation_configured (r : BulkRenamer) : bool :=
  truthy (prefix (operation r)) || truthy (suffix (operation r))
  || add_numbers (operation r) || truthy (find_text (operation r))
  || add_date (operation r) || use_pattern (operation r).

Definition reset_operation (r : BulkRenamer) : BulkRenamer :=
  {| file_manager := with_files (file_manager r) (reset_changes (files (file_manager r)));
     operation := RenameOperation_init;
     undo_stack := undo_stack r |}.

Definition set_directory (fs : OS.FS) (r : BulkRenamer) (directory : string)
  : BulkRenamer * bool :=
  let '(fm, ok) := FileList.set_directory fs (file_manager r) directory in
  ({| file_manager := fm; operation := operation r; undo_stack := undo_stack r |}, ok).

Definition load_files (fs : OS.FS) (r : BulkRenamer) : BulkRenamer * bool :=
  let '(fm, ok) := FileManager.load_files fs (file_manager r) in
  ({| file_manager := fm; operation := operation r; undo_stack := undo_stack r |}, ok).

End Orchestrator.

(** ** utils/file_utils.py: unique names and backups *)
Module Backup.
Import PyStr.

(** The path get_unique_filename tries for a counter. *)
Definition candidate (directory name ext : string) (counter : Z) : string :=
  let new_filename := name +:+ "_" +:+ str counter +:+ ext in
  PosixPath.join directory new_filename.

(** The loop of get_unique_filename from [counter] on.  The fuel bounds
    the number of rounds; [None] is the fuel running out. *)
Fixpoint first_free (fuel : nat) (fs : OS.FS) (directory name ext : string) (counter : Z)
  : option string :=
  match fuel with
  | O => None
  | S k =>
      let new_path := candidate directory name ext counter in
      if negb (OS.path_exists fs new_path) then Some new_path
      else first_free k fs directory name ext (counter + 1)
  end.

Definition get_unique_filename (fs : OS.FS) (file_path : string) : option string :=
  if negb (OS.path_exists fs file_path) then Some file_path
  else
    let directory := PosixPath.dirname file_path in
    let filename := PosixPath.basename file_path in
    let '(name, ext) := PosixPath.splitext filename in
    first_free (S (size fs)) fs directory name ext 1.

(** shutil.copy2(src, dst): into dst when it is a directory, over dst
    otherwise; the copy has the content of the source. *)
Definition copy2 (fs : OS.FS) (src dst : string) : OS.outcome :=
  let dst :=
    if OS.isdir fs dst then PosixPath.join dst (PosixPath.basename src) else dst in
  match fs !! src with
  | Some (OS.RegularFile i) =>
      if String.eqb src dst
      then OS.OSError (src +:+ " and " +:+ dst +:+ " are the same file")
      else
        match fs !! dst with
        | Some OS.Directory => OS.OSError ("[Errno 21] Is a directory: " +:+ dst)
        | _ => OS.Done (<[dst := OS.RegularFile i]> fs)
        end
  | Some OS.Directory => OS.OSError ("[Errno 21] Is a directory: " +:+ src)
  | None => OS.OSError ("[Errno 2] No such file or directory: " +:+ src)
  end.

(** backup_file: the disk it leaves and the path of the backup, [None]
    when it failed. *)
Definition backup_file (fs : OS.FS) (file_path backup_dir : string)
  : OS.FS * option string :=
  if negb (OS.path_exists fs file_path) then (fs, None)
  else
    match OS.makedirs fs backup_dir with
    | OS.OSError _ => (fs, None)
    | OS.Done fs1 =>
        let filename := PosixPath.basename file_path in
        let backup_path := PosixPath.join backup_dir filename in
        match get_unique_filename fs1 backup_path with
        | None => (fs1, None)
        | Some backup_path =>
            match copy2 fs1 file_path backup_path with
            | OS.OSError _ => (fs1, None)
            | OS.Done fs2 => (fs2, Some backup_path)
            end
        end
    end.

End Backup.

(** ** Concrete disks, files and configurations used in the examples *)
Module Examples.
Import FileManager Renamer.

(** A host without dates, on which every format string is accepted. *)
Definition plain_host : OS.Host :=
  {| OS.creation_date := fun _ _ => None;
     OS.modification_date := fun _ _ => None;
     OS.exif_date := fun _ _ => None;
     OS.strftime_error := fun _ => None |}.

(** A file as FileItem(path, "") builds it, with a pending name. *)
Definition staged (path pending_name : string) : FileItem :=
  set_new_name (FileItem_init path EmptyString) pending_name.

(** A file as FileItem(path, "") builds it, nothing pending. *)
Definition settled (path : string) : FileItem := FileItem_init path EmptyString.

(** /d holds x.jpg and y.jpg. *)
Definition disk_xy : OS.FS :=
  <["/d" := OS.Directory]>
    (<["/d/x.jpg" := OS.RegularFile 1]> (<["/d/y.jpg" := OS.RegularFile 2]> ∅)).

(** /d holds aq.jpg, b.jpg and cq.jpg. *)
Definition disk_abc : OS.FS :=
  <["/d" := OS.Directory]>
    (<["/d/aq.jpg" := OS.RegularFile 1]>
       (<["/d/b.jpg" := OS.RegularFile 2]>
          (<["/d/cq.jpg" := OS.RegularFile 3]> ∅))).

(** Its three files after a replacement of q by z: the second one keeps
    its name. *)
Definition batch_abc : list FileItem :=
  [staged "/d/aq.jpg" "az"; staged "/d/b.jpg" "b"; staged "/d/cq.jpg" "cz"].

(** /d holds aq.jpg, bq.jpg, cq.jpg and a file bz.jpg that stands where the
    second rename wants to go. *)
Definition disk_taken : OS.FS :=
  <["/d" := OS.Directory]>
    (<["/d/aq.jpg" := OS.RegularFile 1]>
       (<["/d/bq.jpg" := OS.RegularFile 2]>
          (<["/d/cq.jpg" := OS.RegularFile 3]>
             (<["/d/bz.jpg" := OS.RegularFile 4]> ∅)))).

Definition batch_q : list FileItem :=
  [staged "/d/aq.jpg" "az"; staged "/d/bq.jpg" "bz"; staged "/d/cq.jpg" "cz"].

(** The orchestrator over aq.jpg, bq.jpg and cq.jpg. *)
Definition renamer_q : BulkRenamer :=
  with_file_list Renamer.init
    [settled "/d/aq.jpg"; settled "/d/bq.jpg"; settled "/d/cq.jpg"].

(** /d holds a.jpg, and an orchestrator whose list holds that file. *)
Definition disk_a : OS.FS :=
  <["/d" := OS.Directory]> (<["/d/a.jpg" := OS.RegularFile 1]> ∅).

Definition renamer_a : BulkRenamer :=
  with_file_list Renamer.init [settled "/d/a.jpg"].

(** The prefix x, everything else at its default. *)
Definition config_x : Config :=
  {| cfg_prefix := "x";
     cfg_suffix := EmptyString;
     cfg_add_numbers := false;
     cfg_start_number := 1;
     cfg_padding := 3;
     cfg_find_text := EmptyString;
     cfg_replace_text := EmptyString;
     cfg_case_sensitive := true;
     cfg_add_date := false;
     cfg_date_type := "creation";
     cfg_date_format := "%Y-%m-%d";
     cfg_use_pattern := false;
     cfg_pattern_elements := None |}.

(** q replaced by z, everything else at its default, and an orchestrator
    whose list holds the three files of [disk_abc]. *)
Definition config_qz : Config :=
  {| cfg_prefix := EmptyString;
     cfg_suffix := EmptyString;
     cfg_add_numbers := false;
     cfg_start_number := 1;
     cfg_padding := 3;
     cfg_find_text := "q";
     cfg_replace_text := "z";
     cfg_case_sensitive := true;
     cfg_add_date := false;
     cfg_date_type := "creation";
     cfg_date_format := "%Y-%m-%d";
     cfg_use_pattern := false;
     cfg_pattern_elements := None |}.

Definition renamer_abc : BulkRenamer :=
  with_file_list Renamer.init
    [settled "/d/aq.jpg"; settled "/d/b.jpg"; settled "/d/cq.jpg"].

(** The prefix x, img replaced by photo. *)
Definition config_replace : Config :=
  {| cfg_prefix := "x";
     cfg_suffix := EmptyString;
     cfg_add_numbers := false;
     cfg_start_number := 1;
     cfg_padding := 3;
     cfg_find_text := "img";
     cfg_replace_text := "photo";
     cfg_case_sensitive := true;
     cfg_add_date := false;
     cfg_date_type := "creation";
     cfg_date_format := "%Y-%m-%d";
     cfg_use_pattern := false;
     cfg_pattern_elements := None |}.

Definition renamer_img : BulkRenamer :=
  with_file_list Renamer.init [settled "/d/img_001.jpg"].

(** An invalid parameter set: a padding of 0, and a pattern list whose
    last element is an unknown placeholder. *)
Definition config_invalid : Config :=
  {| cfg_prefix := "x";
     cfg_suffix := EmptyString;
     cfg_add_numbers := true;
     cfg_start_number := 1;
     cfg_padding := 0;
     cfg_find_text := EmptyString;
     cfg_replace_text := EmptyString;
     cfg_case_sensitive := true;
     cfg_add_date := false;
     cfg_date_type := "creation";
     cfg_date_format := "%Y-%m-%d";
     cfg_use_pattern := true;
     cfg_pattern_elements := Some ["{prefix}"; "{name}"; "{bogus}"] |}.

(** The value map of the rendering example. *)
Definition sample_values : gmap string string :=
  <["prefix" := "IMG"]>
    (<["name" := "photo"]>
       (<["suffix" := "edited"]>
          (<["num" := "001"]> (<["date" := "2024-01-15"]> ∅)))).

(** A pattern made of the prefix placeholder alone, and a prefix with two
    tabs in it. *)
Definition prefix_only : list PatternBuilder.PatternElement :=
  fst (PatternBuilder.set_pattern_from_list [] ["{prefix}"]).

Definition tab : string := String (PyStr.chr 9) EmptyString.

Definition tabbed_values : gmap string string :=
  <["prefix" := "a" +:+ tab +:+ tab +:+ "b"]> ∅.

(** /d holds a.jpg, b.txt and a subdirectory sub with c.jpg in it. *)
Definition disk_tree : OS.FS :=
  <["/d" := OS.Directory]>
    (<["/d/a.jpg" := OS.RegularFile 1]>
       (<["/d/b.txt" := OS.RegularFile 2]>
          (<["/d/sub" := OS.Directory]>
             (<["/d/sub/c.jpg" := OS.RegularFile 3]> ∅)))).

(** get_files_in_directory on a disk of the model. *)
Definition scan (fs : OS.FS) (directory : string) (file_types : list string)
  (recursive : bool) : list string :=
  FileUtils.get_files_in_directory
    (OS.path_exists fs) (OS.isfile fs) (OS.listdir fs) (OS.walk fs)
    directory file_types recursive.

End Examples.

(** ** Shapes: what the further properties are stated with *)
Module Shape.
Import PyStr PatternBuilder.

(** An element the pattern accepts. *)
Definition valid_element (element : string) : Prop :=
  (Validators.validate_pattern_placeholder element).1 = true.

(** Every element carries its index as its position. *)
Definition positions_in_order (elements : list PatternElement) : Prop :=
  map position elements = seq 0 (length elements).

(** Every element has the type its text calls for. *)
Definition types_by_text (elements : list PatternElement) : Prop :=
  Forall (fun element => type element = element_type_of (value element)) elements.

(** An element without its position. *)
Definition content (element : PatternElement) : element_type * string :=
  (type element, value element).

(** A name that is not empty, holds no character that no file name may
    hold and no control character, and has no space or dot at either
    end. *)
Definition clean (s : string) : Prop :=
  truthy s = true
  ∧ (∀ x, contains_char x Validators.invalid_chars = true → contains_char x s = false)
  ∧ any_char (fun c => negb (32 <=? ord c)%N) s = false
  ∧ Spec.starts_in (fun c => contains_char c " .") s = false
  ∧ Spec.ends_in (fun c => contains_char c " .") s = false.


End Shape.

(** * Properties *)

Import PyStr FileManager Spec.

(** ** Strings *)

Lemma str_app_nil_r (s : string) : s +:+ "" = s.
Proof. induction s as [|c s IH]; [done|]. unfold String.app in *. simpl. by rewrite IH. Qed.

Lemma str_app_assoc (s t u : string) : (s +:+ t) +:+ u = s +:+ (t +:+ u).
Proof.
  induction s as [|c s IH]; [done|].
  unfold String.app in *. simpl. by rewrite IH.
Qed.

Lemma str_app_nil_l (s : string) : "" +:+ s = s.
Proof. done. Qed.

Lemma str_app_cons (c : ascii) (s t : string) : String c s +:+ t = String c (s +:+ t).
Proof. done. Qed.

Lemma str_length_app (s t : string) :
  String.length (s +:+ t) = String.length s + String.length t.
Proof.
  induction s as [|c s IH]; [done|].
  rewrite str_app_cons. simpl. by rewrite IH.
Qed.

Lemma length_zeros (n : nat) : String.length (zeros n) = n.
Proof. induction n as [|n IH]; [done|]. simpl. by rewrite IH. Qed.

Lemma length_zfill (s : string) (width : Z) :
  String.length (zfill s width) = String.length s `max` Z.to_nat width.
Proof.
  unfold zfill.
  assert (Hfill : ∀ k, Z.to_nat (width - Z.of_nat k) + k = k `max` Z.to_nat width) by lia.
  destruct s as [|c s]; simpl String.length.
  - rewrite length_zeros. specialize (Hfill 0). simpl in Hfill. lia.
  - specialize (Hfill (S (String.length s))).
    destruct (Ascii.eqb c "+" || Ascii.eqb c "-").
    + simpl String.length. rewrite str_length_app, length_zeros. lia.
    + rewrite str_length_app, length_zeros. simpl String.length. lia.
Qed.

(** ** Sequential numbering *)

(** C8. With numbering on, the file at zero-based position i of the list
    gets its current name, an underscore and str(start + i) zero-filled to
    the padding width; start 5 and padding 2 over three files give the
    suffixes 05, 06 and 07 in list order. *)
Theorem sequential_numbering (fl : list FileItem) (start_number padding : Z) :
  (∀ i : nat,
     apply_sequential_numbering fl start_number padding !! i =
     (fun f =>
        set_new_name f
          (current_name f +:+ "_" +:+ zfill (str (start_number + Z.of_nat i)) padding))
       <$> fl !! i)
  ∧ (∀ n : Z,
       String.length (zfill (str n) padding)
       = String.length (str n) `max` Z.to_nat padding)
  ∧ (∀ f1 f2 f3 : FileItem,
       map new_name (apply_sequential_numbering [f1; f2; f3] 5 2)
       = [current_name f1 +:+ "_05"; current_name f2 +:+ "_06"; current_name f3 +:+ "_07"]).
Proof.
  split; [|split].
  - intros i. unfold apply_sequential_numbering. by rewrite list_lookup_imap.
  - intros n. apply length_zfill.
  - intros f1 f2 f3. reflexivity.
Qed.

(** ** Validation of the pending renames *)

Lemma pending_cons (f : FileItem) (fl : list FileItem) :
  pending (f :: fl) = if truthy (new_name f) then f :: pending fl else pending fl.
Proof.
  unfold pending. rewrite filter_cons.
  destruct (truthy (new_name f)); by case_decide.
Qed.

(** One round of the loop on a pending file, in the words of the two
    checks. *)
Lemma validate_item_pending fs errors (new_names : gset string) seen f :
  truthy (new_name f) = true →
  (∀ x, x ∈ new_names ↔ x ∈ map full_name seen) →
  ∃ new_names' : gset string,
    validate_item fs (errors, new_names) f
    = (errors ++ duplicate_errors seen f ++ target_errors fs f, new_names')
    ∧ (∀ x, x ∈ new_names' ↔ x ∈ map full_name (seen ++ [f])).
Proof.
  intros Hp Hseen. unfold validate_item, duplicate_errors, target_errors.
  rewrite Hp. simpl negb. cbv iota. fold (full_name f).
  assert (Htgt :
    (OS.path_exists fs (new_path f) && negb (String.eqb (new_path f) (original_path f)))
    = bool_decide (OS.path_exists fs (new_path f) = true ∧ new_path f ≠ original_path f)).
  { destruct (OS.path_exists fs (new_path f)); simpl.
    - destruct (String.eqb_spec (new_path f) (original_path f)) as [He|He]; simpl.
      + symmetry. apply bool_decide_eq_false_2. tauto.
      + symmetry. apply bool_decide_eq_true_2. tauto.
    - reflexivity. }
  assert (Hmem : bool_decide (full_name f ∈ new_names)
                 = bool_decide (full_name f ∈ map full_name seen)).
  { apply bool_decide_ext, Hseen. }
  rewrite <- Hmem.
  destruct (bool_decide (full_name f ∈ new_names)) eqn:Hin.
  - apply bool_decide_eq_true in Hin.
    exists new_names. rewrite Htgt. split.
    + destruct (bool_decide _); by rewrite <- ?(assoc_L (++)), ?app_nil_r.
    + intros x. rewrite map_app, elem_of_app, <- Hseen. simpl.
      rewrite list_elem_of_singleton. split; [tauto|]. by intros [?| ->].
  - exists (new_names ∪ {[full_name f]}). rewrite Htgt. split.
    + destruct (bool_decide _); simpl; by rewrite ?app_nil_r.
    + intros x. rewrite map_app, elem_of_app, <- Hseen. simpl.
      by rewrite list_elem_of_singleton, elem_of_union, elem_of_singleton.
Qed.

Lemma validate_fold fs (fl : list FileItem) :
  ∀ errors (new_names : gset string) seen,
    (∀ x, x ∈ new_names ↔ x ∈ map full_name seen) →
    fst (foldl (validate_item fs) (errors, new_names) fl)
    = errors ++
      concat (imap (fun j f => duplicate_errors (seen ++ take j (pending fl)) f
                               ++ target_errors fs f)
                   (pending fl)).
Proof.
  induction fl as [|f fl IH]; intros errors new_names seen Hseen.
  - simpl. by rewrite app_nil_r.
  - rewrite pending_cons. cbn [foldl].
    destruct (truthy (new_name f)) eqn:Hp.
    + destruct (validate_item_pending fs errors new_names seen f Hp Hseen)
        as (new_names' & -> & Hseen').
      rewrite (IH _ _ _ Hseen'). simpl imap. simpl concat.
      rewrite app_nil_r, <- !(assoc_L (++)). do 3 f_equal. f_equal.
      apply imap_ext. intros j g _. simpl. by rewrite <- (assoc_L (++)).
    + assert (validate_item fs (errors, new_names) f = (errors, new_names)) as ->.
      { unfold validate_item. by rewrite Hp. }
      by apply IH.
Qed.

Lemma validate_changes_validation_errors (fs : OS.FS) (fl : list FileItem) :
  validate_changes fs fl = validation_errors fs fl.
Proof.
  unfold validate_changes, validation_errors.
  rewrite (validate_fold fs fl [] ∅ []); [done|].
  intros x. simpl. set_solver.
Qed.

(** C5. Validation is the two checks and nothing else: going through the
    pending files in order, a file whose final name (extension included)
    an earlier pending file already proposed yields one duplicate error,
    and a file whose proposed path exists on disk and is not its own
    original path yields one target-exists error.  Two files that both
    map to a.jpg yield exactly one error, the duplicate one naming a.jpg. *)
Theorem validate_changes_two_checks (fs : OS.FS) (fl : list FileItem) :
  validate_changes fs fl = validation_errors fs fl
  ∧ validate_changes Examples.disk_xy
      [Examples.staged "/d/x.jpg" "a"; Examples.staged "/d/y.jpg" "a"]
    = ["Duplicate filename: a.jpg"].
Proof.
  split.
  - apply validate_changes_validation_errors.
  - vm_compute. reflexivity.
Qed.

(** ** Scanning a directory *)

Section Scan.
Variable path_exists isfile : string → bool.
Variable listdir : string → option (list string).
Variable walk : string → list (string * list string).

Lemma sorted_is_sorted (files : list string) :
  Sorted String.le (FileUtils.sorted files).
Proof. apply (Sorted_merge_sort String.le). Qed.

Lemma elem_of_sorted (files : list string) (p : string) :
  p ∈ FileUtils.sorted files ↔ p ∈ files.
Proof. unfold FileUtils.sorted. by rewrite merge_sort_Permutation. Qed.

(** What a scan without recursion finds, before sorting. *)
Lemma scan_flat_elem_of (directory : string) (file_types : list string) (p : string) :
  p ∈ FileUtils.get_files_in_directory path_exists isfile listdir walk
        directory file_types false
  ↔ truthy directory = true ∧ path_exists directory = true ∧
    ∃ filenames filename,
      listdir directory = Some filenames ∧ filename ∈ filenames ∧
      p = PosixPath.join directory filename ∧ isfile p = true ∧
      FileUtils.matches_type (map (fun ft => strip (lower ft)) file_types) filename = true.
Proof.
  unfold FileUtils.get_files_in_directory.
  destruct (truthy directory); simpl.
  2:{ rewrite elem_of_nil. split; [done|]. by intros (? & ? & _). }
  destruct (path_exists directory); simpl.
  2:{ rewrite elem_of_nil. split; [done|]. by intros (? & ? & _). }
  rewrite elem_of_sorted.
  destruct (listdir directory) as [filenames|].
  2:{ rewrite elem_of_nil. split; [done|]. by intros (_ & _ & ? & ? & ? & _). }
  rewrite list_elem_of_omap. split.
  - intros (filename & Hin & Hsome).
    destruct (isfile (PosixPath.join directory filename)) eqn:Hfile; [|done].
    destruct (FileUtils.matches_type _ filename) eqn:Hm; [|done].
    simpl in Hsome. injection Hsome as <-.
    split; [done|]. split; [done|]. by exists filenames, filename.
  - intros (_ & _ & filenames' & filename & [= <-] & Hin & -> & Hfile & Hm).
    exists filename. split; [done|]. by rewrite Hfile, Hm.
Qed.

End Scan.

Lemma child_name_direct (d p n : string) :
  OS.child_name d p = Some n → truthy n = true ∧ contains_char "/" n = false.
Proof.
  unfold OS.child_name.
  destruct (startswith p _); [|done].
  destruct (truthy _) eqn:Ht; [|done].
  destruct (contains_char "/" _) eqn:Hc; [done|].
  simpl. by intros [= <-].
Qed.

(** C9. A scan without recursion returns its paths sorted in the
    lexicographic order of strings, and a path is returned exactly when it
    is the directory joined with a name the directory lists, names a
    regular file and ends in one of the extensions.  On a disk, such a
    name has no separator in it: the path is a direct child, and a file of
    a subdirectory is left out even when its extension matches. *)
Theorem scan_direct_children_sorted
  (path_exists isfile : string → bool) (listdir : string → option (list string))
  (walk : string → list (string * list string))
  (directory : string) (file_types : list string) :
  Sorted String.le
    (FileUtils.get_files_in_directory path_exists isfile listdir walk
       directory file_types false)
  ∧ (∀ p : string,
       p ∈ FileUtils.get_files_in_directory path_exists isfile listdir walk
             directory file_types false
       ↔ truthy directory = true ∧ path_exists directory = true ∧
         ∃ filenames filename,
           listdir directory = Some filenames ∧ filename ∈ filenames ∧
           p = PosixPath.join directory filename ∧ isfile p = true ∧
           FileUtils.matches_type (map (fun ft => strip (lower ft)) file_types) filename
           = true)
  ∧ (∀ (fs : OS.FS) (p : string),
       p ∈ Examples.scan fs directory file_types false →
       OS.isfile fs p = true ∧
       ∃ name, p = PosixPath.join directory name ∧
               truthy name = true ∧ contains_char "/" name = false)
  ∧ Examples.scan Examples.disk_tree "/d" [".jpg"] false = ["/d/a.jpg"]
  ∧ Examples.scan Examples.disk_tree "/d" [".jpg"] true = ["/d/a.jpg"; "/d/sub/c.jpg"].
Proof.
  split; [|split; [|split; [|split]]].
  - unfold FileUtils.get_files_in_directory.
    destruct (_ || _); [constructor|]. apply sorted_is_sorted.
  - apply scan_flat_elem_of.
  - intros fs p. unfold Examples.scan. rewrite scan_flat_elem_of.
    intros (_ & _ & filenames & filename & Hls & Hin & -> & Hfile & _).
    split; [done|]. exists filename. split; [done|].
    unfold OS.listdir in Hls.
    destruct (fs !! directory) as [[|]|]; try done.
    injection Hls as <-. apply list_elem_of_omap in Hin as (key & _ & Hchild).
    by apply child_name_direct in Hchild.
  - vm_compute. reflexivity.
  - vm_compute. reflexivity.
Qed.

(** ** The undo stack *)

Import Renamer.

Lemma push_undo_room (st : list (list (string * string))) batch :
  length st < 10 → push_undo st batch = st ++ [batch].
Proof.
  intros Hlen. unfold push_undo.
  destruct (10 <? length (st ++ [batch])) eqn:Hfull; [|done].
  apply Nat.ltb_lt in Hfull. rewrite length_app in Hfull. simpl in Hfull. lia.
Qed.

Lemma push_undo_full oldest (st : list (list (string * string))) batch :
  length st = 9 → push_undo (oldest :: st) batch = st ++ [batch].
Proof.
  intros Hlen. unfold push_undo.
  destruct (10 <? length ((oldest :: st) ++ [batch])) eqn:Hfull; [done|].
  apply Nat.ltb_ge in Hfull. simpl in Hfull. rewrite length_app in Hfull.
  simpl in Hfull. lia.
Qed.

Lemma push_undo_bounded (st : list (list (string * string))) batch :
  length st ≤ 10 → length (push_undo st batch) ≤ 10.
Proof.
  intros Hlen. unfold push_undo.
  destruct (10 <? length (st ++ [batch])) eqn:Hfull.
  - destruct st as [|oldest st]; simpl in *; [lia|].
    rewrite length_app. simpl. lia.
  - by apply Nat.ltb_ge in Hfull.
Qed.

(** execute_rename leaves the stack alone or pushes one batch on it. *)
Lemma execute_rename_undo_stack h fs r :
  undo_stack (execute_rename h fs r).1.2 = undo_stack r
  ∨ ∃ batch, undo_stack (execute_rename h fs r).1.2 = push_undo (undo_stack r) batch.
Proof.
  unfold execute_rename.
  destruct (validate_changes fs _) as [|e errors]; [|by left].
  destruct (FileManager.execute_rename fs _) as [[fs' fl] [successful errors]].
  destruct successful as [|pair successful]; [by left|].
  right. by exists (pair :: successful).
Qed.

(** undo_last_rename on a non-empty stack takes the last batch off it and
    replays that batch, whatever the replay reports. *)
Lemma undo_last_rename_pops fs r st batch :
  undo_stack r = st ++ [batch] →
  undo_stack (undo_last_rename fs r).1.2 = st
  ∧ (undo_last_rename fs r).1.1 = (undo_each fs (rev batch)).1.
Proof.
  intros Hst. unfold undo_last_rename.
  rewrite Hst, last_snoc, removelast_last.
  destruct (undo_each fs (rev batch)) as [fs' errors].
  destruct errors as [|e errors]; [|done].
  by destruct (load_files fs' _) as [fm ok].
Qed.

Lemma undo_last_rename_empty fs r :
  undo_stack r = [] →
  undo_last_rename fs r = (fs, r, (false, Some "No operations to undo")).
Proof. intros Hst. unfold undo_last_rename. by rewrite Hst. Qed.

Lemma undo_last_rename_undo_stack fs r :
  length (undo_stack (undo_last_rename fs r).1.2) ≤ length (undo_stack r).
Proof.
  destruct (undo_stack r) as [|b0 st0] eqn:Hst.
  - rewrite (undo_last_rename_empty fs r Hst). simpl. by rewrite Hst.
  - destruct (exists_last (l := b0 :: st0)) as (st & b & Hsnoc); [done|].
    rewrite Hsnoc in Hst.
    destruct (undo_last_rename_pops fs r st b Hst) as [-> _].
    rewrite Hsnoc, length_app. lia.
Qed.

Lemma step_bounded s a :
  length (undo_stack s.2) ≤ 10 → length (undo_stack (Session.step s a).2) ≤ 10.
Proof.
  destruct s as [fs r]. intros Hlen. destruct a as [h c|fl|fs'|h|]; simpl; try done.
  - destruct (execute_rename_undo_stack h fs r) as [->|[batch ->]]; [done|].
    by apply push_undo_bounded.
  - pose proof (undo_last_rename_undo_stack fs r). simpl in Hlen. lia.
Qed.

Lemma run_bounded (acts : list Session.action) s :
  length (undo_stack s.2) ≤ 10 → length (undo_stack (Session.run acts s).2) ≤ 10.
Proof.
  revert s. induction acts as [|a acts IH]; intros s Hlen; [done|].
  apply IH. by apply step_bounded.
Qed.

(** C7. The undo stack is a bounded LIFO: after any sequence of calls on
    a fresh orchestrator it holds at most 10 batches; execute_rename
    leaves it alone or pushes one batch, which goes on top while there is
    room and evicts the oldest batch when there are 10 already; undo takes
    off exactly the batch pushed last and replays that one. *)
Theorem undo_stack_bounded_lifo :
  (∀ (acts : list Session.action) (fs : OS.FS),
     length (undo_stack (Session.run acts (fs, Renamer.init)).2) ≤ 10)
  ∧ (∀ h fs r,
       undo_stack (execute_rename h fs r).1.2 = undo_stack r
       ∨ ∃ batch,
           undo_stack (execute_rename h fs r).1.2 = push_undo (undo_stack r) batch)
  ∧ (∀ (st : list (list (string * string))) batch,
       length st < 10 → push_undo st batch = st ++ [batch])
  ∧ (∀ oldest (st : list (list (string * string))) batch,
       length st = 9 → push_undo (oldest :: st) batch = st ++ [batch])
  ∧ (∀ fs r st batch,
       undo_stack r = st ++ [batch] →
       undo_stack (undo_last_rename fs r).1.2 = st
       ∧ (undo_last_rename fs r).1.1 = (undo_each fs (rev batch)).1)
  ∧ (∀ fs r,
       undo_stack r = [] →
       undo_last_rename fs r = (fs, r, (false, Some "No operations to undo"))).
Proof.
  split; [|split; [|split; [|split; [|split]]]].
  - intros acts fs. apply run_bounded. simpl. lia.
  - apply execute_rename_undo_stack.
  - apply push_undo_room.
  - apply push_undo_full.
  - apply undo_last_rename_pops.
  - apply undo_last_rename_empty.
Qed.

(** ** Execution of a batch *)

Lemma path_exists_lookup (fs : OS.FS) p :
  OS.path_exists fs p = true ↔ is_Some (fs !! p).
Proof.
  unfold OS.path_exists. by destruct (fs !! p).
Qed.



(** The file list keeps its length, every pending file ends in the
    successes or in the errors, and each file has its outcome. *)
Lemma rename_each_outcomes (fl : list FileItem) :
  ∀ fs,
    length (rename_each fs fl).1.2 = length fl
    ∧ length (rename_each fs fl).2.1 + length (rename_each fs fl).2.2
      = length (pending fl)
    ∧ ∀ i f, fl !! i = Some f →
        ∃ f', (rename_each fs fl).1.2 !! i = Some f'
              ∧ outcome (rename_each fs fl).2.1 (rename_each fs fl).2.2 f f'.
Proof.
  induction fl as [|g fl IH]; intros fs.
  - by repeat split.
  - rewrite pending_cons. cbn [rename_each].
    destruct (truthy (new_name g)) eqn:Hp; cbn [negb].
    + destruct (FileUtils.safe_rename fs (original_path g) (new_path g))
        as [fs1 [success error_msg]].
      specialize (IH fs1).
      destruct (rename_each fs1 fl) as [[fs' rest'] [successful errors]].
      destruct IH as (Hlen & Hcount & Hout). simpl in Hlen, Hcount, Hout.
      destruct success; simpl.
      * split; [by rewrite Hlen|]. split; [by rewrite <- Hcount|].
        intros [|i] f Hi; simpl in Hi.
        -- injection Hi as <-. eexists. split; [done|].
           apply succeeded; [done|done|]. apply list_elem_of_here.
        -- destruct (Hout i f Hi) as (f' & Hf' & [Hs Heq|Hs Hren Hin|msg Hs Heq Hin]).
           ++ exists f'. split; [done|]. by apply skipped.
           ++ exists f'. split; [done|]. apply succeeded; [done|done|].
              by apply list_elem_of_further.
           ++ exists f'. split; [done|]. by apply (failed _ _ _ _ msg).
      * split; [by rewrite Hlen|]. split; [rewrite <- Hcount; lia|].
        intros [|i] f Hi; simpl in Hi.
        -- injection Hi as <-. eexists. split; [done|].
           apply (failed _ _ _ _ (show error_msg)); [done|done|].
           apply list_elem_of_here.
        -- destruct (Hout i f Hi) as (f' & Hf' & [Hs Heq|Hs Hren Hin|msg Hs Heq Hin]).
           ++ exists f'. split; [done|]. by apply skipped.
           ++ exists f'. split; [done|]. by apply succeeded.
           ++ exists f'. split; [done|]. apply (failed _ _ _ _ msg); [done|done|].
              by apply list_elem_of_further.
    + specialize (IH fs).
      destruct (rename_each fs fl) as [[fs' rest'] [successful errors]].
      destruct IH as (Hlen & Hcount & Hout). simpl in Hlen, Hcount, Hout. simpl.
      split; [by rewrite Hlen|]. split; [done|].
      intros [|i] f Hi; simpl in Hi.
      * injection Hi as <-. eexists. split; [done|]. by apply skipped.
      * by apply Hout.
Qed.

(** C6, as amended.  Once validation has let the batch through, execution
    is best effort per file.  For paths without a NUL character, the loop
    goes through every file of the list, whatever happened to the files
    before it: a file with nothing pending is skipped, a renamed one has
    its path and name updated, its pending name cleared and its pair
    recorded, a file safe_rename reports as failed is left as it was with
    one error string, and the successes and errors together count the
    pending files.  execute_rename is that loop only when validation finds
    nothing: otherwise the whole call stops there, nothing is renamed and
    the validation errors are returned.  In a batch of three whose second
    file proposes its own path, validation passes, the loop fails that file
    alone on the existence check, the first and third are renamed and the
    one error names the second; the orchestrator reports two files renamed
    and one error.  In a batch of three whose second target is another
    file on disk, the loop taken alone would behave the same, but
    validation stops the call: the orchestrator reports no file renamed. *)
Theorem execute_rename_best_effort (fs : OS.FS) (fl : list FileItem) :
  (∀ f, f ∈ pending fl →
        nul_free (original_path f) = true ∧ nul_free (new_path f) = true) →
  (length (rename_each fs fl).1.2 = length fl
   ∧ length (rename_each fs fl).2.1 + length (rename_each fs fl).2.2
     = length (pending fl)
   ∧ ∀ i f, fl !! i = Some f →
       ∃ f', (rename_each fs fl).1.2 !! i = Some f'
             ∧ outcome (rename_each fs fl).2.1 (rename_each fs fl).2.2 f f')
  ∧ FileManager.execute_rename fs fl
    = match FileManager.validate_changes fs fl with
      | [] => rename_each fs fl
      | _ :: _ => (fs, fl, ([], FileManager.validate_changes fs fl))
      end
  ∧ FileManager.execute_rename Examples.disk_abc Examples.batch_abc
    = (<["/d" := OS.Directory]>
         (<["/d/az.jpg" := OS.RegularFile 1]>
            (<["/d/b.jpg" := OS.RegularFile 2]>
               (<["/d/cz.jpg" := OS.RegularFile 3]> ∅))),
       [Examples.settled "/d/az.jpg"; Examples.staged "/d/b.jpg" "b";
        Examples.settled "/d/cz.jpg"],
       ([("/d/aq.jpg", "/d/az.jpg"); ("/d/cq.jpg", "/d/cz.jpg")],
        ["Failed to rename b.jpg: Target file already exists: /d/b.jpg"]))
  ∧ rename_each Examples.disk_taken Examples.batch_q
    = (<["/d" := OS.Directory]>
         (<["/d/az.jpg" := OS.RegularFile 1]>
            (<["/d/bq.jpg" := OS.RegularFile 2]>
               (<["/d/cz.jpg" := OS.RegularFile 3]>
                  (<["/d/bz.jpg" := OS.RegularFile 4]> ∅)))),
       [Examples.settled "/d/az.jpg"; Examples.staged "/d/bq.jpg" "bz";
        Examples.settled "/d/cz.jpg"],
       ([("/d/aq.jpg", "/d/az.jpg"); ("/d/cq.jpg", "/d/cz.jpg")],
        ["Failed to rename bq.jpg: Target file already exists: /d/bz.jpg"]))
  ∧ (Renamer.execute_rename Examples.plain_host Examples.disk_abc
       (Renamer.configure_operation Examples.plain_host Examples.renamer_abc
          Examples.config_qz).1).2
    = (false, ["Failed to rename b.jpg: Target file already exists: /d/b.jpg"], 2)
  ∧ (Renamer.execute_rename Examples.plain_host Examples.disk_taken
       (Renamer.configure_operation Examples.plain_host Examples.renamer_q
          Examples.config_qz).1).1.1
    = Examples.disk_taken
  ∧ (Renamer.execute_rename Examples.plain_host Examples.disk_taken
       (Renamer.configure_operation Examples.plain_host Examples.renamer_q
          Examples.config_qz).1).2
    = (false, ["Target file already exists: bz.jpg"], 0).
Proof.
  intros _.
  split; [apply rename_each_outcomes|]. split; [|split; [|split; [|split; [|split]]]].
  - unfold FileManager.execute_rename.
    by destruct (FileManager.validate_changes fs fl).
  - vm_compute. reflexivity.
  - vm_compute. reflexivity.
  - vm_compute. reflexivity.
  - vm_compute. reflexivity.
  - vm_compute. reflexivity.
Qed.

(** The batch of three whose second file proposes its own path holds no
    NUL character. *)
Lemma execute_rename_best_effort_abc :
  length (rename_each Examples.disk_abc Examples.batch_abc).1.2
  = length Examples.batch_abc
  ∧ length (rename_each Examples.disk_abc Examples.batch_abc).2.1
    + length (rename_each Examples.disk_abc Examples.batch_abc).2.2
    = length (pending Examples.batch_abc).
Proof.
  assert (∀ f, f ∈ pending Examples.batch_abc →
               nul_free (original_path f) = true ∧ nul_free (new_path f) = true)
    as Hfree.
  { intros f Hin. vm_compute in Hin.
    apply elem_of_cons in Hin as [->|Hin]; [by vm_compute|].
    apply elem_of_cons in Hin as [->|Hin]; [by vm_compute|].
    apply elem_of_cons in Hin as [->|Hin]; [by vm_compute|].
    by apply elem_of_nil in Hin. }
  destruct (execute_rename_best_effort Examples.disk_abc Examples.batch_abc Hfree)
    as [(Hlen & Hcount & _) _].
  by split.
Defined.

(** The claim as the specification words it fails where the second target
    is a file that is already there: files 1 and 3 are not renamed, because
    validation stops the whole batch. *)
Lemma existing_target_blocks_the_batch :
  FileManager.validate_changes Examples.disk_taken Examples.batch_q
  = ["Target file already exists: bz.jpg"]
  ∧ FileManager.execute_rename Examples.disk_taken Examples.batch_q
    = (Examples.disk_taken, Examples.batch_q, ([], ["Target file already exists: bz.jpg"])).
Proof.
  split; vm_compute; reflexivity.
Qed.


(** ** A rename onto the file's own path *)



Lemma rpartition_join (c : ascii) (s h t : string) :
  PosixPath.rpartition c s = Some (h, t) → s = h +:+ String c t.
Proof.
  revert h t. induction s as [|d s IH]; intros h t; [done|]. simpl.
  destruct (PosixPath.rpartition c s) as [[h' t']|].
  - intros [= <- <-]. by rewrite str_app_cons, <- (IH h' t').
  - destruct (Ascii.eqb_spec d c) as [->|_]; [|done]. by intros [= <- <-].
Qed.

Lemma splitext_name_join (n : string) :
  (PosixPath.splitext_name n).1 +:+ (PosixPath.splitext_name n).2 = n.
Proof.
  unfold PosixPath.splitext_name.
  destruct (PosixPath.rpartition "." n) as [[h t]|] eqn:Hn; [|apply str_app_nil_r].
  destruct (any_char _ h); [|apply str_app_nil_r].
  symmetry. by apply rpartition_join.
Qed.

Lemma splitext_join (p : string) :
  (PosixPath.splitext p).1 +:+ (PosixPath.splitext p).2 = p.
Proof.
  unfold PosixPath.splitext.
  destruct (PosixPath.rpartition PosixPath.sep p) as [[h t]|] eqn:Hp;
    [|apply splitext_name_join].
  pose proof (splitext_name_join t) as Ht.
  destruct (PosixPath.splitext_name t) as [root ext]. simpl in *.
  apply rpartition_join in Hp. by rewrite Hp, str_app_assoc, str_app_cons, Ht.
Qed.

(** A file staged under its own base name proposes the directory of its
    path joined with the last component of its path. *)
Lemma own_name_proposes_own_path (path original_name_ : string) :
  truthy (original_name (FileItem_init path original_name_)) = true →
  new_path (set_new_name (FileItem_init path original_name_)
                         (original_name (FileItem_init path original_name_)))
  = PosixPath.join (PosixPath.dirname path) (PosixPath.basename path).
Proof.
  unfold FileItem_init, new_path.
  pose proof (splitext_join (PosixPath.basename path)) as Hsplit.
  destruct (PosixPath.splitext (PosixPath.basename path)) as [name ext].
  simpl in *. intros ->. by rewrite Hsplit.
Qed.



(** ** Rendering a pattern *)

Section Classes.
Variable P : ascii → bool.

Lemma all_in_cons c s : all_in P (String c s) = P c && all_in P s.
Proof. unfold all_in. simpl. by destruct (P c). Qed.

Lemma all_in_app s t : all_in P (s +:+ t) = all_in P s && all_in P t.
Proof.
  induction s as [|c s IH]; [done|].
  rewrite str_app_cons, !all_in_cons, IH. by destruct (P c).
Qed.

Lemma all_in_ends_in s : all_in P s = true → s ≠ "" → ends_in P s = true.
Proof.
  induction s as [|c s IH]; [done|]. rewrite all_in_cons.
  intros [Hc Hs]%andb_true_iff _. destruct s as [|d s]; [done|].
  by apply IH.
Qed.

Lemma ends_in_tail c s : ends_in P (String c s) = false → ends_in P s = false.
Proof. by destruct s. Qed.

(** A string splits in one way only into a run of the class and a rest
    that does not start in the class. *)
Lemma run_split_unique run run' s s' :
  run +:+ s = run' +:+ s' →
  all_in P run = true → all_in P run' = true →
  starts_in P s = false → starts_in P s' = false →
  run = run' ∧ s = s'.
Proof.
  revert run'. induction run as [|c run IH]; intros [|c' run'] Heq Hr Hr' Hs Hs'.
  - done.
  - rewrite str_app_cons, str_app_nil_l in Heq. subst s.
    rewrite all_in_cons in Hr'. simpl in Hs.
    apply andb_true_iff in Hr' as [Hc _]. congruence.
  - rewrite str_app_cons, str_app_nil_l in Heq. subst s'.
    rewrite all_in_cons in Hr. simpl in Hs'.
    apply andb_true_iff in Hr as [Hc _]. congruence.
  - rewrite !str_app_cons in Heq. injection Heq as -> Heq.
    rewrite all_in_cons in Hr, Hr'.
    apply andb_true_iff in Hr as [_ Hr]. apply andb_true_iff in Hr' as [_ Hr'].
    by destruct (IH run' Heq Hr Hr' Hs Hs') as [-> ->].
Qed.

(** And in one way only into a body that does not end in the class and a
    run of the class. *)
Lemma body_split_unique b b' r r' :
  b +:+ r = b' +:+ r' →
  all_in P r = true → all_in P r' = true →
  ends_in P b = false → ends_in P b' = false →
  b = b'.
Proof.
  revert b'. induction b as [|c b IH]; intros [|c' b'] Heq Hr Hr' Hb Hb'.
  - done.
  - rewrite str_app_nil_l in Heq. subst r. rewrite all_in_app in Hr.
    apply andb_true_iff in Hr as [Hr _].
    apply all_in_ends_in in Hr; [congruence|done].
  - rewrite str_app_nil_l in Heq. subst r'. rewrite all_in_app in Hr'.
    apply andb_true_iff in Hr' as [Hr' _].
    apply all_in_ends_in in Hr'; [congruence|done].
  - rewrite !str_app_cons in Heq. injection Heq as -> Heq.
    f_equal. apply (IH b' Heq Hr Hr'); by eapply ends_in_tail.
Qed.

Lemma collapsed_unique s t1 t2 : collapsed P s t1 → collapsed P s t2 → t1 = t2.
Proof.
  intros H1. revert t2.
  induction H1 as [|c s t Hc _ IH|c run s t Hc Hrun Hs _ IH]; intros t2 H2.
  - by inversion H2.
  - inversion H2; subst; [|congruence]. f_equal. by apply IH.
  - inversion H2; subst; [congruence|].
    match goal with
    | Heq : _ +:+ _ = _ +:+ _ |- _ =>
        destruct (run_split_unique _ _ _ _ Heq) as [-> ->]; try done
    end.
    f_equal. by apply IH.
Qed.

Lemma all_in_starts_in s : all_in P s = true → s ≠ "" → starts_in P s = true.
Proof.
  destruct s as [|c s]; [done|]. rewrite all_in_cons.
  by intros [Hc _]%andb_true_iff _.
Qed.

Lemma trimmed_all_in s b : all_in P s = true → trimmed P s b → b = "".
Proof.
  intros Hall (l & r & -> & _ & _ & Hs & _).
  rewrite !all_in_app in Hall.
  apply andb_true_iff in Hall as [_ [Hb _]%andb_true_iff].
  destruct b as [|c b]; [done|].
  apply all_in_starts_in in Hb; [congruence|done].
Qed.

Lemma trimmed_unique s b1 b2 : trimmed P s b1 → trimmed P s b2 → b1 = b2.
Proof.
  intros H1 H2.
  destruct b1 as [|c1 b1].
  { symmetry. apply (trimmed_all_in s); [|done].
    destruct H1 as (l & r & -> & Hl & Hr & _). rewrite !all_in_app, Hl, Hr. done. }
  destruct b2 as [|c2 b2].
  { apply (trimmed_all_in s); [|done].
    destruct H2 as (l & r & -> & Hl & Hr & _). rewrite !all_in_app, Hl, Hr. done. }
  destruct H1 as (l1 & r1 & -> & Hl1 & Hr1 & Hs1 & He1).
  destruct H2 as (l2 & r2 & Heq & Hl2 & Hr2 & Hs2 & He2).
  destruct (run_split_unique _ _ _ _ Heq Hl1 Hl2) as [_ Hrest]; [done|done|].
  by apply (body_split_unique _ _ _ _ Hrest).
Qed.

End Classes.

Lemma lstrip_by_split (P : ascii → bool) (s : string) :
  ∃ run, s = run +:+ lstrip_by P s ∧ all_in P run = true
         ∧ starts_in P (lstrip_by P s) = false.
Proof.
  induction s as [|c s (run & Hs & Hrun & Hstart)].
  - by exists "".
  - simpl. destruct (P c) eqn:Hc.
    + exists (String c run). rewrite str_app_cons, <- Hs, all_in_cons, Hc, Hrun. done.
    + exists "". by rewrite str_app_nil_l.
Qed.

Lemma rstrip_by_split (P : ascii → bool) (s : string) :
  ∃ r, s = rstrip_by P s +:+ r ∧ all_in P r = true
       ∧ ends_in P (rstrip_by P s) = false.
Proof.
  induction s as [|c s (r & Hs & Hr & Hend)].
  - by exists "".
  - simpl. destruct (rstrip_by P s) as [|d t] eqn:Ht.
    + rewrite str_app_nil_l in Hs. subst r. destruct (P c) eqn:Hc.
      * exists (String c s). by rewrite str_app_nil_l, all_in_cons, Hc, Hr.
      * exists s. by rewrite str_app_cons, str_app_nil_l.
    + exists r. by rewrite str_app_cons, <- Hs.
Qed.

Lemma rstrip_by_starts_in (P : ascii → bool) (s : string) :
  starts_in P s = false → starts_in P (rstrip_by P s) = false.
Proof.
  destruct s as [|c s]; [done|]. simpl. intros Hc.
  destruct (rstrip_by P s); [by rewrite Hc|done].
Qed.

Lemma strip_by_trimmed (P : ascii → bool) (s : string) : trimmed P s (strip_by P s).
Proof.
  unfold strip_by.
  destruct (lstrip_by_split P s) as (l & Hs & Hl & Hstart).
  destruct (rstrip_by_split P (lstrip_by P s)) as (r & Hm & Hr & Hend).
  exists l, r. split; [|split; [done|split; [done|split; [|done]]]].
  - by rewrite <- Hm.
  - by apply rstrip_by_starts_in.
Qed.

Lemma trimmed_ext (P Q : ascii → bool) (s b : string) :
  (∀ c, P c = Q c) → trimmed P s b → trimmed Q s b.
Proof.
  intros Hext (l & r & Hs & Hl & Hr & Hstart & Hend).
  assert (∀ t, all_in Q t = all_in P t) as Hall.
  { intros t. induction t as [|c t IH]; [done|]. by rewrite !all_in_cons, IH, Hext. }
  assert (∀ t, ends_in Q t = ends_in P t) as Hends.
  { intros t. induction t as [|c t IH]; [done|]. simpl. rewrite IH, Hext. done. }
  exists l, r. rewrite !Hall, Hends. repeat split; try done.
  destruct b; [done|]. simpl. by rewrite <- Hext.
Qed.

Import PatternBuilder.

Lemma strip_chars_named (c : ascii) : contains_char c "-_ " = named_separator c.
Proof.
  unfold named_separator. simpl.
  by destruct (Ascii.eqb c "-"), (Ascii.eqb c "_"), (Ascii.eqb c " ").
Qed.

(** After the first character of a match, the scan skips the rest of it. *)
Lemma collapse_from_true (s : string) :
  collapse_from true s = collapse_from false (lstrip_by is_separator s).
Proof.
  induction s as [|c s IH]; [done|].
  simpl. destruct (is_separator c) eqn:Hc; [done|].
  simpl. by rewrite Hc.
Qed.

Lemma collapse_separators_collapsed (s : string) :
  collapsed is_separator s (collapse_separators s).
Proof.
  unfold collapse_separators.
  assert (∀ n s, String.length s ≤ n → collapsed is_separator s (collapse_from false s))
    as Hlen; [|by apply (Hlen (String.length s))].
  clear s. intros n. induction n as [|n IH]; intros [|c s] Hn; try constructor.
  - simpl in Hn. lia.
  - simpl in Hn. simpl. destruct (is_separator c) eqn:Hc.
    + rewrite collapse_from_true.
      destruct (lstrip_by_split is_separator s) as (run & Hs & Hrun & Hstart).
      rewrite Hs at 1. apply collapsed_run; try done.
      apply IH. apply (f_equal String.length) in Hs.
      rewrite str_length_app in Hs. lia.
    + apply collapsed_char; [done|]. apply IH. lia.
Qed.

(** The value map the code builds is the value of a placeholder. *)
Lemma default_values_value_of (original_name : string) (values : gmap string string) k :
  get (<["prefix" := get values "prefix"]>
         (<["name" := original_name]>
            (<["suffix" := get values "suffix"]>
               (<["num" := get values "num"]>
                  (<["date" := get values "date"]> ∅))))) k
  = value_of original_name values k.
Proof.
  unfold get, value_of.
  destruct (String.eqb_spec k "name") as [->|Hname]; [done|].
  destruct (decide (k = "prefix")) as [->|Hprefix]; [by rewrite lookup_insert_eq|].
  destruct (decide (k = "suffix")) as [->|Hsuffix].
  { by rewrite 2!lookup_insert_ne, lookup_insert_eq. }
  destruct (decide (k = "num")) as [->|Hnum].
  { by rewrite 3!lookup_insert_ne, lookup_insert_eq. }
  destruct (decide (k = "date")) as [->|Hdate].
  { by rewrite 4!lookup_insert_ne, lookup_insert_eq. }
  rewrite !lookup_insert_ne, lookup_empty by done.
  rewrite bool_decide_eq_false_2; [done|].
  rewrite !elem_of_cons, elem_of_nil. by intros [?|[?|[?|[?|[]]]]].
Qed.

Lemma element_part_emitted dv value_of_ (element : PatternElement) :
  (∀ k, get dv k = value_of_ k) →
  element_part dv element = emitted value_of_ element.
Proof.
  intros Hget. unfold element_part, emitted. destruct (type element); [|done].
  rewrite Hget. by destruct (value_of_ _).
Qed.

Lemma startswith_char (c d : ascii) (s : string) :
  startswith (String c s) (String d "") = Ascii.eqb c d.
Proof.
  unfold startswith. cbn [String.prefix].
  destruct (ascii_dec d c) as [->|Hne].
  - rewrite Ascii.eqb_refl. by destruct s.
  - symmetry. apply Ascii.eqb_neq. congruence.
Qed.

Lemma generate_filename_rendered elements original_name values extension :
  rendered is_separator named_separator elements original_name values extension
    (generate_filename elements original_name values extension).
Proof.
  unfold generate_filename.
  set (dv := <["prefix" := _]> _).
  set (raw := join "" (map (element_part dv) elements)).
  assert (raw = String.concat "" (map (emitted (value_of original_name values)) elements))
    as Hraw.
  { unfold raw, join. f_equal. apply map_ext. intros element.
    apply element_part_emitted. intros k. apply default_values_value_of. }
  assert ((if truthy extension && negb (startswith extension ".")
           then "." +:+ extension else extension)
          = normalized_extension extension) as ->.
  { destruct extension as [|c e]; [done|].
    rewrite startswith_char. simpl. by destruct (Ascii.eqb c "."). }
  set (body := strip_chars "-_ " (collapse_separators raw)).
  assert ((if negb (truthy body)
           then if truthy original_name then original_name else "unnamed"
           else body)
          = fallback original_name body) as ->.
  { by destruct body, original_name. }
  apply (rendered_intro _ _ _ _ _ _ (collapse_separators raw) body).
  - rewrite <- Hraw. apply collapse_separators_collapsed.
  - apply (trimmed_ext (fun c => contains_char c "-_ ")); [apply strip_chars_named|].
    apply strip_by_trimmed.
Qed.

Lemma rendered_unique sep trim elements original_name values extension out1 out2 :
  rendered sep trim elements original_name values extension out1 →
  rendered sep trim elements original_name values extension out2 →
  out1 = out2.
Proof.
  intros [c1 b1 Hc1 Hb1] [c2 b2 Hc2 Hb2].
  rewrite (collapsed_unique sep _ _ _ Hc1 Hc2) in Hb1.
  by rewrite (trimmed_unique trim _ _ _ Hb1 Hb2).
Qed.

Lemma is_separator_named_or_space (c : ascii) :
  is_separator c = named_separator c || isspace c.
Proof.
  unfold is_separator, named_separator.
  destruct (Ascii.eqb c "-"), (Ascii.eqb c "_"); try done. simpl.
  destruct (Ascii.eqb_spec c " ") as [->|_]; done.
Qed.

(** C4, as amended. The rendering concatenates what the tokens emit, in
    order (a literal its text, a placeholder its value, nothing when that
    is empty), replaces every maximal run of characters of the class
    [-_\s] (the separators - and _ and every whitespace character, space
    among them) by the first character of the run, trims - _ and space at
    both ends, falls back to the original base name or to unnamed when
    nothing is left, and appends the extension with its leading dot.  The
    output is the only string of that description, and the default tokens
    with IMG, photo, edited, 001, 2024-01-15 and .jpg give
    IMGphotoedited0012024-01-15.jpg. *)
Theorem generate_filename_renders
  (elements : list PatternElement) (original_name : string)
  (values : gmap string string) (extension : string) :
  rendered is_separator named_separator elements original_name values extension
    (generate_filename elements original_name values extension)
  ∧ (∀ out,
       rendered is_separator named_separator elements original_name values extension out →
       out = generate_filename elements original_name values extension)
  ∧ (∀ c, is_separator c = named_separator c || isspace c)
  ∧ generate_filename default_elements "photo" Examples.sample_values ".jpg"
    = "IMGphotoedited0012024-01-15.jpg".
Proof.
  split; [|split; [|split]].
  - apply generate_filename_rendered.
  - intros out Hout. eapply rendered_unique; [done|].
    apply generate_filename_rendered.
  - apply is_separator_named_or_space.
  - vm_compute. reflexivity.
Qed.

(** C4 as stated fails on a value with two tabs in a row: with - _ and
    space as the only separators the rendering keeps both tabs, the code
    returns the value with one, which is no rendering in that sense. *)
Lemma generate_filename_collapses_tabs :
  rendered named_separator named_separator Examples.prefix_only "n"
    Examples.tabbed_values ""
    ("a" +:+ Examples.tab +:+ Examples.tab +:+ "b")
  ∧ generate_filename Examples.prefix_only "n" Examples.tabbed_values ""
    = "a" +:+ Examples.tab +:+ "b"
  ∧ ¬ rendered named_separator named_separator Examples.prefix_only "n"
        Examples.tabbed_values ""
        (generate_filename Examples.prefix_only "n" Examples.tabbed_values "").
Proof.
  assert (rendered named_separator named_separator Examples.prefix_only "n"
            Examples.tabbed_values ""
            ("a" +:+ Examples.tab +:+ Examples.tab +:+ "b")) as Hkept.
  { set (out := "a" +:+ Examples.tab +:+ Examples.tab +:+ "b").
    change (rendered named_separator named_separator Examples.prefix_only "n"
              Examples.tabbed_values "" (fallback "n" out +:+ normalized_extension "")).
    apply (rendered_intro _ _ _ _ _ _ out out).
    - change (collapsed named_separator out out).
      repeat (apply collapsed_char; [reflexivity|]). apply collapsed_end.
    - exists "", "". repeat apply conj; reflexivity. }
  split; [done|]. split; [vm_compute; reflexivity|].
  intros Hcode. pose proof (rendered_unique _ _ _ _ _ _ _ _ Hcode Hkept) as Heq.
  vm_compute in Heq. discriminate Heq.
Qed.

(** C3, as amended. configure_operation stores every parameter it is given
    before it validates anything, and touches neither the file list nor
    the undo stack; what it returns is the validation of the stored
    operation, a list of messages with the flag telling whether the list
    is empty; the stored pattern is left alone unless pattern mode comes
    with a non-empty element list.  Nothing in execute_rename looks at the
    flag: after the invalid configuration of the example the file is
    renamed all the same. *)
Theorem configure_operation_stores_then_validates
  (h : OS.Host) (r : BulkRenamer) (c : Config) :
  (prefix (operation (configure_operation h r c).1) = cfg_prefix c
   ∧ suffix (operation (configure_operation h r c).1) = cfg_suffix c
   ∧ add_numbers (operation (configure_operation h r c).1) = cfg_add_numbers c
   ∧ start_number (operation (configure_operation h r c).1) = cfg_start_number c
   ∧ padding (operation (configure_operation h r c).1) = cfg_padding c
   ∧ find_text (operation (configure_operation h r c).1) = cfg_find_text c
   ∧ replace_text (operation (configure_operation h r c).1) = cfg_replace_text c
   ∧ case_sensitive (operation (configure_operation h r c).1) = cfg_case_sensitive c
   ∧ add_date (operation (configure_operation h r c).1) = cfg_add_date c
   ∧ date_type (operation (configure_operation h r c).1) = cfg_date_type c
   ∧ date_format (operation (configure_operation h r c).1) = cfg_date_format c
   ∧ use_pattern (operation (configure_operation h r c).1) = cfg_use_pattern c)
  ∧ file_manager (configure_operation h r c).1 = file_manager r
  ∧ undo_stack (configure_operation h r c).1 = undo_stack r
  ∧ (configure_operation h r c).2 = validate h (operation (configure_operation h r c).1)
  ∧ ((configure_operation h r c).2.1 = true ↔ (configure_operation h r c).2.2 = [])
  ∧ (cfg_use_pattern c = false ∨ cfg_pattern_elements c = None
     ∨ cfg_pattern_elements c = Some [] →
     pattern_builder (operation (configure_operation h r c).1)
     = pattern_builder (operation r))
  ∧ (configure_operation Examples.plain_host Examples.renamer_a Examples.config_invalid).2.1
    = false
  ∧ (execute_rename Examples.plain_host Examples.disk_a
       (configure_operation Examples.plain_host Examples.renamer_a
          Examples.config_invalid).1).2
    = (true, [], 1).
Proof.
  split; [repeat apply conj; reflexivity|].
  split; [reflexivity|]. split; [reflexivity|]. split; [reflexivity|].
  split; [|split; [|split]].
  - unfold configure_operation, validate. simpl.
    rewrite bool_decide_eq_true. apply length_zero_iff_nil.
  - unfold configure_operation. simpl.
    intros [->|[->| ->]]; [done| |]; by destruct (cfg_use_pattern c).
  - vm_compute. reflexivity.
  - vm_compute. reflexivity.
Qed.

(** C3 as stated fails: the configuration of the example is invalid, and
    yet the stored prefix and pattern have changed, the one error says
    nothing of the unknown placeholder, and execute_rename renames the
    file. *)
Lemma invalid_configuration_is_applied :
  (configure_operation Examples.plain_host Examples.renamer_a Examples.config_invalid).2
  = (false, ["Padding: Value must be at least 1"])
  ∧ prefix (operation Examples.renamer_a) = ""
  ∧ prefix (operation
              (configure_operation Examples.plain_host Examples.renamer_a
                 Examples.config_invalid).1) = "x"
  ∧ get_pattern_list (pattern_builder (operation Examples.renamer_a))
    = ["{prefix}"; "{name}"; "{suffix}"; "{num}"; "{date}"]
  ∧ get_pattern_list
      (pattern_builder
         (operation
            (configure_operation Examples.plain_host Examples.renamer_a
               Examples.config_invalid).1))
    = ["{prefix}"; "{name}"]
  ∧ (execute_rename Examples.plain_host Examples.disk_a
       (configure_operation Examples.plain_host Examples.renamer_a
          Examples.config_invalid).1).2
    = (true, [], 1)
  ∧ (execute_rename Examples.plain_host Examples.disk_a
       (configure_operation Examples.plain_host Examples.renamer_a
          Examples.config_invalid).1).1.1
    = <["/d" := OS.Directory]> (<["/d/xa.jpg" := OS.RegularFile 1]> ∅).
Proof. repeat apply conj; vm_compute; reflexivity. Qed.

(** ** Undo after execute *)

(** Replaying a batch whose first components are all gone from the disk
    renames nothing and reports each of them as not found. *)
Lemma undo_each_not_found (fs : OS.FS) (pairs : list (string * string)) :
  Forall (fun pair => OS.path_exists fs pair.1 = false) pairs →
  undo_each fs pairs = (fs, map (fun pair => "File not found: " +:+ pair.1) pairs).
Proof.
  induction 1 as [|[new_path old_path] pairs Hgone _ IH]; [done|].
  simpl in *. by rewrite Hgone, IH.
Qed.

(** C1, on the code. execute_rename records each success as
    (old_path, new_path); undo_last_rename unpacks the pairs as
    (new_path, old_path), so it looks for the old path, which the rename
    has just removed: a batch whose first components are gone from the
    disk is replayed without a single rename.  On a disk with /d/a.jpg
    renamed to /d/xa.jpg, undo reports File not found: /d/a.jpg and the
    file stays at /d/xa.jpg; only the count of batches is back to what it
    was. *)
Theorem undo_after_execute_restores_nothing :
  (∀ (fs : OS.FS) (pairs : list (string * string)),
     Forall (fun pair => OS.path_exists fs pair.1 = false) pairs →
     undo_each fs pairs
     = (fs, map (fun pair => "File not found: " +:+ pair.1) pairs))
  ∧ (let configured :=
       (configure_operation Examples.plain_host Examples.renamer_a Examples.config_x).1 in
     let executed := execute_rename Examples.plain_host Examples.disk_a configured in
     let undone := undo_last_rename executed.1.1 executed.1.2 in
     executed.2 = (true, [], 1)
     ∧ undo_stack executed.1.2 = [[("/d/a.jpg", "/d/xa.jpg")]]
     ∧ undone.2 = (false, Some "File not found: /d/a.jpg")
     ∧ undone.1.1 !! "/d/a.jpg" = None
     ∧ undone.1.1 !! "/d/xa.jpg" = Some (OS.RegularFile 1)
     ∧ undo_operations_available undone.1.2 = undo_operations_available configured).
Proof.
  split; [apply undo_each_not_found|].
  repeat apply conj; vm_compute; reflexivity.
Qed.

(** ** The standard pipeline *)

(** C2, on the code. apply_prefix_suffix starts from the original name,
    not from the pending one: what find/replace staged is overwritten.
    With img replaced by photo and the prefix x, img_001.jpg is previewed
    as ximg_001.jpg. *)
Theorem prefix_suffix_discards_replacement
  (fl : list FileItem) (find_text replace_text : string) (case_sensitive : bool)
  (prefix suffix : string) :
  apply_prefix_suffix
    (apply_text_replacement fl find_text replace_text case_sensitive) prefix suffix
  = apply_prefix_suffix fl prefix suffix
  ∧ (preview_changes Examples.plain_host
       (configure_operation Examples.plain_host Examples.renamer_img
          Examples.config_replace).1).2
    = [("img_001.jpg", "ximg_001.jpg")]
  ∧ replace "img_001" "img" "photo" = "photo_001".
Proof.
  split; [|split; vm_compute; reflexivity].
  unfold apply_text_replacement, apply_prefix_suffix.
  destruct (negb (truthy find_text)); [done|].
  rewrite map_map. by apply map_ext.
Qed.


(** * Further properties of the code *)

(** ** Previews *)

Lemma reset_changes_idempotent (fl : list FileItem) :
  reset_changes (reset_changes fl) = reset_changes fl.
Proof. unfold reset_changes. rewrite map_map. by apply map_ext. Qed.

Lemma reset_changes_map (g : FileItem → FileItem) (fl : list FileItem) :
  (∀ f, set_new_name (g f) "" = set_new_name f "") →
  reset_changes (map g fl) = reset_changes fl.
Proof. intros Hg. unfold reset_changes. rewrite map_map. by apply map_ext. Qed.

Lemma reset_changes_imap (g : nat → FileItem → FileItem) (fl : list FileItem) :
  (∀ i f, set_new_name (g i f) "" = set_new_name f "") →
  reset_changes (imap g fl) = reset_changes fl.
Proof.
  intros Hg. unfold reset_changes.
  change (map ?f ?l) with (f <$> l). rewrite fmap_imap.
  rewrite <- (imap_const (fun f => set_new_name f "")).
  apply imap_ext. intros i f _. apply Hg.
Qed.

(** Each stage writes the pending names and nothing else. *)
Lemma reset_changes_apply_text_replacement fl find_text replace_text case_sensitive :
  reset_changes (apply_text_replacement fl find_text replace_text case_sensitive)
  = reset_changes fl.
Proof.
  unfold apply_text_replacement. destruct (negb _); [done|].
  by apply reset_changes_map.
Qed.

Lemma reset_changes_apply_prefix_suffix fl prefix suffix :
  reset_changes (apply_prefix_suffix fl prefix suffix) = reset_changes fl.
Proof. by apply reset_changes_map. Qed.

Lemma reset_changes_apply_sequential_numbering fl start_number padding :
  reset_changes (apply_sequential_numbering fl start_number padding) = reset_changes fl.
Proof. by apply reset_changes_imap. Qed.

Lemma reset_changes_apply_date_addition h fl date_type date_format :
  reset_changes (apply_date_addition h fl date_type date_format) = reset_changes fl.
Proof.
  apply reset_changes_map. intros f.
  destruct (DateUtils.get_date_by_type _ _ _ _) as [d|]; [|done].
  by destruct (truthy d).
Qed.

Lemma reset_changes_apply_pattern fl generator :
  reset_changes (apply_pattern fl generator) = reset_changes fl.
Proof. by apply reset_changes_imap. Qed.

Ltac reset_stages :=
  repeat first
    [ rewrite reset_changes_apply_date_addition
    | rewrite reset_changes_apply_sequential_numbering
    | rewrite reset_changes_apply_prefix_suffix
    | rewrite reset_changes_apply_text_replacement
    | rewrite reset_changes_apply_pattern ].

(** Whatever the operation stages, it stages it in the pending names
    only. *)
Lemma reset_changes_apply_operation h op (fl : list FileItem) :
  reset_changes (_apply_operation h op fl) = reset_changes fl.
Proof.
  unfold _apply_operation, _apply_pattern_operation, _apply_standard_operations.
  destruct (use_pattern op), (add_date op), (add_numbers op),
    (truthy (prefix op) || truthy (suffix op)), (truthy (find_text op));
    by reset_stages.
Qed.

(** X1. A preview starts from a clean slate: asking for it a second time,
    with the same configuration and the same dates, gives the same pairs
    and leaves the same pending names. *)
Theorem preview_changes_idempotent (h : OS.Host) (r : BulkRenamer) :
  preview_changes h (preview_changes h r).1 = preview_changes h r.
Proof.
  unfold preview_changes. cbn [fst with_file_list file_manager operation with_files files].
  by rewrite reset_changes_apply_operation, reset_changes_idempotent.
Qed.

(** ** Executing with nothing to do *)

Import Orchestrator.

Lemma pending_reset_changes (fl : list FileItem) : pending (reset_changes fl) = [].
Proof.
  induction fl as [|f fl IH]; [done|].
  unfold reset_changes in *. cbn [map]. by rewrite pending_cons.
Qed.

Lemma validate_changes_nothing_pending (fs : OS.FS) (fl : list FileItem) :
  pending fl = [] → FileManager.validate_changes fs fl = [].
Proof.
  intros Hp. rewrite validate_changes_validation_errors.
  unfold validation_errors. by rewrite Hp.
Qed.

Lemma rename_each_nothing_pending (fs : OS.FS) (fl : list FileItem) :
  pending fl = [] → rename_each fs fl = (fs, fl, ([], [])).
Proof.
  induction fl as [|f fl IH]; [done|].
  rewrite pending_cons. cbn [rename_each].
  destruct (truthy (new_name f)); [done|]. intros Hp. cbn [negb].
  by rewrite (IH Hp).
Qed.

Lemma apply_operation_unconfigured h (r : BulkRenamer) (fl : list FileItem) :
  _is_operation_configured r = false → _apply_operation h (operation r) fl = fl.
Proof.
  unfold _is_operation_configured, _apply_operation, _apply_standard_operations.
  destruct (use_pattern (operation r)); [by rewrite !orb_true_r|].
  destruct (add_date (operation r)); [by rewrite !orb_true_r|].
  destruct (truthy (find_text (operation r))); [by rewrite !orb_true_r|].
  destruct (add_numbers (operation r)); [by rewrite !orb_true_r|].
  by destruct (truthy (prefix (operation r))), (truthy (suffix (operation r))).
Qed.

(** X2. With nothing configured (no prefix, suffix, numbering, find text,
    date or pattern), execute_rename clears the pending names, touches
    neither the disk nor the undo stack and reports success with no file
    renamed. *)
Theorem execute_rename_unconfigured (h : OS.Host) (fs : OS.FS) (r : BulkRenamer) :
  _is_operation_configured r = false →
  execute_rename h fs r
  = (fs, with_file_list r (reset_changes (files (file_manager r))), (true, [], 0)).
Proof.
  intros Hcfg. unfold execute_rename, preview_changes, validate_changes.
  cbn [fst with_file_list file_manager operation with_files files].
  rewrite (apply_operation_unconfigured h r _ Hcfg).
  rewrite (validate_changes_nothing_pending fs _ (pending_reset_changes _)).
  unfold FileManager.execute_rename.
  rewrite (validate_changes_nothing_pending fs _ (pending_reset_changes _)).
  by rewrite (rename_each_nothing_pending fs _ (pending_reset_changes _)).
Qed.

(** A fresh orchestrator over /d/a.jpg has nothing configured. *)
Lemma execute_rename_unconfigured_fresh :
  execute_rename Examples.plain_host Examples.disk_a Examples.renamer_a
  = (Examples.disk_a,
     with_file_list Examples.renamer_a
       (reset_changes (files (file_manager Examples.renamer_a))),
     (true, [], 0)).
Proof.
  apply (execute_rename_unconfigured Examples.plain_host Examples.disk_a Examples.renamer_a).
  reflexivity.
Defined.

(** ** What execution does to the disk *)




(** safe_rename moves one entry or none. *)
Lemma safe_rename_keeps_files (fs : OS.FS) old_path new_path p i :
  fs !! p = Some (OS.RegularFile i) →
  ∃ p', (FileUtils.safe_rename fs old_path new_path).1 !! p' = Some (OS.RegularFile i).
Proof.
  intros Hp. unfold FileUtils.safe_rename.
  destruct (OS.path_exists fs new_path) eqn:Hnew; [by exists p|].
  assert (fs !! new_path = None) as Hnone.
  { unfold OS.path_exists in Hnew. by destruct (fs !! new_path). }
  destruct (negb _); [by exists p|].
  assert (∀ fs1, OS.makedirs fs (PosixPath.dirname new_path) = OS.Done fs1 →
                 fs1 !! p = Some (OS.RegularFile i) ∧
                 (fs1 !! new_path = None ∨ fs1 !! new_path = Some OS.Directory)) as Hmk.
  { intros fs1. unfold OS.makedirs.
    destruct (PosixPath.dirname new_path) as [|c d] eqn:Hd; [done|].
    destruct (fs !! String c d) as [[|]|] eqn:Hdir; try done.
    - intros [= <-]. split; [done|by left].
    - intros [= <-]. split.
      + rewrite lookup_insert_ne; [done|]. intros Heq. by rewrite Heq, Hp in Hdir.
      + destruct (decide (String c d = new_path)) as [->|Hne].
        * right. by rewrite lookup_insert_eq.
        * left. by rewrite lookup_insert_ne. }
  destruct (OS.makedirs fs _) as [fs1|msg]; [|by exists p].
  destruct (Hmk fs1 eq_refl) as [Hp1 Hnew1]. unfold OS.rename.
  destruct (fs1 !! old_path) as [[j|]|] eqn:Hold; try by exists p.
  destruct Hnew1 as [Hnew1|Hnew1]; rewrite Hnew1; [|by exists p]. simpl.
  destruct (decide (p = old_path)) as [->|Hne].
  - exists new_path. rewrite lookup_insert_eq. congruence.
  - exists p. rewrite lookup_insert_ne, lookup_delete_ne; [done|done|].
    intros Heq. by rewrite Heq, Hp1 in Hnew1.
Qed.

Lemma rename_each_keeps_files (fl : list FileItem) :
  ∀ (fs : OS.FS) p i,
    fs !! p = Some (OS.RegularFile i) →
    ∃ p', (rename_each fs fl).1.1 !! p' = Some (OS.RegularFile i).
Proof.
  induction fl as [|g fl IH]; intros fs p i Hp; [by exists p|].
  cbn [rename_each]. destruct (truthy (new_name g)); cbn [negb].
  - destruct (safe_rename_keeps_files fs (original_path g) (new_path g) p i Hp)
      as [p1 Hp1].
    destruct (FileUtils.safe_rename fs (original_path g) (new_path g))
      as [fs1 [success error_msg]].
    simpl in Hp1. destruct (IH fs1 p1 i Hp1) as [p' Hp'].
    destruct (rename_each fs1 fl) as [[fs' rest'] [successful errors]].
    exists p'. by destruct success.
  - destruct (IH fs p i Hp) as [p' Hp'].
    destruct (rename_each fs fl) as [[fs' rest'] [successful errors]].
    by exists p'.
Qed.

(** X4. Execution loses no file: the content of every regular file of the
    disk is still on the disk afterwards, under its old path or a new
    one. *)
Theorem execute_rename_keeps_every_file
  (fs : OS.FS) (fl : list FileItem) (p : string) (i : nat) :
  fs !! p = Some (OS.RegularFile i) →
  ∃ p', (FileManager.execute_rename fs fl).1.1 !! p' = Some (OS.RegularFile i).
Proof.
  intros Hp. unfold FileManager.execute_rename.
  destruct (FileManager.validate_changes fs fl); [|by exists p].
  by apply (rename_each_keeps_files fl fs p i).
Qed.

(** The first file of the batch of three is still there, renamed. *)
Lemma execute_rename_keeps_aq :
  ∃ p', (FileManager.execute_rename Examples.disk_abc Examples.batch_abc).1.1 !! p'
        = Some (OS.RegularFile 1).
Proof.
  apply (execute_rename_keeps_every_file Examples.disk_abc Examples.batch_abc "/d/aq.jpg").
  reflexivity.
Defined.

(** ** What a clean validation guarantees *)

Lemma concat_nil_lookup {A} (ls : list (list A)) i l :
  concat ls = [] → ls !! i = Some l → l = [].
Proof.
  revert i. induction ls as [|l0 ls IH]; intros i Hnil Hi; [done|].
  simpl in Hnil. apply app_eq_nil in Hnil as [H0 Hrest].
  destruct i as [|i]; simpl in Hi; [congruence|]. by apply (IH i).
Qed.

Lemma validation_errors_nil_lookup (fs : OS.FS) (fl : list FileItem) j f :
  validation_errors fs fl = [] → pending fl !! j = Some f →
  duplicate_errors (take j (pending fl)) f = [] ∧ target_errors fs f = [].
Proof.
  unfold validation_errors. intros Hnil Hj.
  apply app_eq_nil.
  apply (concat_nil_lookup _ j _ Hnil).
  by rewrite list_lookup_imap, Hj.
Qed.

(** X5. When validation reports nothing, the pending files propose
    pairwise different final names, and a proposed path that exists on
    disk is the proposing file's own. *)
Theorem validate_changes_clean_guarantees (fs : OS.FS) (fl : list FileItem) :
  FileManager.validate_changes fs fl = [] →
  NoDup (map full_name (pending fl))
  ∧ ∀ f, f ∈ pending fl → OS.path_exists fs (new_path f) = true →
         new_path f = original_path f.
Proof.
  rewrite validate_changes_validation_errors. intros Hnil. split.
  - apply NoDup_alt. intros i j n Hi Hj.
    assert (∀ i j, i < j → map full_name (pending fl) !! i = Some n →
                   map full_name (pending fl) !! j = Some n → False) as Hlt.
    { clear i j Hi Hj. intros i j Hij Hi Hj.
      change (map ?f ?l) with (f <$> l) in Hi, Hj.
      apply list_lookup_fmap_Some in Hi as (fi & Hni & Hfi).
      apply list_lookup_fmap_Some in Hj as (fj & Hnj & Hfj).
      destruct (validation_errors_nil_lookup fs fl j fj Hnil Hfj) as [Hdup _].
      unfold duplicate_errors in Hdup.
      rewrite bool_decide_eq_true_2 in Hdup; [done|].
      rewrite <- Hnj. subst n. change (map ?f ?l) with (f <$> l).
      apply list_elem_of_fmap. exists fi. split; [done|].
      apply list_elem_of_lookup. exists i. by rewrite lookup_take_lt. }
    destruct (Nat.lt_trichotomy i j) as [Hij|[Hij|Hij]]; [|done|].
    + by destruct (Hlt i j Hij Hi Hj).
    + by destruct (Hlt j i Hij Hj Hi).
  - intros f Hin Hex. apply list_elem_of_lookup in Hin as [j Hj].
    destruct (validation_errors_nil_lookup fs fl j f Hnil Hj) as [_ Htgt].
    unfold target_errors in Htgt. case_bool_decide as Hc; [done|].
    destruct (decide (new_path f = original_path f)) as [|Hne]; [done|].
    by destruct Hc.
Qed.

(** The batch of three validates clean on its disk. *)
Lemma validate_changes_clean_batch :
  NoDup (map full_name (pending Examples.batch_abc))
  ∧ ∀ f, f ∈ pending Examples.batch_abc →
         OS.path_exists Examples.disk_abc (new_path f) = true →
         new_path f = original_path f.
Proof.
  apply (validate_changes_clean_guarantees Examples.disk_abc Examples.batch_abc).
  vm_compute. reflexivity.
Defined.

(** ** What execute_rename reports *)

Lemma last_push_undo (st : list (list (string * string))) batch :
  last (push_undo st batch) = Some batch.
Proof.
  unfold push_undo. destruct (10 <? length (st ++ [batch])) eqn:Hfull.
  - destruct st as [|oldest st]; [done|]. simpl. apply last_snoc.
  - apply last_snoc.
Qed.

Lemma push_undo_nonempty (st : list (list (string * string))) batch :
  0 < length (push_undo st batch).
Proof.
  pose proof (last_push_undo st batch) as Hlast.
  destruct (push_undo st batch); [done|]. simpl. lia.
Qed.

(** X6. The three results of execute_rename agree with each other and
    with the undo stack: the success flag holds exactly when there is no
    error; with no file renamed the stack is as it was; with n > 0 files
    renamed undo is available and the batch on top of the stack has n
    pairs. *)
Theorem execute_rename_report (h : OS.Host) (fs : OS.FS) (r : BulkRenamer) :
  ((execute_rename h fs r).2.1.1 = true ↔ (execute_rename h fs r).2.1.2 = [])
  ∧ ((execute_rename h fs r).2.2 = 0 →
     undo_stack (execute_rename h fs r).1.2 = undo_stack r)
  ∧ (0 < (execute_rename h fs r).2.2 →
     can_undo (execute_rename h fs r).1.2 = true
     ∧ ∃ batch, last (undo_stack (execute_rename h fs r).1.2) = Some batch
                ∧ length batch = (execute_rename h fs r).2.2).
Proof.
  unfold execute_rename.
  destruct (validate_changes fs _) as [|e errors].
  - destruct (FileManager.execute_rename fs _) as [[fs' fl] [successful errors]].
    destruct successful as [|pair successful]; cbn [fst snd length].
    + split; [|split; [done|lia]].
      rewrite bool_decide_eq_true. apply length_zero_iff_nil.
    + split; [|split; [done|]].
      * rewrite bool_decide_eq_true. apply length_zero_iff_nil.
      * intros _. split.
        -- unfold can_undo. apply Nat.ltb_lt. apply push_undo_nonempty.
        -- exists (pair :: successful). split; [|done]. apply last_push_undo.
  - cbn [fst snd]. split; [done|]. split; [done|lia].
Qed.

(** ** File entities *)

Lemma rpartition_tail (c : ascii) (s h t : string) :
  PosixPath.rpartition c s = Some (h, t) → contains_char c t = false.
Proof.
  revert h t. induction s as [|d s IH]; intros h t; [done|]. simpl.
  destruct (PosixPath.rpartition c s) as [[h' t']|] eqn:Hs.
  - intros [= <- <-]. by apply (IH h').
  - destruct (Ascii.eqb_spec d c) as [->|_]; [|done]. intros [= <- <-].
    clear IH. induction s as [|d s IH]; [done|]. simpl in *.
    destruct (PosixPath.rpartition c s) as [[h' t']|]; [done|].
    destruct (Ascii.eqb_spec d c) as [->|Hne]; [done|].
    rewrite IH by done. simpl. rewrite orb_false_r.
    apply Ascii.eqb_neq. congruence.
Qed.

Lemma splitext_name_extension (n : string) :
  (PosixPath.splitext_name n).2 = ""
  ∨ ∃ t, (PosixPath.splitext_name n).2 = String "." t ∧ contains_char "." t = false.
Proof.
  unfold PosixPath.splitext_name.
  destruct (PosixPath.rpartition "." n) as [[h t]|] eqn:Hn; [|by left].
  destruct (any_char _ h); [|by left].
  right. exists t. split; [done|]. by apply (rpartition_tail _ n h).
Qed.

Lemma splitext_extension (p : string) :
  (PosixPath.splitext p).2 = ""
  ∨ ∃ t, (PosixPath.splitext p).2 = String "." t ∧ contains_char "." t = false.
Proof.
  unfold PosixPath.splitext.
  destruct (PosixPath.rpartition PosixPath.sep p) as [[h t]|]; [|apply splitext_name_extension].
  pose proof (splitext_name_extension t) as Ht.
  by destruct (PosixPath.splitext_name t) as [root ext].
Qed.

(** X7. A file entity built from a path splits the last component of the
    path without losing anything: name and extension put together are
    that component, the directory is the path's, the extension is empty
    or a dot followed by text without dots, nothing is pending, the
    proposed path is the path itself and the preview shows the component
    unchanged. *)
Theorem FileItem_init_splits_path (path original_name_ : string) :
  original_name (FileItem_init path original_name_)
  +:+ extension (FileItem_init path original_name_)
  = PosixPath.basename path
  ∧ directory (FileItem_init path original_name_) = PosixPath.dirname path
  ∧ (extension (FileItem_init path original_name_) = ""
     ∨ ∃ t, extension (FileItem_init path original_name_) = String "." t
            ∧ contains_char "." t = false)
  ∧ new_name (FileItem_init path original_name_) = ""
  ∧ new_path (FileItem_init path original_name_) = path
  ∧ FileManager.preview_changes [FileItem_init path original_name_]
    = [(PosixPath.basename path, PosixPath.basename path)].
Proof.
  unfold FileItem_init, new_path, FileManager.preview_changes.
  pose proof (splitext_join (PosixPath.basename path)) as Hjoin.
  pose proof (splitext_extension (PosixPath.basename path)) as Hext.
  destruct (PosixPath.splitext (PosixPath.basename path)) as [name ext].
  simpl in *. rewrite Hjoin. by repeat apply conj.
Qed.

(** ** Numbers as text *)

From Stdlib Require DecimalPos DecimalZ.

Lemma lstrip_by_id (P : ascii → bool) (s : string) :
  starts_in P s = false → lstrip_by P s = s.
Proof. destruct s as [|c s]; [done|]. simpl. by intros ->. Qed.

Lemma rstrip_by_id (P : ascii → bool) (s : string) :
  ends_in P s = false → rstrip_by P s = s.
Proof.
  induction s as [|c s IH]; [done|]. intros Hend.
  destruct s as [|d s]; [simpl in *; by rewrite Hend|].
  assert (ends_in P (String d s) = false) as Htail by done.
  specialize (IH Htail). remember (String d s) as t eqn:Ht.
  simpl. rewrite IH. by subst t.
Qed.

Lemma strip_by_id (P : ascii → bool) (s : string) :
  starts_in P s = false → ends_in P s = false → strip_by P s = s.
Proof.
  intros Hs He. unfold strip_by. by rewrite lstrip_by_id, rstrip_by_id.
Qed.

Ltac each_digit d :=
  destruct d as [|d|d|d|d|d|d|d|d|d|d].

Lemma uint_string_ends (d : Decimal.uint) :
  ends_in isspace (NilEmpty.string_of_uint d) = false.
Proof.
  induction d as [|d IH|d IH|d IH|d IH|d IH|d IH|d IH|d IH|d IH|d IH];
    [done|..]; simpl; by destruct (NilEmpty.string_of_uint d).
Qed.

Lemma uint_string_starts (d : Decimal.uint) :
  starts_in isspace (NilEmpty.string_of_uint d) = false.
Proof. by each_digit d. Qed.

(** The value of a digit string whose first digit weighs the most. *)
Lemma of_uint_cons (d : Decimal.uint) (k : N) (dk : Decimal.uint → Decimal.uint) :
  (∀ d', Decimal.revapp (dk d) d' = Decimal.revapp d (dk d')) →
  DecimalPos.Unsigned.of_lu (dk Decimal.Nil) = k →
  Pos.of_uint (dk d) = (k * 10 ^ DecimalPos.Unsigned.usize d + Pos.of_uint d)%N.
Proof.
  intros Hrev Hk. rewrite !DecimalPos.Unsigned.of_uint_alt. unfold Decimal.rev.
  rewrite Hrev, DecimalPos.Unsigned.of_lu_revapp, Hk. unfold Decimal.rev. lia.
Qed.

Lemma digits_from_uint (d : Decimal.uint) :
  ∀ acc : Z,
    digits_from acc (NilEmpty.string_of_uint d)
    = Some (acc * 10 ^ Z.of_N (DecimalPos.Unsigned.usize d) + Z.of_N (Pos.of_uint d))%Z.
Proof.
  induction d as [|d IH|d IH|d IH|d IH|d IH|d IH|d IH|d IH|d IH|d IH]; intros acc.
  { simpl. f_equal. lia. }
  all: cbn [NilEmpty.string_of_uint digits_from];
    match goal with
    | |- context [digit ?c] =>
        let v := eval vm_compute in (digit c) in change (digit c) with v
    end;
    cbv beta iota; rewrite IH;
    cbn [DecimalPos.Unsigned.usize]; rewrite N2Z.inj_succ, Z.pow_succ_r by lia.
  - rewrite (of_uint_cons d 0 Decimal.D0) by done. f_equal. lia.
  - rewrite (of_uint_cons d 1 Decimal.D1) by done. f_equal. rewrite N2Z.inj_add, N2Z.inj_mul, N2Z.inj_pow. lia.
  - rewrite (of_uint_cons d 2 Decimal.D2) by done. f_equal. rewrite N2Z.inj_add, N2Z.inj_mul, N2Z.inj_pow. lia.
  - rewrite (of_uint_cons d 3 Decimal.D3) by done. f_equal. rewrite N2Z.inj_add, N2Z.inj_mul, N2Z.inj_pow. lia.
  - rewrite (of_uint_cons d 4 Decimal.D4) by done. f_equal. rewrite N2Z.inj_add, N2Z.inj_mul, N2Z.inj_pow. lia.
  - rewrite (of_uint_cons d 5 Decimal.D5) by done. f_equal. rewrite N2Z.inj_add, N2Z.inj_mul, N2Z.inj_pow. lia.
  - rewrite (of_uint_cons d 6 Decimal.D6) by done. f_equal. rewrite N2Z.inj_add, N2Z.inj_mul, N2Z.inj_pow. lia.
  - rewrite (of_uint_cons d 7 Decimal.D7) by done. f_equal. rewrite N2Z.inj_add, N2Z.inj_mul, N2Z.inj_pow. lia.
  - rewrite (of_uint_cons d 8 Decimal.D8) by done. f_equal. rewrite N2Z.inj_add, N2Z.inj_mul, N2Z.inj_pow. lia.
  - rewrite (of_uint_cons d 9 Decimal.D9) by done. f_equal. rewrite N2Z.inj_add, N2Z.inj_mul, N2Z.inj_pow. lia.
Qed.

Lemma int_space_isspace (c : ascii) : int_space c = true → isspace c = true.
Proof. unfold int_space. by intros [? _]%andb_true_iff. Qed.

Lemma starts_in_weaken (P Q : ascii → bool) (s : string) :
  (∀ c, Q c = true → P c = true) → starts_in P s = false → starts_in Q s = false.
Proof.
  intros HQP. destruct s as [|c s]; [done|]. simpl. intros HP.
  destruct (Q c) eqn:HQ; [|done]. by rewrite (HQP c HQ) in HP.
Qed.

Lemma ends_in_weaken (P Q : ascii → bool) (s : string) :
  (∀ c, Q c = true → P c = true) → ends_in P s = false → ends_in Q s = false.
Proof.
  intros HQP. induction s as [|c s IH]; [done|].
  destruct s as [|d s].
  - simpl. intros HP. destruct (Q c) eqn:HQ; [|done]. by rewrite (HQP c HQ) in HP.
  - intros HP. by apply IH.
Qed.

Lemma unsigned_int_digits (d : Decimal.uint) :
  d ≠ Decimal.Nil →
  unsigned_int (NilEmpty.string_of_uint d) = Some (Z.of_N (Pos.of_uint d)).
Proof.
  intros Hnil. pose proof (digits_from_uint d 0) as Hd. unfold unsigned_int.
  destruct (NilEmpty.string_of_uint d) as [|c s] eqn:Hs; [by each_digit d|].
  assert (∃ v, digit c = Some v) as [v ->].
  { each_digit d; try done; injection Hs as <- _; by eexists. }
  rewrite Hd. f_equal; lia.
Qed.

Lemma int_digits (d : Decimal.uint) :
  d ≠ Decimal.Nil →
  int (NilEmpty.string_of_uint d) = Some (Z.of_N (Pos.of_uint d)).
Proof.
  intros Hnil. pose proof (unsigned_int_digits d Hnil) as Hv. unfold int.
  rewrite strip_by_id.
  - by each_digit d.
  - apply (starts_in_weaken isspace); [apply int_space_isspace|apply uint_string_starts].
  - apply (ends_in_weaken isspace); [apply int_space_isspace|apply uint_string_ends].
Qed.

Lemma int_minus_digits (d : Decimal.uint) :
  d ≠ Decimal.Nil →
  int (String "-" (NilEmpty.string_of_uint d)) = Some (- Z.of_N (Pos.of_uint d))%Z.
Proof.
  intros Hnil. pose proof (unsigned_int_digits d Hnil) as Hv. unfold int.
  rewrite strip_by_id.
  - change (Z.opp <$> unsigned_int (NilEmpty.string_of_uint d)
            = Some (- Z.of_N (Pos.of_uint d))%Z).
    by rewrite Hv.
  - done.
  - apply (ends_in_weaken isspace); [apply int_space_isspace|].
    pose proof (uint_string_ends d) as He. cbn [ends_in]. by each_digit d.
Qed.

Lemma string_of_uint_nonnil (d : Decimal.uint) :
  d ≠ Decimal.Nil → NilZero.string_of_uint d = NilEmpty.string_of_uint d.
Proof. intros Hnil. by each_digit d. Qed.

(** int(str(n)) is n. *)
Lemma int_str (n : Z) : int (str n) = Some n.
Proof.
  unfold str. destruct n as [|p|p]; [done|..]; cbn [Z.to_int NilZero.string_of_int];
    pose proof (DecimalPos.Unsigned.to_uint_nonnil p) as Hnil;
    rewrite string_of_uint_nonnil by done.
  - rewrite int_digits by done. by rewrite DecimalPos.Unsigned.of_to.
  - rewrite int_minus_digits by done. by rewrite DecimalPos.Unsigned.of_to.
Qed.

Lemma truthy_strip_str (n : Z) : truthy (strip (str n)) = true.
Proof.
  assert (∀ d, d ≠ Decimal.Nil → truthy (strip (NilEmpty.string_of_uint d)) = true)
    as Hdigits.
  { intros d Hnil. unfold strip.
    rewrite strip_by_id by (apply uint_string_starts || apply uint_string_ends).
    by each_digit d. }
  unfold str. destruct n as [|p|p]; [done|..]; cbn [Z.to_int NilZero.string_of_int];
    pose proof (DecimalPos.Unsigned.to_uint_nonnil p) as Hnil;
    rewrite string_of_uint_nonnil by done.
  - by apply Hdigits.
  - unfold strip. rewrite strip_by_id; [done|done|].
    pose proof (uint_string_ends (Pos.to_uint p)) as He. cbn [ends_in].
    by destruct (NilEmpty.string_of_uint (Pos.to_uint p)).
Qed.

(** validate_number_input on the text of a number is a bounds check. *)
Lemma validate_number_input_str (n min_value : Z) (max_value : option Z) :
  (Validators.validate_number_input (str n) min_value max_value).1 = true
  ↔ (min_value ≤ n)%Z ∧ (∀ m, max_value = Some m → (n ≤ m)%Z).
Proof.
  unfold Validators.validate_number_input.
  rewrite truthy_strip_str, int_str. cbn [negb].
  destruct (Z.ltb_spec n min_value) as [Hlt|Hge]; cbn [fst].
  { split; [done|]. intros [? _]. lia. }
  destruct max_value as [m|].
  - destruct (Z.gtb_spec n m) as [Hgt|Hle]; cbn [fst].
    + split; [done|]. intros [_ Hm]. specialize (Hm m eq_refl). lia.
    + split; [|done]. intros _. split; [done|]. by intros ? [= <-].
  - split; [|done]. intros _. by split.
Qed.

(** ** When an operation is valid *)

Lemma report_nil (label : string) (check : bool * option string) :
  report label check = [] ↔ check.1 = true.
Proof. unfold report. by destruct (check.1). Qed.

(** X8. An operation validates clean exactly when: with numbering on,
    the start number lies in 0..999999 and the padding in 1..10; with
    dates on, the format is not empty and strftime accepts it; in pattern
    mode, the pattern is valid.  Parameters of a feature that is off are
    not looked at. *)
Theorem validate_operation_valid_iff (h : OS.Host) (op : RenameOperation) :
  (validate h op).1 = true
  ↔ (add_numbers op = true →
     (0 ≤ start_number op ≤ 999999)%Z ∧ (1 ≤ padding op ≤ 10)%Z)
    ∧ (add_date op = true →
       date_format op ≠ "" ∧ OS.strftime_error h (date_format op) = None)
    ∧ (use_pattern op = true →
       (PatternBuilder.validate_pattern (pattern_builder op)).1 = true).
Proof.
  unfold validate. cbn [fst]. rewrite bool_decide_eq_true, length_zero_iff_nil.
  rewrite !app_nil. 
  assert ((if add_numbers op
           then report "Start number: "
                  (Validators.validate_start_number_input (str (start_number op)))
                ++ report "Padding: "
                     (Validators.validate_padding_input (str (padding op)))
           else []) = []
          ↔ (add_numbers op = true →
             (0 ≤ start_number op ≤ 999999)%Z ∧ (1 ≤ padding op ≤ 10)%Z)) as ->.
  { destruct (add_numbers op); [|by split].
    rewrite app_nil, !report_nil.
    unfold Validators.validate_start_number_input, Validators.validate_padding_input.
    rewrite !validate_number_input_str. split.
    - intros [[H0 Hs] [H1 Hp]] _.
      specialize (Hs _ eq_refl). specialize (Hp _ eq_refl). lia.
    - intros Hb. specialize (Hb eq_refl).
      split; (split; [lia|]); intros m [= <-]; lia. }
  assert ((if add_date op
           then report "Date format: "
                  (Validators.validate_date_format h (date_format op))
           else []) = []
          ↔ (add_date op = true →
             date_format op ≠ "" ∧ OS.strftime_error h (date_format op) = None)) as ->.
  { destruct (add_date op); [|by split].
    rewrite report_nil. unfold Validators.validate_date_format.
    destruct (date_format op) as [|c fmt]; cbn [truthy negb fst].
    - split; [done|]. intros Hb. by destruct (Hb eq_refl).
    - destruct (OS.strftime_error h (String c fmt)); cbn [fst].
      + split; [done|]. intros Hb. by destruct (Hb eq_refl).
      + split; [|done]. by intros _ _. }
  assert ((if use_pattern op
           then report "Pattern: " (PatternBuilder.validate_pattern (pattern_builder op))
           else []) = []
          ↔ (use_pattern op = true →
             (PatternBuilder.validate_pattern (pattern_builder op)).1 = true)) as ->.
  { destruct (use_pattern op); [|by split].
    rewrite report_nil. split; [by intros ? _|]. intros Hb. by apply Hb. }
  done.
Qed.

(** ** Building a pattern from a list *)

Import Shape PatternEdit.

Lemma fill_from_accepts_prefix (pattern_list : list string) :
  ∀ i (elements : list PatternElement),
    i = length elements → positions_in_order elements → types_by_text elements →
    ∃ rest,
      get_pattern_list elements ++ pattern_list
      = get_pattern_list (fill_from i pattern_list elements).1 ++ rest
      ∧ positions_in_order (fill_from i pattern_list elements).1
      ∧ types_by_text (fill_from i pattern_list elements).1
      ∧ (Forall valid_element (get_pattern_list elements) →
         Forall valid_element (get_pattern_list (fill_from i pattern_list elements).1))
      ∧ ((fill_from i pattern_list elements).2 = true ∧ rest = []
         ∨ (fill_from i pattern_list elements).2 = false
           ∧ ∃ element rest', rest = element :: rest' ∧ ¬ valid_element element).
Proof.
  induction pattern_list as [|element pattern_list IH]; intros i elements Hi Hpos Hty.
  - exists []. simpl. repeat apply conj; try done. by left.
  - cbn [fill_from].
    destruct (Validators.validate_pattern_placeholder element).1 eqn:Hvalid; cbn [negb].
    + set (added := elements ++ [{| type := element_type_of element;
                                    value := element; position := i |}]).
      assert (S i = length added) as Hi'.
      { unfold added. rewrite length_app. simpl. lia. }
      assert (positions_in_order added) as Hpos1.
      { unfold positions_in_order, added in *.
        rewrite map_app, length_app, seq_app, Hpos. simpl. by rewrite Hi. }
      assert (types_by_text added) as Hty1.
      { unfold types_by_text, added in *. apply Forall_app. split; [done|].
        by apply Forall_singleton. }
      destruct (IH (S i) added Hi' Hpos1 Hty1)
        as (rest & Hsplit & Hpos' & Hty' & Hval' & Hflag).
      exists rest. repeat apply conj; try done.
      * rewrite <- Hsplit. unfold added, get_pattern_list.
        rewrite map_app. simpl. by rewrite <- (assoc_L (++)).
      * intros Hv. apply Hval'. unfold added, get_pattern_list.
        rewrite map_app. apply Forall_app. split; [done|].
        by apply Forall_singleton.
    + exists (element :: pattern_list). repeat apply conj; try done.
      right. split; [done|]. exists element, pattern_list. split; [done|].
      unfold valid_element. by rewrite Hvalid.
Qed.

(** X9. set_pattern_from_list forgets the old elements and accepts the
    longest prefix of the list whose elements are all valid: the stored
    texts are that prefix, in order, each element typed by its text and
    numbered by its index; the result is True when the whole list was
    accepted, and False exactly when an invalid element stopped it. *)
Theorem set_pattern_from_list_accepts_prefix
  (elements : list PatternElement) (pattern_list : list string) :
  ∃ rest,
    pattern_list = get_pattern_list (set_pattern_from_list elements pattern_list).1 ++ rest
    ∧ Forall valid_element (get_pattern_list (set_pattern_from_list elements pattern_list).1)
    ∧ positions_in_order (set_pattern_from_list elements pattern_list).1
    ∧ types_by_text (set_pattern_from_list elements pattern_list).1
    ∧ ((set_pattern_from_list elements pattern_list).2 = true ∧ rest = []
       ∨ (set_pattern_from_list elements pattern_list).2 = false
         ∧ ∃ element rest', rest = element :: rest' ∧ ¬ valid_element element).
Proof.
  unfold set_pattern_from_list.
  destruct (fill_from_accepts_prefix pattern_list 0 [] eq_refl eq_refl (Forall_nil_2 _))
    as (rest & Hsplit & Hpos & Hty & Hval & Hflag).
  exists rest. repeat apply conj; try done. by apply Hval.
Qed.

(** ** Editing a pattern *)

Lemma update_positions_in_order (elements : list PatternElement) :
  positions_in_order (_update_positions elements).
Proof.
  unfold positions_in_order, _update_positions.
  rewrite length_imap. change (map ?f ?l) with (f <$> l).
  rewrite fmap_imap. apply list_eq. intros i.
  rewrite list_lookup_imap.
  destruct (elements !! i) as [e|] eqn:Hi; simpl.
  - symmetry. apply lookup_seq. split; [done|]. by eapply lookup_lt_Some.
  - symmetry. apply lookup_ge_None. rewrite length_seq.
    by apply lookup_ge_None.
Qed.

Lemma update_positions_content (elements : list PatternElement) :
  map content (_update_positions elements) = map content elements.
Proof.
  unfold _update_positions. change (map ?f ?l) with (f <$> l).
  rewrite fmap_imap.
  transitivity (imap (const content) elements); [by apply imap_ext|apply imap_const].
Qed.

(** Elements are their content and their position. *)
Lemma elements_eq (l1 l2 : list PatternElement) :
  map content l1 = map content l2 → map position l1 = map position l2 → l1 = l2.
Proof.
  revert l2. induction l1 as [|[t1 v1 p1] l1 IH]; intros [|[t2 v2 p2] l2]; try done.
  simpl. intros [= -> -> Hc] [= -> Hp]. f_equal. by apply IH.
Qed.

Lemma update_positions_id (elements : list PatternElement) :
  positions_in_order elements → _update_positions elements = elements.
Proof.
  intros Hpos. apply elements_eq; [apply update_positions_content|].
  rewrite Hpos. pose proof (update_positions_in_order elements) as Hup.
  unfold positions_in_order in Hup. rewrite Hup. f_equal.
  unfold _update_positions. apply length_imap.
Qed.

Lemma update_positions_ext (l1 l2 : list PatternElement) :
  map content l1 = map content l2 → _update_positions l1 = _update_positions l2.
Proof.
  intros Hc. apply elements_eq.
  - by rewrite !update_positions_content.
  - pose proof (update_positions_in_order l1) as H1.
    pose proof (update_positions_in_order l2) as H2.
    unfold positions_in_order in *. rewrite H1, H2. f_equal.
    unfold _update_positions. rewrite !length_imap.
    apply (f_equal length) in Hc. by rewrite !length_map in Hc.
Qed.

Lemma list_insert_in_range {A} (i : Z) (x : A) (l : list A) :
  (0 ≤ i ≤ Z.of_nat (length l))%Z →
  list_insert i x l = take (Z.to_nat i) l ++ x :: drop (Z.to_nat i) l.
Proof.
  intros Hi. unfold list_insert.
  destruct (Z.ltb_spec i 0); [lia|]. by rewrite Z.min_l by lia.
Qed.

Lemma delete_list_insert {A} (i : Z) (x : A) (l : list A) :
  (0 ≤ i ≤ Z.of_nat (length l))%Z → delete (Z.to_nat i) (list_insert i x l) = l.
Proof.
  intros Hi. rewrite list_insert_in_range by done.
  rewrite delete_take_drop.
  rewrite take_app_length' by (rewrite length_take; lia).
  rewrite (cons_middle x), (assoc_L (++)).
  replace (S (Z.to_nat i)) with (length (take (Z.to_nat i) l ++ [x]))
    by (rewrite length_app, length_take; simpl; lia).
  rewrite drop_app_length. apply take_drop.
Qed.

(** X10. Adding a valid element at a position within the pattern and
    removing the element at that position gives the pattern back, when the
    pattern had its positions in order; the pattern in between is one
    element longer, with its positions in order too. *)
Theorem add_then_remove_element
  (elements : list PatternElement) (element : string) (position : Z) :
  valid_element element →
  positions_in_order elements →
  (0 ≤ position ≤ Z.of_nat (length elements))%Z →
  (add_element elements element (Some position)).2 = true
  ∧ length (add_element elements element (Some position)).1 = S (length elements)
  ∧ positions_in_order (add_element elements element (Some position)).1
  ∧ remove_element (add_element elements element (Some position)).1 position
    = (elements, true).
Proof.
  intros Hvalid Hpos Hrange. unfold add_element. unfold valid_element in Hvalid.
  rewrite Hvalid. cbn [negb fst snd].
  set (new := {| type := element_type_of element; value := element;
                 position := Z.to_nat position |}).
  assert (length (list_insert position new elements) = S (length elements)) as Hlen.
  { rewrite list_insert_in_range by done.
    rewrite length_app. simpl. rewrite length_take, length_drop. lia. }
  repeat apply conj; try done.
  - unfold _update_positions. by rewrite length_imap.
  - apply update_positions_in_order.
  - unfold remove_element, _update_positions at 1. rewrite length_imap, Hlen.
    destruct (Z.leb_spec 0 position); [|lia].
    destruct (Z.ltb_spec position (Z.of_nat (S (length elements)))); [|lia].
    cbn [andb]. f_equal.
    rewrite <- (update_positions_id elements Hpos) at 2.
    apply update_positions_ext.
    change (map ?f ?l) with (f <$> l). rewrite list_fmap_delete.
    change (?f <$> ?l) with (map f l). rewrite update_positions_content.
    change (map ?f ?l) with (f <$> l). rewrite <- list_fmap_delete.
    by rewrite delete_list_insert.
Qed.

(** An underscore put between {name} and {suffix} of the default pattern
    and taken out again. *)
Lemma add_then_remove_separator :
  (add_element default_elements "_" (Some 2%Z)).2 = true
  ∧ length (add_element default_elements "_" (Some 2%Z)).1 = S (length default_elements)
  ∧ positions_in_order (add_element default_elements "_" (Some 2%Z)).1
  ∧ remove_element (add_element default_elements "_" (Some 2%Z)).1 2
    = (default_elements, true).
Proof.
  apply (add_then_remove_element default_elements "_" 2).
  - vm_compute. reflexivity.
  - vm_compute. reflexivity.
  - vm_compute. split; discriminate.
Defined.

(** ** Parsing a pattern string *)

Lemma join_empty_cons (x : string) (xs : list string) :
  join "" (x :: xs) = x +:+ join "" xs.
Proof.
  unfold join. destruct xs as [|y xs]; simpl.
  - by rewrite str_app_nil_r.
  - by rewrite str_app_nil_l.
Qed.

Lemma join_empty_app (l1 l2 : list string) :
  join "" (l1 ++ l2) = join "" l1 +:+ join "" l2.
Proof.
  induction l1 as [|x l1 IH]; [by rewrite str_app_nil_l|].
  rewrite <- app_comm_cons, !join_empty_cons, IH. by rewrite str_app_assoc.
Qed.

Lemma join_flush (text : string) : join "" (flush text) = text.
Proof. by destruct text. Qed.

Lemma drop_chars_app (a b : string) : OS.drop_chars (String.length a) (a +:+ b) = b.
Proof.
  induction a as [|c a IH]; simpl.
  - rewrite str_app_nil_l. by destruct b.
  - exact IH.
Qed.

Lemma until_close_split (s run : string) :
  until_close s = Some run → ∃ rest, s = run +:+ String "}" rest.
Proof.
  revert run. induction s as [|c s IH]; intros run; [done|]. simpl.
  destruct (Ascii.eqb_spec c "}") as [->|_].
  - intros [= <-]. exists s. by rewrite str_app_nil_l.
  - destruct (until_close s) as [run'|]; [|done]. intros [= <-].
    destruct (IH run' eq_refl) as (rest & ->). exists rest.
    by rewrite str_app_cons.
Qed.

(** A match is a piece of the text, at its head, and not empty. *)
Lemma placeholder_at_split (c : ascii) (s m : string) :
  placeholder_at (String c s) = Some m →
  ∃ m' rest, m = String c m' ∧ s = m' +:+ rest.
Proof.
  simpl. destruct (Ascii.eqb c "{"); [|done].
  destruct (until_close s) as [[|d run]|] eqn:Hs; try done.
  intros [= <-]. apply until_close_split in Hs as (rest & ->).
  exists (String d run +:+ "}"), rest. split; [done|].
  rewrite str_app_assoc. reflexivity.
Qed.

Lemma elements_from_join (s : string) :
  ∀ skip text, skip ≤ String.length s →
    join "" (elements_from skip text s) = text +:+ OS.drop_chars skip s.
Proof.
  induction s as [|c s IH]; intros skip text Hskip.
  - simpl in *. rewrite join_flush. destruct skip; by rewrite str_app_nil_r.
  - destruct skip as [|k].
    + cbn [elements_from OS.drop_chars].
      destruct (placeholder_at (String c s)) as [m|] eqn:Hm.
      * destruct (placeholder_at_split c s m Hm) as (m' & rest & -> & ->).
        rewrite join_empty_app, join_flush, join_empty_cons. f_equal.
        replace (String.length (String c m') - 1) with (String.length m')
          by (simpl; lia).
        rewrite IH by (rewrite str_length_app; lia).
        by rewrite drop_chars_app, str_app_nil_l, str_app_cons.
      * rewrite IH by lia. rewrite str_app_assoc, str_app_cons, str_app_nil_l.
        by destruct s.
    + cbn [elements_from OS.drop_chars]. apply IH. simpl in Hskip. lia.
Qed.

(** X11. Setting a pattern from a string loses no character: the texts of
    the stored elements, put together by get_pattern_string, are the
    string itself when the call returned True, and the part of the string
    before the element that was refused when it returned False. *)
Theorem set_pattern_from_string_round_trip
  (elements : list PatternElement) (pattern_string : string) :
  ∃ rest,
    pattern_string
    = get_pattern_string (set_pattern_from_string elements pattern_string).1 +:+ rest
    ∧ ((set_pattern_from_string elements pattern_string).2 = true ∧ rest = ""
       ∨ (set_pattern_from_string elements pattern_string).2 = false
         ∧ ∃ element rest', rest = element +:+ rest' ∧ ¬ valid_element element).
Proof.
  unfold set_pattern_from_string, set_pattern_from_list, get_pattern_string.
  destruct (fill_from_accepts_prefix (parse_pattern_string pattern_string) 0 []
              eq_refl eq_refl (Forall_nil_2 _))
    as (rest & Hsplit & _ & _ & _ & Hflag).
  exists (join "" rest). split.
  - change (map value ?l) with (get_pattern_list l).
    rewrite <- join_empty_app, <- Hsplit. simpl.
    unfold parse_pattern_string. rewrite elements_from_join by lia.
    rewrite str_app_nil_l. by destruct pattern_string.
  - destruct Hflag as [[Htrue ->]|(Hfalse & element & rest' & -> & Hbad)].
    + by left.
    + right. split; [done|]. exists element, (join "" rest').
      by rewrite join_empty_cons.
Qed.

(** ** Moving an element *)

(** X12. Moving an element between two positions of the pattern succeeds
    and puts it at the position asked for; the other elements keep their
    order, and every element is numbered by its index again. *)
Theorem move_element_in_range
  (elements : list PatternElement) (from_position to_position : Z) :
  (0 ≤ from_position < Z.of_nat (length elements))%Z →
  (0 ≤ to_position < Z.of_nat (length elements))%Z →
  (move_element elements from_position to_position).2 = true
  ∧ positions_in_order (move_element elements from_position to_position).1
  ∧ content <$> (move_element elements from_position to_position).1 !! Z.to_nat to_position
    = content <$> elements !! Z.to_nat from_position
  ∧ map content
      (delete (Z.to_nat to_position) (move_element elements from_position to_position).1)
    = map content (delete (Z.to_nat from_position) elements).
Proof.
  intros Hfrom Hto. unfold move_element.
  destruct (Z.leb_spec 0 from_position); [|lia].
  destruct (Z.ltb_spec from_position (Z.of_nat (length elements))); [|lia].
  destruct (Z.leb_spec 0 to_position); [|lia].
  destruct (Z.ltb_spec to_position (Z.of_nat (length elements))); [|lia].
  cbn [andb].
  destruct (elements !! Z.to_nat from_position) as [element|] eqn:Hel.
  2: { apply lookup_ge_None in Hel. lia. }
  cbn [fst snd].
  assert (length (delete (Z.to_nat from_position) elements) = pred (length elements))
    as Hlen.
  { rewrite length_delete; [lia|]. by rewrite Hel. }
  assert (0 ≤ to_position
          ≤ Z.of_nat (length (delete (Z.to_nat from_position) elements)))%Z as Hin
    by lia.
  repeat apply conj; try done.
  - apply update_positions_in_order.
  - unfold _update_positions. rewrite list_lookup_imap.
    rewrite list_insert_in_range by done.
    rewrite list_lookup_middle by (rewrite length_take; lia). done.
  - change (map ?f ?l) with (f <$> l). rewrite list_fmap_delete.
    change (?f <$> ?l) with (map f l). rewrite update_positions_content.
    change (map ?f ?l) with (f <$> l). rewrite <- list_fmap_delete.
    by rewrite delete_list_insert.
Qed.

(** {prefix} moved from the head of the default pattern to its fourth
    place. *)
Lemma move_element_prefix_to_fourth :
  (move_element default_elements 0 3).2 = true
  ∧ positions_in_order (move_element default_elements 0 3).1
  ∧ content <$> (move_element default_elements 0 3).1 !! Z.to_nat 3
    = content <$> default_elements !! Z.to_nat 0
  ∧ map content (delete (Z.to_nat 3) (move_element default_elements 0 3).1)
    = map content (delete (Z.to_nat 0) default_elements).
Proof.
  apply (move_element_in_range default_elements 0 3).
  - vm_compute. split; [discriminate|reflexivity].
  - vm_compute. split; [discriminate|reflexivity].
Defined.

(** ** Sanitizing a file name *)

Import Sanitize.

Lemma contains_char_app (x : ascii) (s t : string) :
  contains_char x (s +:+ t) = contains_char x s || contains_char x t.
Proof.
  induction s as [|c s IH]; [by rewrite str_app_nil_l|].
  rewrite str_app_cons. simpl. by rewrite IH, orb_assoc.
Qed.

Lemma any_char_app (Q : ascii → bool) (s t : string) :
  any_char Q (s +:+ t) = any_char Q s || any_char Q t.
Proof.
  induction s as [|c s IH]; [by rewrite str_app_nil_l|].
  rewrite str_app_cons. simpl. by rewrite IH, orb_assoc.
Qed.

Lemma any_char_false (Q : ascii → bool) (s : string) :
  (∀ x, contains_char x s = true → Q x = false) → any_char Q s = false.
Proof.
  induction s as [|c s IH]; [done|]. intros Hall. simpl.
  rewrite (Hall c) by (simpl; by rewrite Ascii.eqb_refl). simpl.
  apply IH. intros x Hx. apply Hall. simpl. rewrite Hx. apply orb_true_r.
Qed.

Lemma any_char_contains (Q : ascii → bool) (s : string) :
  any_char Q s = true → ∃ x, contains_char x s = true ∧ Q x = true.
Proof.
  induction s as [|c s IH]; [done|]. simpl. intros [Hc|Hs]%orb_true_iff.
  - exists c. by rewrite Ascii.eqb_refl.
  - destruct (IH Hs) as (x & Hx & HQ). exists x. rewrite Hx. split; [apply orb_true_r|done].
Qed.

Lemma first_char_in_none (chars s : string) :
  (∀ x, contains_char x chars = true → contains_char x s = false) →
  Validators.first_char_in chars s = None.
Proof.
  induction chars as [|c chars IH]; [done|]. intros Hall. simpl.
  rewrite (Hall c) by (simpl; by rewrite Ascii.eqb_refl).
  apply IH. intros x Hx. apply Hall. simpl. rewrite Hx. apply orb_true_r.
Qed.

(** Replacing one character by an underscore. *)
Lemma replace_from_char (x c : ascii) (s : string) :
  x ≠ "_"%char →
  contains_char x (replace_from (String c "") "_" 0 s) = true →
  contains_char x s = true ∧ x ≠ c.
Proof.
  intros Hx. induction s as [|d s IH]; [done|].
  cbn [replace_from]. change (String.prefix ?p ?s) with (startswith s p).
  rewrite startswith_char. simpl String.length. simpl Nat.sub.
  destruct (Ascii.eqb_spec d c) as [->|Hdc].
  - rewrite str_app_cons, str_app_nil_l. simpl.
    destruct (Ascii.eqb_spec x "_"); [done|]. simpl. intros H.
    destruct (IH H) as [Hs Hne]. split; [|done]. rewrite Hs. apply orb_true_r.
  - simpl. destruct (Ascii.eqb_spec x d) as [->|Hxd]; simpl.
    + intros _. split; [done|]. done.
    + intros H. by destruct (IH H).
Qed.

Lemma replace_from_char_id (c : ascii) (s : string) :
  contains_char c s = false → replace_from (String c "") "_" 0 s = s.
Proof.
  induction s as [|d s IH]; [done|]. simpl contains_char.
  intros [Hcd Hs]%orb_false_iff.
  cbn [replace_from]. change (String.prefix ?p ?s) with (startswith s p).
  rewrite startswith_char, Ascii.eqb_sym, Hcd. by rewrite IH.
Qed.

Lemma replace_each_contains (x : ascii) (chars s : string) :
  x ≠ "_"%char →
  contains_char x (replace_each chars s) = true →
  contains_char x s = true ∧ contains_char x chars = false.
Proof.
  intros Hx. revert s. induction chars as [|c chars IH]; intros s; [done|].
  cbn [replace_each]. intros H. destruct (IH _ H) as [Hrep Hchars].
  apply replace_from_char in Hrep as [Hs Hne]; [|done].
  split; [done|]. simpl. rewrite Hchars.
  by destruct (Ascii.eqb_spec x c).
Qed.

Lemma replace_each_id (chars s : string) :
  (∀ x, contains_char x chars = true → contains_char x s = false) →
  replace_each chars s = s.
Proof.
  induction chars as [|c chars IH]; [done|]. intros Hall.
  cbn [replace_each]. unfold replace.
  rewrite replace_from_char_id by (apply Hall; simpl; by rewrite Ascii.eqb_refl).
  apply IH. intros x Hx. apply Hall. simpl. rewrite Hx. apply orb_true_r.
Qed.

Lemma keep_contains (P : ascii → bool) (x : ascii) (s : string) :
  contains_char x (keep P s) = true → contains_char x s = true ∧ P x = true.
Proof.
  induction s as [|c s IH]; [done|]. simpl.
  destruct (P c) eqn:Hc; simpl.
  - destruct (Ascii.eqb_spec x c) as [->|_]; [done|]. simpl. apply IH.
  - intros H. destruct (IH H) as [Hs HP]. rewrite Hs. split; [apply orb_true_r|done].
Qed.

Lemma keep_id (P : ascii → bool) (s : string) :
  any_char (fun c => negb (P c)) s = false → keep P s = s.
Proof.
  induction s as [|c s IH]; [done|]. simpl.
  intros [Hc Hs]%orb_false_iff. apply negb_false_iff in Hc. rewrite Hc.
  by rewrite IH.
Qed.

Lemma strip_by_contains (P : ascii → bool) (x : ascii) (s : string) :
  contains_char x (strip_by P s) = true → contains_char x s = true.
Proof.
  destruct (strip_by_trimmed P s) as (l & r & Hs & _). intros Hx.
  rewrite Hs, !contains_char_app, Hx. by rewrite orb_true_r.
Qed.

(** s.endswith(c) for one character. *)
Lemma endswith_char (P : ascii → bool) (c : ascii) (s : string) :
  P c = true → ends_in P s = false → endswith s (String c "") = false.
Proof.
  intros Hc. induction s as [|d s IH]; [done|]. intros Hend.
  cbn [endswith]. apply orb_false_iff. split.
  - destruct s as [|e s].
    + simpl in Hend. simpl. destruct (Ascii.eqb_spec d c) as [->|]; [congruence|done].
    + apply String.eqb_neq. by intros [= _ ?].
  - destruct s as [|e s]; [done|]. by apply IH.
Qed.

(** *** Reserved names *)

Lemma length_upper (s : string) : String.length (upper s) = String.length s.
Proof. induction s as [|c s IH]; [done|]. simpl. by rewrite IH. Qed.

Lemma upper_char_dot (c : ascii) : Ascii.eqb "." (upper_char c) = Ascii.eqb "." c.
Proof. by destruct c as [[] [] [] [] [] [] [] []]. Qed.

Lemma contains_dot_upper (s : string) :
  contains_char "." (upper s) = contains_char "." s.
Proof.
  induction s as [|c s IH]; [done|]. simpl contains_char at 2.
  cbn [upper contains_char]. by rewrite upper_char_dot, IH.
Qed.

Lemma reserved_short (s : string) :
  upper s ∈ FileUtils.reserved_names →
  String.length s ≤ 4 ∧ contains_char "." s = false.
Proof.
  intros Hin. rewrite <- length_upper, <- contains_dot_upper.
  unfold FileUtils.reserved_names in Hin.
  repeat (apply elem_of_cons in Hin as [->|Hin]; [split; [simpl; lia|reflexivity]|]).
  by apply elem_of_nil in Hin.
Qed.

Lemma rpartition_none (c : ascii) (s : string) :
  PosixPath.rpartition c s = None ↔ contains_char c s = false.
Proof.
  induction s as [|d s IH]; [done|]. simpl.
  destruct (PosixPath.rpartition c s) as [[h t]|].
  - split; [done|]. intros [_ Hs]%orb_false_iff. by apply IH in Hs.
  - rewrite (Ascii.eqb_sym c d). destruct (Ascii.eqb d c); [done|].
    simpl. split; [intros _; by apply IH|done].
Qed.

Lemma split_none (c : ascii) (s : string) :
  contains_char c s = false → PyStr.split c s = [s].
Proof.
  induction s as [|d s IH]; [done|]. simpl.
  intros [Hcd Hs]%orb_false_iff. rewrite Ascii.eqb_sym, Hcd. by rewrite IH.
Qed.

Lemma hd_split_cons (c d : ascii) (s : string) :
  Ascii.eqb d c = false →
  hd "" (PyStr.split c (String d s)) = String d (hd "" (PyStr.split c s)).
Proof. intros Hd. simpl. rewrite Hd. by destruct (PyStr.split c s). Qed.

Lemma hd_split_middle (c : ascii) (h t : string) :
  contains_char c h = false → hd "" (PyStr.split c (h +:+ String c t)) = h.
Proof.
  induction h as [|d h IH].
  - intros _. rewrite str_app_nil_l. simpl. by rewrite Ascii.eqb_refl.
  - cbn [contains_char]. intros [Hcd Hh]%orb_false_iff. rewrite str_app_cons.
    rewrite hd_split_cons by (by rewrite Ascii.eqb_sym). by rewrite IH.
Qed.

(** The check of is_valid_filename fires only where the check of
    sanitize_filename does. *)
Lemma splitext_reserved (s : string) :
  contains_char "/" s = false →
  upper (PosixPath.splitext s).1 ∈ FileUtils.reserved_names →
  upper (hd "" (PyStr.split "." s)) ∈ FileUtils.reserved_names.
Proof.
  intros Hsep. unfold PosixPath.splitext, PosixPath.sep.
  apply rpartition_none in Hsep. rewrite Hsep.
  unfold PosixPath.splitext_name.
  destruct (PosixPath.rpartition "." s) as [[h t]|] eqn:Hs.
  - pose proof (rpartition_join _ _ _ _ Hs) as Hjoin.
    destruct (any_char _ h); cbn [fst].
    + intros Hin. destruct (reserved_short _ Hin) as [_ Hdot].
      by rewrite Hjoin, hd_split_middle.
    + intros Hin. destruct (reserved_short _ Hin) as [_ Hdot].
      rewrite Hjoin, contains_char_app in Hdot. simpl in Hdot.
      by rewrite orb_true_r in Hdot.
  - apply rpartition_none in Hs. cbn [fst]. by rewrite split_none.
Qed.

(** *** The shape of a sanitized name *)

Lemma clean_unnamed : clean "unnamed".
Proof.
  unfold clean. repeat apply conj; try reflexivity.
  intros x Hx. unfold Validators.invalid_chars in Hx. simpl in Hx.
  repeat (apply orb_true_iff in Hx as [Hx|Hx];
          [apply Ascii.eqb_eq in Hx as ->; reflexivity|]).
  done.
Qed.

Lemma invalid_not_underscore (x : ascii) :
  contains_char x Validators.invalid_chars = true → x ≠ "_"%char.
Proof. by intros Hx ->. Qed.

Lemma clean_prefixed (t : string) : clean t → clean ("file_" +:+ t).
Proof.
  intros (Ht & Hinv & Hctl & Hstart & Hend). unfold clean.
  repeat apply conj.
  - done.
  - intros x Hx. rewrite contains_char_app, (Hinv x Hx), orb_false_r.
    unfold Validators.invalid_chars in Hx. simpl in Hx.
    repeat (apply orb_true_iff in Hx as [Hx|Hx];
            [apply Ascii.eqb_eq in Hx as ->; reflexivity|]).
    done.
  - by rewrite any_char_app, Hctl.
  - done.
  - destruct t as [|c t]; [done|]. exact Hend.
Qed.

(** The name before the reserved names are looked at. *)
Lemma sanitize_filename_cases (filename : string) :
  ∃ t, clean t
       ∧ sanitize_filename filename
         = if bool_decide (upper (hd "" (PyStr.split "." t)) ∈ FileUtils.reserved_names)
           then "file_" +:+ t else t.
Proof.
  unfold sanitize_filename. destruct (truthy filename); cbn [negb].
  2: { exists "unnamed". split; [apply clean_unnamed|reflexivity]. }
  set (s := strip_chars " ." _).
  destruct (truthy s) eqn:Hs; cbn [negb].
  2: { exists "unnamed". split; [apply clean_unnamed|reflexivity]. }
  exists s. split; [|done]. unfold clean. repeat apply conj.
  - done.
  - intros x Hx. destruct (contains_char x s) eqn:Hin; [|done].
    apply strip_by_contains, keep_contains in Hin as [Hin _].
    apply replace_each_contains in Hin as [_ Hin]; [congruence|].
    by apply invalid_not_underscore.
  - apply any_char_false. intros x Hin.
    apply strip_by_contains, keep_contains in Hin as [_ Hx]. by rewrite Hx.
  - by destruct (strip_by_trimmed (fun c => contains_char c " .")
                   (keep (fun char => (32 <=? ord char)%N)
                      (replace_each Validators.invalid_chars filename)))
      as (l & r & _ & _ & _ & Hstart & _).
  - by destruct (strip_by_trimmed (fun c => contains_char c " .")
                   (keep (fun char => (32 <=? ord char)%N)
                      (replace_each Validators.invalid_chars filename)))
      as (l & r & _ & _ & _ & _ & Hend).
Qed.

Lemma prefixed_not_reserved (t : string) :
  upper (hd "" (PyStr.split "." ("file_" +:+ t))) ∉ FileUtils.reserved_names.
Proof.
  intros Hin. apply reserved_short in Hin as [Hlen _].
  rewrite !str_app_cons, str_app_nil_l in Hlen.
  rewrite !hd_split_cons in Hlen by done. simpl in Hlen. lia.
Qed.

Lemma sanitize_filename_clean (filename : string) :
  clean (sanitize_filename filename)
  ∧ upper (hd "" (PyStr.split "." (sanitize_filename filename))) ∉ FileUtils.reserved_names.
Proof.
  destruct (sanitize_filename_cases filename) as (t & Ht & ->).
  case_bool_decide as Hres.
  - split; [by apply clean_prefixed|apply prefixed_not_reserved].
  - done.
Qed.

Lemma any_char_ext (P Q : ascii → bool) (s : string) :
  (∀ c, P c = Q c) → any_char P s = any_char Q s.
Proof. intros HPQ. induction s as [|c s IH]; [done|]. simpl. by rewrite HPQ, IH. Qed.

Lemma clean_accepted (s : string) :
  clean s → upper (hd "" (PyStr.split "." s)) ∉ FileUtils.reserved_names →
  FileUtils.is_valid_filename s = true
  ∧ Validators.validate_filename_pattern s = (true, None).
Proof.
  intros (Ht & Hinv & Hctl & Hstart & Hend) Hres. split.
  - unfold FileUtils.is_valid_filename. rewrite Ht. cbn [negb].
    rewrite any_char_false by done.
    rewrite bool_decide_eq_false_2.
    2: { intros Hin. apply Hres, splitext_reserved; [|done]. by apply Hinv. }
    by rewrite !(endswith_char (fun c => contains_char c " .")).
  - unfold Validators.validate_filename_pattern. rewrite Ht. cbn [negb].
    rewrite first_char_in_none by done.
    rewrite (any_char_ext _ (fun c => negb (32 <=? ord c)%N)), Hctl; [done|].
    intros c. apply N.ltb_antisym.
Qed.

(** X13. Whatever it is given, sanitize_filename returns a name that
    is_valid_filename accepts and that validate_filename_pattern accepts
    without an error message. *)
Theorem sanitize_filename_accepted (filename : string) :
  FileUtils.is_valid_filename (sanitize_filename filename) = true
  ∧ Validators.validate_filename_pattern (sanitize_filename filename) = (true, None).
Proof.
  destruct (sanitize_filename_clean filename) as [Hclean Hres].
  by apply clean_accepted.
Qed.

Lemma clean_fixed (s : string) :
  clean s → upper (hd "" (PyStr.split "." s)) ∉ FileUtils.reserved_names →
  sanitize_filename s = s.
Proof.
  intros (Ht & Hinv & Hctl & Hstart & Hend) Hres.
  unfold sanitize_filename. rewrite Ht. cbn [negb].
  rewrite replace_each_id by done.
  rewrite keep_id by done.
  unfold strip_chars. rewrite strip_by_id by done.
  rewrite Ht. cbn [negb]. by rewrite bool_decide_eq_false_2.
Qed.

(** X14. The names sanitize_filename leaves as they are, are the clean
    names (not empty, without a character no file name may hold, without a
    control character, without a space or a dot at either end) whose part
    before the first dot is no reserved name; its results are such names,
    so sanitizing a second time changes nothing. *)
Theorem sanitize_filename_fixed_points (filename : string) :
  (sanitize_filename filename = filename
   ↔ clean filename
     ∧ upper (hd "" (PyStr.split "." filename)) ∉ FileUtils.reserved_names)
  ∧ sanitize_filename (sanitize_filename filename) = sanitize_filename filename.
Proof.
  split; [split|].
  - intros Heq. rewrite <- Heq. apply sanitize_filename_clean.
  - intros [Hclean Hres]. by apply clean_fixed.
  - destruct (sanitize_filename_clean filename) as [Hclean Hres].
    by apply clean_fixed.
Qed.

(** ** File types and directories *)

Lemma truthy_strip (s : string) : truthy (strip s) = true → truthy s = true.
Proof. by destruct s. Qed.

Lemma validate_file_extension_truthy (extension : string) :
  (validate_file_extension extension).1 = true → truthy extension = true.
Proof. by destruct extension. Qed.

Lemma first_invalid_extension_all (extensions : list string) :
  (first_invalid_extension extensions).1 = true →
  Forall (fun ext => (validate_file_extension ext).1 = true) extensions.
Proof.
  induction extensions as [|ext extensions IH]; [by constructor|].
  cbn [first_invalid_extension].
  destruct (validate_file_extension ext) as [is_valid error_msg] eqn:Hext.
  destruct is_valid; cbn [negb]; [|done].
  intros Hrest. constructor; [by rewrite Hext|by apply IH].
Qed.

Lemma split_nonempty (c : ascii) (s : string) : PyStr.split c s ≠ [].
Proof.
  destruct s as [|d s]; [done|]. simpl.
  destruct (Ascii.eqb d c); [done|]. by destruct (PyStr.split c s).
Qed.

Lemma parse_keeps_valid (pieces : list string) :
  Forall (fun ext => (validate_file_extension ext).1 = true) (map strip pieces) →
  omap (fun ft => if truthy (strip ft) then Some (strip ft) else None) pieces
  = map strip pieces.
Proof.
  induction pieces as [|ft pieces IH]; [done|]. cbn [map].
  intros [Hft Hall]%Forall_cons. cbn [omap list_omap].
  rewrite (validate_file_extension_truthy _ Hft). by rewrite IH.
Qed.

(** X15. A list of extensions that validate_file_extensions_list accepts
    is taken over whole by set_file_types: the stored file types are the
    pieces between the commas, stripped, none dropped; there is at least
    one, and each is an extension validate_file_extension accepts. *)
Theorem accepted_extensions_list_is_stored (fm : FileManager) (extensions_string : string) :
  (validate_file_extensions_list extensions_string).1 = true →
  file_types (FileList.set_file_types fm extensions_string)
  = map strip (PyStr.split "," extensions_string)
  ∧ file_types (FileList.set_file_types fm extensions_string) ≠ []
  ∧ Forall (fun ft => (validate_file_extension ft).1 = true)
      (file_types (FileList.set_file_types fm extensions_string)).
Proof.
  unfold validate_file_extensions_list, FileList.set_file_types. cbn [file_types].
  destruct (truthy (strip extensions_string)) eqn:Hs; cbn [negb]; [|done].
  intros Hall%first_invalid_extension_all.
  assert (FileUtils.parse_file_types extensions_string
          = map strip (PyStr.split "," extensions_string)) as ->.
  { unfold FileUtils.parse_file_types. rewrite (truthy_strip _ Hs). cbn [negb].
    by apply parse_keeps_valid. }
  repeat apply conj; [done| |done].
  pose proof (split_nonempty "," extensions_string).
  by destruct (PyStr.split "," extensions_string).
Qed.

(** Two extensions with blanks around the comma. *)
Lemma accepted_extensions_jpg_png :
  file_types (FileList.set_file_types FileManager.init ".jpg, .png")
  = map strip (PyStr.split "," ".jpg, .png")
  ∧ file_types (FileList.set_file_types FileManager.init ".jpg, .png") ≠ []
  ∧ Forall (fun ft => (validate_file_extension ft).1 = true)
      (file_types (FileList.set_file_types FileManager.init ".jpg, .png")).
Proof.
  apply (accepted_extensions_list_is_stored FileManager.init ".jpg, .png").
  vm_compute. reflexivity.
Defined.

(** X16. On a disk where every directory can be listed,
    validate_directory_path accepts exactly the paths that are not blank
    and that set_directory accepts; set_directory then stores the path as
    it was given. *)
Theorem validate_directory_path_iff_set_directory
  (fs : OS.FS) (fm : FileManager) (path : string) :
  ((validate_directory_path fs path).1 = true
   ↔ truthy (strip path) = true ∧ (FileList.set_directory fs fm path).2 = true)
  ∧ ((FileList.set_directory fs fm path).2 = true →
     current_directory (FileList.set_directory fs fm path).1 = path)
  ∧ ((FileList.set_directory fs fm path).2 = false →
     (FileList.set_directory fs fm path).1 = fm).
Proof.
  unfold validate_directory_path, FileList.set_directory, OS.listdir, OS.isdir,
    OS.path_exists.
  destruct (truthy (strip path)) eqn:Hs; cbn [negb].
  - rewrite (truthy_strip _ Hs). cbn [negb orb].
    destruct (fs !! path) as [[i|]|]; simpl; intuition congruence.
  - destruct (negb (truthy path) || _ || _); simpl; intuition congruence.
Qed.

(** ** Statistics *)

Lemma rename_each_statistics (fl : list FileItem) :
  ∀ fs,
    length (pending (rename_each fs fl).1.2) + length (rename_each fs fl).2.1
    = length (pending fl)
    ∧ map extension (rename_each fs fl).1.2 = map extension fl
    ∧ map directory (rename_each fs fl).1.2 = map directory fl.
Proof.
  induction fl as [|g fl IH]; intros fs; [done|].
  rewrite pending_cons. cbn [rename_each].
  destruct (truthy (new_name g)) eqn:Hp; cbn [negb].
  - destruct (FileUtils.safe_rename fs (original_path g) (new_path g))
      as [fs1 [success error_msg]].
    specialize (IH fs1).
    destruct (rename_each fs1 fl) as [[fs' rest'] [successful errors]].
    destruct IH as (Hcount & Hext & Hdir). simpl in Hcount, Hext, Hdir.
    destruct success; cbn [fst snd map length]; rewrite pending_cons.
    + cbn [new_name truthy extension directory length].
      rewrite Hext, Hdir. split; [lia|done].
    + rewrite Hp. cbn [length]. rewrite Hext, Hdir. split; [lia|done].
  - specialize (IH fs).
    destruct (rename_each fs fl) as [[fs' rest'] [successful errors]].
    destruct IH as (Hcount & Hext & Hdir). simpl in Hcount, Hext, Hdir.
    cbn [fst snd map length]. rewrite pending_cons, Hp, Hext, Hdir. done.
Qed.

(** X17. The statistics before and after execute_rename: the number of
    files, of distinct extensions and of distinct directories is the same,
    and the files with a pending change are fewer by the number of files
    renamed, so that the files still pending are the ones that were not
    renamed. *)
Theorem execute_rename_statistics (fs : OS.FS) (fl : list FileItem) :
  FileList.total_files (FileList.get_statistics (FileManager.execute_rename fs fl).1.2)
  = FileList.total_files (FileList.get_statistics fl)
  ∧ FileList.files_with_changes
      (FileList.get_statistics (FileManager.execute_rename fs fl).1.2)
    + length (FileManager.execute_rename fs fl).2.1
    = FileList.files_with_changes (FileList.get_statistics fl)
  ∧ FileList.unique_extensions
      (FileList.get_statistics (FileManager.execute_rename fs fl).1.2)
    = FileList.unique_extensions (FileList.get_statistics fl)
  ∧ FileList.directories (FileList.get_statistics (FileManager.execute_rename fs fl).1.2)
    = FileList.directories (FileList.get_statistics fl).
Proof.
  unfold FileManager.execute_rename, FileList.get_statistics.
  cbn [FileList.total_files FileList.files_with_changes FileList.unique_extensions
       FileList.directories].
  destruct (FileManager.validate_changes fs fl); cbn [fst snd length].
  - destruct (rename_each_outcomes fl fs) as (Hlen & _).
    destruct (rename_each_statistics fl fs) as (Hcount & Hext & Hdir).
    unfold pending in Hcount. by rewrite Hlen, Hext, Hdir.
  - repeat apply conj; try done; lia.
Qed.

Lemma size_list_to_set_le (l : list string) :
  size (list_to_set l : gset string) ≤ length l.
Proof.
  induction l as [|x l IH]; [done|]. cbn [list_to_set length].
  rewrite size_union_alt, size_singleton.
  pose proof (subseteq_size (list_to_set l ∖ {[x]}) (list_to_set l : gset string)) as Hle.
  assert (list_to_set l ∖ {[x]} ⊆ (list_to_set l : gset string)) as Hsub
    by apply subseteq_difference_l, reflexivity.
  specialize (Hle Hsub). lia.
Qed.

Lemma size_list_to_set_pos (l : list string) :
  0 < length l → 0 < size (list_to_set l : gset string).
Proof.
  destruct l as [|x l]; [simpl; lia|]. intros _. cbn [list_to_set].
  rewrite size_union_alt, size_singleton. lia.
Qed.

(** X18. The statistics of a file list are bounded by its length: no more
    files with a pending change, distinct extensions or distinct
    directories than files, and at least one extension and one directory
    as soon as there is a file.  After reset_changes no file has a pending
    change, and the other three numbers are as before. *)
Theorem get_statistics_bounds (fl : list FileItem) :
  FileList.files_with_changes (FileList.get_statistics fl)
  ≤ FileList.total_files (FileList.get_statistics fl)
  ∧ FileList.unique_extensions (FileList.get_statistics fl)
    ≤ FileList.total_files (FileList.get_statistics fl)
  ∧ FileList.directories (FileList.get_statistics fl)
    ≤ FileList.total_files (FileList.get_statistics fl)
  ∧ (FileList.total_files (FileList.get_statistics fl) = 0
     ↔ FileList.unique_extensions (FileList.get_statistics fl) = 0)
  ∧ (FileList.total_files (FileList.get_statistics fl) = 0
     ↔ FileList.directories (FileList.get_statistics fl) = 0)
  ∧ FileList.get_statistics (reset_changes fl)
    = {| FileList.total_files := FileList.total_files (FileList.get_statistics fl);
         FileList.files_with_changes := 0;
         FileList.unique_extensions :=
           FileList.unique_extensions (FileList.get_statistics fl);
         FileList.directories := FileList.directories (FileList.get_statistics fl) |}.
Proof.
  unfold FileList.get_statistics.
  cbn [FileList.total_files FileList.files_with_changes FileList.unique_extensions
       FileList.directories].
  pose proof (size_list_to_set_le (map extension fl)) as Hext.
  pose proof (size_list_to_set_le (map directory fl)) as Hdir.
  pose proof (size_list_to_set_pos (map extension fl)) as Hext0.
  pose proof (size_list_to_set_pos (map directory fl)) as Hdir0.
  rewrite length_map in Hext, Hdir, Hext0, Hdir0.
  repeat apply conj; try done; try lia.
  - apply length_filter.
  - pose proof (pending_reset_changes fl) as Hnone. unfold pending in Hnone.
    rewrite Hnone. unfold reset_changes. rewrite length_map, !map_map. done.
Qed.

(** ** Unique names and backups *)

Import Backup.

Lemma str_inj (a b : Z) : str a = str b → a = b.
Proof.
  intros Heq. apply (f_equal int) in Heq. rewrite !int_str in Heq. congruence.
Qed.

Lemma str_app_inv_head (s a b : string) : s +:+ a = s +:+ b → a = b.
Proof.
  induction s as [|c s IH]; [by rewrite !str_app_nil_l|].
  rewrite !str_app_cons. intros [= Heq]. by apply IH.
Qed.

Lemma str_app_inv_tail (a b s : string) : a +:+ s = b +:+ s → a = b.
Proof.
  intros Heq. assert (String.length a = String.length b) as Hlen.
  { apply (f_equal String.length) in Heq. rewrite !str_length_app in Heq. lia. }
  revert b Heq Hlen. induction a as [|c a IH]; intros [|d b]; try done.
  rewrite !str_app_cons. intros [= -> Heq] [= Hlen]. f_equal. by apply IH.
Qed.

(** The candidates differ in their counter only. *)
Lemma candidate_shape (directory name ext : string) :
  ∃ pre, ∀ counter, candidate directory name ext counter = pre +:+ (str counter +:+ ext).
Proof.
  unfold candidate, PosixPath.join.
  assert (∀ counter, startswith (name +:+ "_" +:+ str counter +:+ ext) "/"
                     = startswith (name +:+ "_") "/") as Hstart.
  { intros counter. destruct name as [|c name].
    - rewrite !str_app_nil_l. by rewrite !str_app_cons, !startswith_char.
    - by rewrite !str_app_cons, !startswith_char. }
  destruct (startswith (name +:+ "_") "/") eqn:Hname.
  - exists (name +:+ "_"). intros counter. rewrite Hstart.
    by rewrite !str_app_assoc.
  - destruct (negb (truthy directory) || endswith directory "/").
    + exists (directory +:+ name +:+ "_"). intros counter. rewrite Hstart.
      by rewrite !str_app_assoc.
    + exists (directory +:+ "/" +:+ name +:+ "_"). intros counter. rewrite Hstart.
      by rewrite !str_app_assoc.
Qed.

Lemma candidate_inj (directory name ext : string) (a b : Z) :
  candidate directory name ext a = candidate directory name ext b → a = b.
Proof.
  destruct (candidate_shape directory name ext) as (pre & Hshape).
  rewrite !Hshape. intros Heq%str_app_inv_head%str_app_inv_tail. by apply str_inj.
Qed.

(** The loop finds the first free candidate before the fuel runs out,
    when the fuel exceeds the number of paths of the disk not tried yet. *)
Lemma first_free_finds (fs : OS.FS) (directory name ext : string) (fuel : nat) :
  ∀ (counter : Z) (tried : gset string),
    tried ⊆ dom fs →
    (∀ k, (counter ≤ k)%Z → candidate directory name ext k ∉ tried) →
    size fs < size tried + fuel →
    ∃ k, (counter ≤ k)%Z
         ∧ first_free fuel fs directory name ext counter
           = Some (candidate directory name ext k)
         ∧ OS.path_exists fs (candidate directory name ext k) = false
         ∧ ∀ j, (counter ≤ j < k)%Z →
                OS.path_exists fs (candidate directory name ext j) = true.
Proof.
  induction fuel as [|fuel IH]; intros counter tried Hsub Hfresh Hsize.
  - apply subseteq_size in Hsub. rewrite size_dom in Hsub. lia.
  - cbn [first_free].
    destruct (OS.path_exists fs (candidate directory name ext counter)) eqn:Hex;
      cbn [negb].
    + destruct (IH (counter + 1)%Z ({[candidate directory name ext counter]} ∪ tried))
        as (k & Hk & Hfound & Hfree & Hbelow).
      * apply union_subseteq. split; [|done].
        apply singleton_subseteq_l, elem_of_dom. by apply path_exists_lookup.
      * intros k Hk [Hin|Hin]%elem_of_union.
        -- apply elem_of_singleton, candidate_inj in Hin. lia.
        -- apply (Hfresh k); [lia|done].
      * rewrite size_union, size_singleton; [lia|].
        apply disjoint_singleton_l. apply Hfresh. lia.
      * exists k. repeat apply conj; try done; [lia|].
        intros j Hj. destruct (decide (j = counter)) as [->|Hne]; [done|].
        apply Hbelow. lia.
    + exists counter. repeat apply conj; try done; intros; lia.
Qed.

(** X19. get_unique_filename always comes back, with a path that does not
    exist: the path it was given when that one is free, and otherwise the
    path numbered with the first counter from 1 on whose path is free. *)
Theorem get_unique_filename_first_free (fs : OS.FS) (file_path : string) :
  ∃ unique,
    get_unique_filename fs file_path = Some unique
    ∧ OS.path_exists fs unique = false
    ∧ (OS.path_exists fs file_path = false ∧ unique = file_path
       ∨ OS.path_exists fs file_path = true
         ∧ ∃ k, (1 ≤ k)%Z
                ∧ unique
                  = candidate (PosixPath.dirname file_path)
                      (PosixPath.splitext (PosixPath.basename file_path)).1
                      (PosixPath.splitext (PosixPath.basename file_path)).2 k
                ∧ ∀ j, (1 ≤ j < k)%Z →
                    OS.path_exists fs
                      (candidate (PosixPath.dirname file_path)
                         (PosixPath.splitext (PosixPath.basename file_path)).1
                         (PosixPath.splitext (PosixPath.basename file_path)).2 j)
                    = true).
Proof.
  unfold get_unique_filename.
  destruct (OS.path_exists fs file_path) eqn:Hex; cbn [negb].
  - destruct (PosixPath.splitext (PosixPath.basename file_path)) as [name ext].
    cbn [fst snd].
    destruct (first_free_finds fs (PosixPath.dirname file_path) name ext (S (size fs))
                1 ∅) as (k & Hk & Hfound & Hfree & Hbelow).
    + apply empty_subseteq.
    + intros k _. apply not_elem_of_empty.
    + rewrite size_empty. lia.
    + exists (candidate (PosixPath.dirname file_path) name ext k).
      repeat apply conj; try done. right. split; [done|]. by exists k.
  - exists file_path. repeat apply conj; try done. by left.
Qed.

(** *** Backups *)

Lemma get_unique_filename_free (fs : OS.FS) (file_path unique : string) :
  get_unique_filename fs file_path = Some unique → fs !! unique = None.
Proof.
  assert (∀ p, OS.path_exists fs p = false → fs !! p = None) as Hnone.
  { intros p. unfold OS.path_exists. by destruct (fs !! p). }
  unfold get_unique_filename.
  destruct (OS.path_exists fs file_path) eqn:Hex; cbn [negb].
  - destruct (PosixPath.splitext (PosixPath.basename file_path)) as [name ext].
    destruct (first_free_finds fs (PosixPath.dirname file_path) name ext (S (size fs))
                1 ∅) as (k & _ & Hfound & Hfree & _).
    + apply empty_subseteq.
    + intros k _. apply not_elem_of_empty.
    + rewrite size_empty. lia.
    + rewrite Hfound. intros [= <-]. by apply Hnone.
  - intros [= <-]. by apply Hnone.
Qed.

Lemma makedirs_preserves (fs fs1 : OS.FS) (d p : string) (e : OS.entry) :
  OS.makedirs fs d = OS.Done fs1 → fs !! p = Some e → fs1 !! p = Some e.
Proof.
  unfold OS.makedirs. destruct d as [|c d]; [done|].
  destruct (fs !! String c d) as [[i|]|] eqn:Hd; try done.
  - by intros [= <-].
  - intros [= <-] Hp. rewrite lookup_insert_ne; [done|]. congruence.
Qed.

Lemma makedirs_directory (fs fs1 : OS.FS) (d : string) :
  OS.makedirs fs d = OS.Done fs1 → fs1 !! d = Some OS.Directory.
Proof.
  unfold OS.makedirs. destruct d as [|c d]; [done|].
  destruct (fs !! String c d) as [[i|]|] eqn:Hd; try done.
  - by intros [= <-].
  - intros [= <-]. apply lookup_insert_eq.
Qed.

(** Copying to a path that does not exist. *)
Lemma copy2_fresh (fs : OS.FS) (src dst : string) :
  fs !! dst = None →
  match fs !! src with
  | Some (OS.RegularFile i) => copy2 fs src dst = OS.Done (<[dst := OS.RegularFile i]> fs)
  | _ => ∃ msg, copy2 fs src dst = OS.OSError msg
  end.
Proof.
  intros Hdst. unfold copy2, OS.isdir. rewrite Hdst.
  destruct (fs !! src) as [[i|]|] eqn:Hsrc; [|by eexists..].
  destruct (String.eqb_spec src dst) as [->|_]; [congruence|by rewrite Hdst].
Qed.

(** X20. backup_file only adds to the disk: every entry that was there is
    still there, unchanged.  When it returns a path, that path was free,
    it now holds the content of the file, which is a regular file, and the
    backup directory is there. *)
Theorem backup_file_only_adds (fs : OS.FS) (file_path backup_dir : string) :
  (∀ p e, fs !! p = Some e → (backup_file fs file_path backup_dir).1 !! p = Some e)
  ∧ (∀ backup_path,
       (backup_file fs file_path backup_dir).2 = Some backup_path →
       fs !! backup_path = None
       ∧ (backup_file fs file_path backup_dir).1 !! backup_dir = Some OS.Directory
       ∧ ∃ i, fs !! file_path = Some (OS.RegularFile i)
              ∧ (backup_file fs file_path backup_dir).1 !! backup_path
                = Some (OS.RegularFile i)).
Proof.
  unfold backup_file.
  destruct (OS.path_exists fs file_path) eqn:Hex; cbn [negb]; [|by split].
  destruct (OS.makedirs fs backup_dir) as [fs1|msg] eqn:Hmk; [|by split].
  destruct (get_unique_filename fs1 _) as [unique|] eqn:Hun.
  2: { split; [|done]. intros p e Hp. by apply (makedirs_preserves fs fs1 backup_dir). }
  apply get_unique_filename_free in Hun.
  pose proof (copy2_fresh fs1 file_path unique Hun) as Hcopy.
  apply path_exists_lookup in Hex as [e0 Hfile].
  pose proof (makedirs_preserves _ _ _ _ _ Hmk Hfile) as Hfile1.
  rewrite Hfile1 in Hcopy. destruct e0 as [i|].
  - rewrite Hcopy. cbn [fst snd]. split.
    + intros p e Hp. apply (makedirs_preserves _ _ _ _ _ Hmk) in Hp.
      rewrite lookup_insert_ne; [done|]. congruence.
    + intros backup_path [= <-]. split; [|split].
      * destruct (fs !! unique) as [e|] eqn:Hu; [|done].
        apply (makedirs_preserves _ _ _ _ _ Hmk) in Hu. congruence.
      * pose proof (makedirs_directory _ _ _ Hmk) as Hdir.
        rewrite lookup_insert_ne; [done|]. congruence.
      * exists i. split; [done|]. apply lookup_insert_eq.
  - destruct Hcopy as [msg ->]. cbn [fst snd]. split; [|done].
    intros p e Hp. by apply (makedirs_preserves fs fs1 backup_dir).
Qed.

(** ** Resetting, previewing and undoing *)

(** X21. reset_operation leaves no trace of a configuration and its
    preview: the orchestrator is the one a reset alone would have given,
    nothing is configured, no file has a pending name, and the undo stack
    is untouched. *)
Theorem reset_operation_forgets (h : OS.Host) (r : BulkRenamer) (c : Config) :
  reset_operation (preview_changes h (configure_operation h r c).1).1 = reset_operation r
  ∧ _is_operation_configured (reset_operation r) = false
  ∧ pending (files (file_manager (reset_operation r))) = []
  ∧ undo_stack (reset_operation r) = undo_stack r.
Proof.
  repeat apply conj; try done.
  - unfold reset_operation, preview_changes, configure_operation.
    cbn [fst with_file_list file_manager operation with_files files undo_stack
         current_directory file_types recursive].
    by rewrite reset_changes_apply_operation, reset_changes_idempotent.
  - apply pending_reset_changes.
Qed.

(** X22. A preview changes nothing but the pending names: every file keeps
    its place in the list, its path, name, extension and directory, the
    configuration and the undo stack are as before, and the pairs shown
    have the current names on the left, one pair per file. *)
Theorem preview_changes_only_names (h : OS.Host) (r : BulkRenamer) :
  reset_changes (files (file_manager (preview_changes h r).1))
  = reset_changes (files (file_manager r))
  ∧ operation (preview_changes h r).1 = operation r
  ∧ undo_stack (preview_changes h r).1 = undo_stack r
  ∧ map fst (preview_changes h r).2
    = map (fun f => original_name f +:+ extension f) (files (file_manager r)).
Proof.
  unfold preview_changes.
  cbn [fst snd with_file_list file_manager operation with_files files undo_stack].
  repeat apply conj; try done.
  - by rewrite reset_changes_apply_operation, reset_changes_idempotent.
  - unfold FileManager.preview_changes. rewrite map_map. cbn [fst].
    pose proof (reset_changes_apply_operation h (operation r)
                  (reset_changes (files (file_manager r)))) as Hreset.
    rewrite reset_changes_idempotent in Hreset.
    apply (f_equal (map (fun f => original_name f +:+ extension f))) in Hreset.
    unfold reset_changes in Hreset. by rewrite !map_map in Hreset.
Qed.





(** *** Undo and the rest of the disk *)





(** ** Dates, scans and loading *)

(** X25. The validation of a configuration never looks at the date type,
    and a date type other than creation, modification and exif (in any
    case of letters) adds nothing: apply_date_addition leaves every file
    as it was. *)
Theorem date_type_unchecked_then_ignored
  (h : OS.Host) (op : RenameOperation) (other : string) (fl : list FileItem) :
  validate h
    {| prefix := prefix op;
       suffix := suffix op;
       add_numbers := add_numbers op;
       start_number := start_number op;
       padding := padding op;
       find_text := find_text op;
       replace_text := replace_text op;
       case_sensitive := case_sensitive op;
       add_date := add_date op;
       date_type := other;
       date_format := date_format op;
       use_pattern := use_pattern op;
       pattern_builder := pattern_builder op |}
  = validate h op
  ∧ (lower (date_type op) ∉ ["creation"; "modification"; "exif"] →
     apply_date_addition h fl (date_type op) (date_format op) = fl).
Proof.
  split; [done|]. intros Hunknown.
  unfold apply_date_addition, DateUtils.get_date_by_type.
  destruct (String.eqb_spec (lower (date_type op)) "creation") as [Heq|_].
  { destruct Hunknown. rewrite Heq. apply list_elem_of_here. }
  destruct (String.eqb_spec (lower (date_type op)) "modification") as [Heq|_].
  { destruct Hunknown. rewrite Heq. apply list_elem_of_further, list_elem_of_here. }
  destruct (String.eqb_spec (lower (date_type op)) "exif") as [Heq|_].
  { destruct Hunknown. rewrite Heq.
    apply list_elem_of_further, list_elem_of_further, list_elem_of_here. }
  apply map_id.
Qed.

(** X26. On a disk, a scan with recursion returns its paths sorted and
    misses none of the paths the scan without recursion returns. *)
Theorem recursive_scan_includes_flat_scan
  (fs : OS.FS) (directory : string) (file_types : list string) :
  Sorted String.le (Examples.scan fs directory file_types true)
  ∧ ∀ p, p ∈ Examples.scan fs directory file_types false →
         p ∈ Examples.scan fs directory file_types true.
Proof.
  split.
  - unfold Examples.scan, FileUtils.get_files_in_directory.
    destruct (_ || _); [constructor|]. apply sorted_is_sorted.
  - intros p. unfold Examples.scan. rewrite scan_flat_elem_of.
    intros (Hdir & Hex & filenames & filename & Hls & Hin & -> & Hfile & Hm).
    unfold FileUtils.get_files_in_directory. rewrite Hdir, Hex. cbn [negb orb].
    apply elem_of_sorted. apply list_elem_of_In, in_flat_map.
    exists (directory,
            filter (fun n => OS.isdir fs (PosixPath.join directory n) = false) filenames).
    split; apply list_elem_of_In.
    + unfold OS.walk. cbn [OS.walk_depth]. rewrite Hls. apply list_elem_of_here.
    + apply list_elem_of_omap. exists filename. split; [|by rewrite Hm].
      apply list_elem_of_filter. split; [|done].
      unfold OS.isfile in Hfile. unfold OS.isdir.
      by destruct (fs !! PosixPath.join directory filename) as [[i|]|].
Qed.

(** X27. load_files loads no file.  With a directory set, the list is
    empty after the call whatever the scan found, and the result is True
    exactly when the scan found nothing; a rename executed next touches
    neither the disk nor the undo stack and reports no file renamed. *)
Theorem load_files_loads_nothing (h : OS.Host) (fs : OS.FS) (r : BulkRenamer) :
  truthy (current_directory (file_manager r)) = true →
  files (file_manager (Orchestrator.load_files fs r).1) = []
  ∧ ((Orchestrator.load_files fs r).2 = true
     ↔ Examples.scan fs (current_directory (file_manager r))
         (file_types (file_manager r)) (recursive (file_manager r)) = [])
  ∧ (execute_rename h fs (Orchestrator.load_files fs r).1).1.1 = fs
  ∧ undo_stack (execute_rename h fs (Orchestrator.load_files fs r).1).1.2 = undo_stack r
  ∧ (execute_rename h fs (Orchestrator.load_files fs r).1).2 = (true, [], 0).
Proof.
  intros Hdir.
  assert (files (file_manager (Orchestrator.load_files fs r).1) = []
          ∧ operation (Orchestrator.load_files fs r).1 = operation r
          ∧ undo_stack (Orchestrator.load_files fs r).1 = undo_stack r
          ∧ ((Orchestrator.load_files fs r).2 = true
             ↔ Examples.scan fs (current_directory (file_manager r))
                 (file_types (file_manager r)) (recursive (file_manager r)) = []))
    as (Hfiles & Hop & Hstack & Hflag).
  { unfold Orchestrator.load_files, FileManager.load_files, Examples.scan.
    rewrite Hdir. cbn [negb].
    by destruct (FileUtils.get_files_in_directory _ _ _ _ _ _ _). }
  split; [done|]. split; [done|].
  destruct (Orchestrator.load_files fs r) as [r' ok]. cbn [fst snd] in *.
  unfold execute_rename, preview_changes, validate_changes.
  rewrite Hfiles. 
  assert (_apply_operation h (operation r') [] = []) as Hnone.
  { pose proof (reset_changes_apply_operation h (operation r') []) as Hreset.
    by destruct (_apply_operation h (operation r') []). }
  cbn [reset_changes map fst with_file_list file_manager with_files files].
  rewrite Hnone. simpl. by rewrite Hstack.
Qed.

(** The orchestrator pointed at /d, where a.jpg is. *)
Lemma load_files_loads_nothing_from_d :
  files (file_manager
     (Orchestrator.load_files Examples.disk_a
        (Orchestrator.set_directory Examples.disk_a Examples.renamer_a "/d").1).1) = []
  ∧ ((Orchestrator.load_files Examples.disk_a
        (Orchestrator.set_directory Examples.disk_a Examples.renamer_a "/d").1).2 = true
     ↔ Examples.scan Examples.disk_a
         (current_directory
            (file_manager
               (Orchestrator.set_directory Examples.disk_a Examples.renamer_a "/d").1))
         (file_types
            (file_manager
               (Orchestrator.set_directory Examples.disk_a Examples.renamer_a "/d").1))
         (recursive
            (file_manager
               (Orchestrator.set_directory Examples.disk_a Examples.renamer_a "/d").1))
       = [])
  ∧ (execute_rename Examples.plain_host Examples.disk_a
       (Orchestrator.load_files Examples.disk_a
          (Orchestrator.set_directory Examples.disk_a Examples.renamer_a "/d").1).1).1.1
    = Examples.disk_a
  ∧ undo_stack
      (execute_rename Examples.plain_host Examples.disk_a
         (Orchestrator.load_files Examples.disk_a
            (Orchestrator.set_directory Examples.disk_a Examples.renamer_a "/d").1).1).1.2
    = undo_stack (Orchestrator.set_directory Examples.disk_a Examples.renamer_a "/d").1
  ∧ (execute_rename Examples.plain_host Examples.disk_a
       (Orchestrator.load_files Examples.disk_a
          (Orchestrator.set_directory Examples.disk_a Examples.renamer_a "/d").1).1).2
    = (true, [], 0).
Proof.
  apply (load_files_loads_nothing Examples.plain_host Examples.disk_a
           (Orchestrator.set_directory Examples.disk_a Examples.renamer_a "/d").1).
  vm_compute. reflexivity.
Defined.

(** X28. filter_files_by_extension keeps exactly the files whose extension
    is one of the given extensions, letter case ignored on both sides; the
    files kept are unchanged and in the order they had, and filtering a
    second time by the same extensions removes nothing more. *)
Theorem filter_files_by_extension_keeps (fl : list FileItem) (extensions : list string) :
  (∀ f, f ∈ FileList.filter_files_by_extension fl extensions
        ↔ f ∈ fl ∧ ∃ ext, ext ∈ extensions ∧ lower (extension f) = lower ext)
  ∧ sublist (FileList.filter_files_by_extension fl extensions) fl
  ∧ FileList.filter_files_by_extension
      (FileList.filter_files_by_extension fl extensions) extensions
    = FileList.filter_files_by_extension fl extensions.
Proof.
  unfold FileList.filter_files_by_extension. repeat apply conj.
  - intros f. rewrite list_elem_of_filter.
    change (map ?g ?l) with (g <$> l). rewrite list_elem_of_fmap.
    split.
    + intros [(ext & Heq & Hin) Hf]. split; [done|]. by exists ext.
    + intros [Hf (ext & Hin & Heq)]. split; [|done]. by exists ext.
  - apply sublist_filter.
  - apply list_filter_filter_l. done.
Qed.
